(** * Webpage analyser: a shallow embedding of the analysis engine

    The development follows [internal/services/analyzer.go] and
    [internal/constants/constants.go].  Go strings are byte sequences and are
    modelled by [string] (a list of [ascii] bytes).  What the Go standard
    library and goquery provide is modelled next to the code that calls it;
    the parts that rest on tables or services outside the repository (Unicode
    case tables, the network, the cache, the HTML parser) are taken as
    parameters of the sections that use them. *)

From Stdlib Require Import String Ascii List ZArith NArith Bool Lia Permutation.
From Stdlib Require DecimalString.
Import ListNotations.
Local Open Scope list_scope.
Local Open Scope string_scope.

(** ** Go's [strings] and [regexp] packages, as far as the analyser uses them *)

Module GoStrings.

Definition byte (n : nat) : ascii := ascii_of_nat n.

Fixpoint bytes (l : list nat) : string :=
  match l with
  | [] => EmptyString
  | n :: l' => String (byte n) (bytes l')
  end.

Definition code (c : ascii) : N := N_of_ascii c.

(** [strings.Contains(s, substr)]. *)
Fixpoint Contains (s substr : string) : bool :=
  prefix substr s ||
  match s with
  | EmptyString => false
  | String _ s' => Contains s' substr
  end.

Definition upperByte (c : ascii) : ascii :=
  if ((97 <=? code c) && (code c <=? 122))%N then ascii_of_N (code c - 32) else c.

Definition lowerByte (c : ascii) : ascii :=
  if ((65 <=? code c) && (code c <=? 90))%N then ascii_of_N (code c + 32) else c.

Fixpoint mapBytes (f : ascii -> ascii) (s : string) : string :=
  match s with
  | EmptyString => EmptyString
  | String c s' => String (f c) (mapBytes f s')
  end.

(** No byte of [s] reaches [utf8.RuneSelf] (0x80). *)
Fixpoint isASCII (s : string) : bool :=
  match s with
  | EmptyString => true
  | String c s' => (code c <? 128)%N && isASCII s'
  end.

(** [strings.ToUpper] and [strings.ToLower]: a byte-wise pass when the text is
    ASCII only, otherwise [strings.Map(unicode.ToUpper, s)], whose tables are
    not part of the repository: [unicodeMap] stands for that call. *)
Definition ToUpper (unicodeMap : string -> string) (s : string) : string :=
  if isASCII s then mapBytes upperByte s else unicodeMap s.

Definition ToLower (unicodeMap : string -> string) (s : string) : string :=
  if isASCII s then mapBytes lowerByte s else unicodeMap s.

(** The ASCII entries of [unicode.IsSpace]: tab, LF, VT, FF, CR, space. *)
Definition isAsciiSpace (c : ascii) : bool :=
  let n := code c in
  ((9 <=? n) && (n <=? 13) || (n =? 32))%N.

(** The other code points of [unicode.IsSpace], by their UTF-8 bytes:
    U+0085 and U+00A0 (C2 85, C2 A0), U+1680 (E1 9A 80), U+2000..U+200A,
    U+2028, U+2029, U+202F (E2 80 xx), U+205F (E2 81 9F), U+3000 (E3 80 80). *)
Definition isSpace2 (a b : ascii) : bool :=
  ((code a =? 194) && ((code b =? 133) || (code b =? 160)))%N.

Definition isSpace3 (a b c : ascii) : bool :=
  let '(x, y, z) := (code a, code b, code c) in
  ((x =? 225) && (y =? 154) && (z =? 128)
   || (x =? 226) && (y =? 128)
      && ((128 <=? z) && (z <=? 138) || (z =? 168) || (z =? 169) || (z =? 175))
   || (x =? 226) && (y =? 129) && (z =? 159)
   || (x =? 227) && (y =? 128) && (z =? 128))%N.

Fixpoint trimLeft (s : string) : string :=
  match s with
  | EmptyString => EmptyString
  | String a t1 =>
      if isAsciiSpace a then trimLeft t1
      else match t1 with
           | EmptyString => s
           | String b t2 =>
               if isSpace2 a b then trimLeft t2
               else match t2 with
                    | EmptyString => s
                    | String c t3 => if isSpace3 a b c then trimLeft t3 else s
                    end
           end
  end.

Fixpoint revOnto (s acc : string) : string :=
  match s with
  | EmptyString => acc
  | String c s' => revOnto s' (String c acc)
  end.

Definition rev (s : string) : string := revOnto s EmptyString.

(** [trimLeft] on the reversed text: the multi-byte spaces are met last byte
    first. *)
Fixpoint trimLeftRev (s : string) : string :=
  match s with
  | EmptyString => EmptyString
  | String a t1 =>
      if isAsciiSpace a then trimLeftRev t1
      else match t1 with
           | EmptyString => s
           | String b t2 =>
               if isSpace2 b a then trimLeftRev t2
               else match t2 with
                    | EmptyString => s
                    | String c t3 => if isSpace3 c b a then trimLeftRev t3 else s
                    end
           end
  end.

(** [strings.TrimSpace]: leading and trailing [unicode.IsSpace] runes go. *)
Definition TrimSpace (s : string) : string :=
  rev (trimLeftRev (rev (trimLeft s))).

(** *** The four regular expressions of [constants.go]

    Each pattern is anchored at the start of the text and is used for one
    operation only, so each gets the matcher of that operation.  In RE2,
    [\s] is the class [\t\n\f\r ] and [.] is any character but LF; the fold
    of [(?i)] is the ASCII one for the letters of [xml] and [DOCTYPE]. *)

Definition isReSpace (c : ascii) : bool :=
  let n := code c in
  ((n =? 9) || (n =? 10) || (n =? 12) || (n =? 13) || (n =? 32))%N.

(** The longest match of [\s*]: what is left after it. *)
Fixpoint skipSpaces (s : string) : string :=
  match s with
  | EmptyString => EmptyString
  | String c s' => if isReSpace c then skipSpaces s' else s
  end.

(** A literal at the head of [s], under [(?i)] when [fold] is set: the text
    after it. *)
Fixpoint literal (fold : bool) (lit s : string) : option string :=
  match lit, s with
  | EmptyString, _ => Some s
  | String _ _, EmptyString => None
  | String l lit', String c s' =>
      if Ascii.eqb (if fold then upperByte c else c) (if fold then upperByte l else l)
      then literal fold lit' s' else None
  end.

(** [[^>]*] up to the first [>]: the characters before it and the text after
    it; [None] when [s] has no [>]. *)
Fixpoint untilGt (s : string) : option (string * string) :=
  match s with
  | EmptyString => None
  | String c s' =>
      if (code c =? 62)%N then Some (EmptyString, s')
      else match untilGt s' with
           | Some (run, rest) => Some (String c run, rest)
           | None => None
           end
  end.

Fixpoint lastByte (s : string) : option ascii :=
  match s with
  | EmptyString => None
  | String c EmptyString => Some c
  | String _ s' => lastByte s'
  end.

(** [RegexXMLDeclaration] is [(?i)^\s*<\?xml[^>]*\?>\s*]; with
    [ReplaceAllString] and an empty replacement the one possible match, at the
    start, is cut. *)
Definition stripXMLDeclaration (s : string) : string :=
  match literal true "<?xml" (skipSpaces s) with
  | Some r =>
      match untilGt r with
      | Some (run, rest) =>
          match lastByte run with
          | Some c => if (code c =? 63)%N then skipSpaces rest else s
          | None => s
          end
      | None => s
      end
  | None => s
  end.

(** [.*?-->]: the text after the first [-->] that no LF precedes. *)
Fixpoint untilCommentEnd (s : string) : option string :=
  match literal false "-->" s with
  | Some rest => Some rest
  | None =>
      match s with
      | EmptyString => None
      | String c s' => if (code c =? 10)%N then None else untilCommentEnd s'
      end
  end.

(** [RegexHTMLComment] is [(?i)^\s*<!--.*?-->\s*], used with
    [ReplaceAllString] and an empty replacement. *)
Definition stripComment (s : string) : string :=
  match literal false "<!--" (skipSpaces s) with
  | Some r =>
      match untilCommentEnd r with
      | Some rest => skipSpaces rest
      | None => s
      end
  | None => s
  end.

(** The part of [s] that [rest] is a suffix of does not include: the first
    [length s - length rest] bytes. *)
Definition upTo (s rest : string) : string :=
  substring 0 (String.length s - String.length rest) s.

(** [RegexDOCTYPEExtraction] is [(?i)^\s*<!DOCTYPE\s+[^>]*>], used with
    [FindString]: the matched text, leading blanks included, or the empty
    string. *)
Definition findDOCTYPE (s : string) : string :=
  match literal true "<!DOCTYPE" (skipSpaces s) with
  | Some (String c r) =>
      if isReSpace c then
        match untilGt r with
        | Some (_, rest) => upTo s rest
        | None => EmptyString
        end
      else EmptyString
  | _ => EmptyString
  end.

(** [RegexHTML5DOCTYPE] is [^\s*<!DOCTYPE\s+HTML\s*>\s*$], used with
    [MatchString]. *)
Definition matchHTML5DOCTYPE (s : string) : bool :=
  match literal false "<!DOCTYPE" (skipSpaces s) with
  | Some (String c r) =>
      isReSpace c &&
      match literal false "HTML" (skipSpaces r) with
      | Some r1 =>
          match literal false ">" (skipSpaces r1) with
          | Some r2 => String.eqb (skipSpaces r2) EmptyString
          | None => false
          end
      | None => false
      end
  | _ => false
  end.

End GoStrings.

(** ** [internal/constants/constants.go] *)

Module Constants.

Definition DefaultMaxLinks : Z := 100.
Definition DefaultMaxWorkers : Z := 20.
Definition DefaultMaxRedirects : Z := 0.
Definition DefaultLoginFormThreshold : Z := 10.

Definition StatusOK : Z := 200.
Definition StatusBadRequest : Z := 400.

Definition HTMLVersion5 := "HTML5".
Definition HTMLVersionXHTML11 := "XHTML 1.1".
Definition HTMLVersionXHTML10 := "XHTML 1.0".
Definition HTMLVersionXHTML10Strict := "XHTML 1.0 Strict".
Definition HTMLVersionXHTML10Transitional := "XHTML 1.0 Transitional".
Definition HTMLVersionXHTML10Frameset := "XHTML 1.0 Frameset".
Definition HTMLVersionHTML401 := "HTML 4.01".
Definition HTMLVersionHTML401Strict := "HTML 4.01 Strict".
Definition HTMLVersionHTML401Transitional := "HTML 4.01 Transitional".
Definition HTMLVersionHTML401Frameset := "HTML 4.01 Frameset".
Definition HTMLVersionHTML40 := "HTML 4.0".
Definition HTMLVersionHTML32 := "HTML 3.2".
Definition HTMLVersionHTML20 := "HTML 2.0".
Definition HTMLVersionXHTMLGeneric := "XHTML".
Definition HTMLVersionHTMLGeneric := "HTML".
Definition HTMLVersionUnknown := "Unknown DOCTYPE".

Definition DOCTYPEKeywordHTML := "HTML".
Definition DOCTYPEKeywordXHTML := "XHTML".
Definition DOCTYPEKeywordStrict := "STRICT".
Definition DOCTYPEKeywordTransitional := "TRANSITIONAL".
Definition DOCTYPEKeywordFrameset := "FRAMESET".
Definition DOCTYPEKeywordHTML401 := "HTML 4.01".
Definition DOCTYPEKeywordHTML40 := "HTML 4.0".
Definition DOCTYPEKeywordHTML32 := "HTML 3.2".
Definition DOCTYPEKeywordHTML20 := "HTML 2.0".
Definition DOCTYPEKeywordXHTML11 := "XHTML 1.1".
Definition DOCTYPEKeywordXHTML10 := "XHTML 1.0".

End Constants.

(** ** The markup version classifier *)

Module Classifier.
Import GoStrings Constants.

(** The entries of the map literal [simpleVersions], in the order the source
    writes them. *)
Definition simpleVersions : list (string * string) :=
  [ (DOCTYPEKeywordHTML40, HTMLVersionHTML40);
    (DOCTYPEKeywordHTML32, HTMLVersionHTML32);
    (DOCTYPEKeywordHTML20, HTMLVersionHTML20) ].

(** A [for ... range] over a Go map visits every entry once, in an order the
    language leaves open and the runtime varies from one loop to the next. *)
Definition rangeOrder (order : list (string * string)) : Prop :=
  Permutation simpleVersions order.

(** The labels of the report's [html_version] field, as the specification
    enumerates them. *)
Definition enumeratedLabels : list string :=
  [ "HTML5"; "XHTML 1.1"; "XHTML 1.0";
    "XHTML 1.0 Strict"; "XHTML 1.0 Transitional"; "XHTML 1.0 Frameset";
    "HTML 4.01";
    "HTML 4.01 Strict"; "HTML 4.01 Transitional"; "HTML 4.01 Frameset";
    "HTML 4.0"; "HTML 3.2"; "HTML 2.0"; "XHTML"; "HTML"; "Unknown" ].

(** The same labels with the last one spelled as the constants file spells
    it ([HTMLVersionUnknown]). *)
Definition codeLabels : list string :=
  [ "HTML5"; "XHTML 1.1"; "XHTML 1.0";
    "XHTML 1.0 Strict"; "XHTML 1.0 Transitional"; "XHTML 1.0 Frameset";
    "HTML 4.01";
    "HTML 4.01 Strict"; "HTML 4.01 Transitional"; "HTML 4.01 Frameset";
    "HTML 4.0"; "HTML 3.2"; "HTML 2.0"; "XHTML"; "HTML"; "Unknown DOCTYPE" ].

Section WithUnicode.

(** [strings.Map(unicode.ToUpper, s)], for text that is not ASCII only. *)
Variable unicodeUpper : string -> string.

Definition extractDOCTYPE (htmlContent : string) : string :=
  let cleanedHTML := TrimSpace htmlContent in
  let cleanedHTML := stripXMLDeclaration cleanedHTML in
  let cleanedHTML := stripComment cleanedHTML in
  let matches := findDOCTYPE cleanedHTML in
  ToUpper unicodeUpper matches.

Definition nonEmpty (s : string) : bool := negb (String.eqb s EmptyString).

Definition checkHTMLVersionWithVariants
    (doctype keyword baseVersion strictVersion transitionalVersion framesetVersion : string)
    : string :=
  if negb (Contains doctype keyword) then EmptyString
  else if nonEmpty strictVersion && Contains doctype DOCTYPEKeywordStrict
  then strictVersion
  else if nonEmpty transitionalVersion && Contains doctype DOCTYPEKeywordTransitional
  then transitionalVersion
  else if nonEmpty framesetVersion && Contains doctype DOCTYPEKeywordFrameset
  then framesetVersion
  else baseVersion.

(** The loop [for keyword, version := range simpleVersions], the entries
    coming in the order [order]: the version of the first entry whose keyword
    the doctype contains. *)
Fixpoint rangeSimpleVersions (order : list (string * string)) (doctype : string)
    : option string :=
  match order with
  | [] => None
  | (keyword, version) :: order' =>
      if Contains doctype keyword then Some version
      else rangeSimpleVersions order' doctype
  end.

Definition detectHTMLVersion (order : list (string * string)) (htmlContent : string)
    : string :=
  let doctype := extractDOCTYPE htmlContent in
  if String.eqb doctype EmptyString then HTMLVersion5
  else if matchHTML5DOCTYPE doctype then HTMLVersion5
  else
    let version :=
      checkHTMLVersionWithVariants doctype DOCTYPEKeywordXHTML11 HTMLVersionXHTML11
        EmptyString EmptyString EmptyString in
    if nonEmpty version then version
    else
    let version :=
      checkHTMLVersionWithVariants doctype DOCTYPEKeywordXHTML10 HTMLVersionXHTML10
        HTMLVersionXHTML10Strict HTMLVersionXHTML10Transitional HTMLVersionXHTML10Frameset in
    if nonEmpty version then version
    else
    let version :=
      checkHTMLVersionWithVariants doctype DOCTYPEKeywordHTML401 HTMLVersionHTML401
        HTMLVersionHTML401Strict HTMLVersionHTML401Transitional HTMLVersionHTML401Frameset in
    if nonEmpty version then version
    else
    match rangeSimpleVersions order doctype with
    | Some version => version
    | None =>
        if Contains doctype DOCTYPEKeywordXHTML then HTMLVersionXHTMLGeneric
        else if Contains doctype DOCTYPEKeywordHTML then HTMLVersionHTMLGeneric
        else HTMLVersionUnknown
    end.

End WithUnicode.

(** The test double for the Unicode tables: text that is not ASCII only is
    left as it is.  The examples below are ASCII, where it is never called. *)
Definition asciiOnly (s : string) : string := s.

Definition declaredOrder := simpleVersions.
Definition rotatedOrder : list (string * string) :=
  [ (DOCTYPEKeywordHTML20, HTMLVersionHTML20);
    (DOCTYPEKeywordHTML40, HTMLVersionHTML40);
    (DOCTYPEKeywordHTML32, HTMLVersionHTML32) ].

End Classifier.

(** ** The parsed document: [html.Node] trees and the goquery calls in use *)

Module Dom.
Import GoStrings.

Inductive NodeType :=
  ErrorNode | TextNode | DocumentNode | ElementNode | CommentNode | DoctypeNode | RawNode.

Definition NodeType_eqb (a b : NodeType) : bool :=
  match a, b with
  | ErrorNode, ErrorNode | TextNode, TextNode | DocumentNode, DocumentNode
  | ElementNode, ElementNode | CommentNode, CommentNode
  | DoctypeNode, DoctypeNode | RawNode, RawNode => true
  | _, _ => false
  end.

(** [html.Node]: type, data (the tag name of an element, the text of a text
    node), attributes as key and value, and the children from first to last.
    The parent pointer is not stored: the queries that need the parent return
    it with the node. *)
#[local] Set Warnings "-register-all".
Inductive Node :=
  mkNode (Type_ : NodeType) (Data : string) (Attr : list (string * string))
         (Children : list Node).

Definition Type_ (n : Node) := let 'mkNode t _ _ _ := n in t.
Definition Data (n : Node) := let 'mkNode _ d _ _ := n in d.
Definition Attrs (n : Node) := let 'mkNode _ _ a _ := n in a.
Definition Children (n : Node) := let 'mkNode _ _ _ c := n in c.

Definition element (tag : string) (attr : list (string * string)) (children : list Node) :=
  mkNode ElementNode tag attr children.
Definition text (data : string) := mkNode TextNode data [] [].
Definition document (children : list Node) := mkNode DocumentNode EmptyString [] children.

(** A goquery [Selection] holds nodes in document order. *)
Definition Selection := list Node.

Definition Length (s : Selection) : Z := Z.of_nat (List.length s).

(** [Selection.Attr(name)] on one node: the value of the first attribute of
    that key, and whether there is one. *)
Fixpoint lookupAttr (attr : list (string * string)) (name : string) : option string :=
  match attr with
  | [] => None
  | (k, v) :: attr' => if String.eqb k name then Some v else lookupAttr attr' name
  end.

Definition Attr (n : Node) (name : string) : option string := lookupAttr (Attrs n) name.

(** [Selection.Text()] on one node: the data of a text node, otherwise the
    texts of the children, joined. *)
Fixpoint Text (n : Node) : string :=
  let 'mkNode t d _ cs := n in
  if NodeType_eqb t TextNode then d
  else (fix texts (l : list Node) : string :=
          match l with
          | [] => EmptyString
          | c :: l' => Text c ++ texts l'
          end) cs.

(** All nodes below [n], in document order, each with its parent. *)
Fixpoint descendantsWithParent (n : Node) : list (Node * Node) :=
  (fix below (l : list Node) : list (Node * Node) :=
     match l with
     | [] => []
     | c :: l' => (n, c) :: (descendantsWithParent c ++ below l')%list
     end) (Children n).

Definition descendants (n : Node) : list Node := map snd (descendantsWithParent n).

(** [Selection.Parent().Text()] for a node whose parent is [p]: goquery keeps
    the parent only when it is an element. *)
Definition parentText (p : Node) : string :=
  if NodeType_eqb (Type_ p) ElementNode then Text p else EmptyString.

(** *** Selectors

    The selectors of the analyser are groups of compound selectors, a tag
    name with attribute tests, which cascadia compiles from text.  The ones
    written out in the source are given compiled. *)

Inductive attrSelector :=
| attrHas (key : string)                    (* [key] *)
| attrEquals (key val : string)             (* [key='val'] *)
| attrSubstrFold (key val : string).        (* [key*='val' i] *)

Record compound := { selTag : string; selAttrs : list attrSelector }.

Definition selector := list compound.

Definition tag (t : string) : compound := {| selTag := t; selAttrs := [] |}.
Definition tagWith (t : string) (a : attrSelector) : compound :=
  {| selTag := t; selAttrs := [a] |}.

Section WithLibrary.

(** [strings.Map(unicode.ToLower, s)], for text that is not ASCII only. *)
Variable unicodeLower : string -> string.

(** cascadia's [matchAttribute]: some attribute of that key passes the test. *)
Definition matchAttribute (n : Node) (key : string) (f : string -> bool) : bool :=
  existsb (fun a => String.eqb (fst a) key && f (snd a)) (Attrs n).

Definition matchAttr (n : Node) (a : attrSelector) : bool :=
  match a with
  | attrHas key => matchAttribute n key (fun _ => true)
  | attrEquals key val => matchAttribute n key (fun s => String.eqb s val)
  | attrSubstrFold key val =>
      if String.eqb val EmptyString then false
      else matchAttribute n key
             (fun s => Contains (ToLower unicodeLower s) (ToLower unicodeLower val))
  end.

Definition matchCompound (n : Node) (c : compound) : bool :=
  NodeType_eqb (Type_ n) ElementNode && String.eqb (Data n) (selTag c)
  && forallb (matchAttr n) (selAttrs c).

Definition matches (sel : selector) (n : Node) : bool := existsb (matchCompound n) sel.

(** [Selection.Find(selector)] from one node: the matching nodes below it. *)
Definition Find (sel : selector) (n : Node) : Selection :=
  filter (matches sel) (descendants n).

Definition FindWithParent (sel : selector) (n : Node) : list (Node * Node) :=
  filter (fun pc => matches sel (snd pc)) (descendantsWithParent n).

End WithLibrary.

End Dom.

(** ** The login-form heuristic scorer *)

Module Scorer.
Import GoStrings Dom Constants.

Definition providers : list string :=
  ["google"; "facebook"; "github"; "twitter"; "microsoft"].

(** A value that cascadia reads back unchanged from between single quotes:
    no quote, backslash, CR, LF or FF in it. *)
Definition plainValue (s : string) : bool :=
  negb (existsb (fun c => Contains s (String (byte c) EmptyString)) [39; 92; 13; 10; 12]%nat).

Definition passwordSelector : selector :=
  [tagWith "input" (attrEquals "type" "password")].

Definition userSelector : selector :=
  [ tagWith "input" (attrEquals "type" "text");
    tagWith "input" (attrEquals "type" "email");
    tagWith "input" (attrSubstrFold "name" "username");
    tagWith "input" (attrSubstrFold "name" "email");
    tagWith "input" (attrSubstrFold "id" "username");
    tagWith "input" (attrSubstrFold "id" "email") ].

Definition submitSelector : selector :=
  [ tagWith "button" (attrEquals "type" "submit");
    tagWith "input" (attrEquals "type" "submit") ].

Definition checkboxSelector : selector :=
  [tagWith "input" (attrEquals "type" "checkbox")].

Definition pageSelector : selector :=
  [ tagWith "meta" (attrSubstrFold "name" "sign");
    tagWith "meta" (attrSubstrFold "name" "auth");
    tagWith "link" (attrSubstrFold "rel" "authorization") ].

Section WithLibrary.

Variable unicodeLower : string -> string.

(** [Selection.Find] for a selector whose text is put together at run time
    and is then left to cascadia to read. *)
Variable cssFind : string -> Node -> Selection.

Definition actionMatches (form : Node) : bool :=
  match Attr form "action" with
  | Some action =>
      let actionLower := ToLower unicodeLower action in
      Contains actionLower "login" || Contains actionLower "signin"
      || Contains actionLower "auth"
  | None => false
  end.

Definition passwordFields (form : Node) : Selection :=
  Find unicodeLower passwordSelector form.

Definition userFields (form : Node) : Selection :=
  Find unicodeLower userSelector form.

Definition submitControls (form : Node) : Selection :=
  Find unicodeLower submitSelector form.

Definition submitMatches (btn : Node) : bool :=
  let btnText := ToLower unicodeLower (Text btn) in
  let btnText :=
    match Attr btn "value" with
    | Some btnVal => btnText ++ " " ++ ToLower unicodeLower btnVal
    | None => btnText
    end in
  Contains btnText "login" || Contains btnText "sign in" || Contains btnText "log in".

(** [form.Find("label[for='" + labelFor + "']")]. *)
Definition findLabels (form : Node) (labelFor : string) : Selection :=
  if plainValue labelFor
  then Find unicodeLower [tagWith "label" (attrEquals "for" labelFor)] form
  else cssFind ("label[for='" ++ labelFor ++ "']") form.

(** The filter of the remember-me check, on a checkbox [s] with parent [p]. *)
Definition isRememberMe (form : Node) (ps : Node * Node) : bool :=
  let '(p, s) := ps in
  let label := parentText p in
  let label :=
    match Attr s "id" with
    | Some labelFor =>
        fold_left (fun label l => label ++ " " ++ Text l) (findLabels form labelFor) label
    | None => label
    end in
  let labelLower := ToLower unicodeLower label in
  Contains labelLower "remember me" || Contains labelLower "keep me signed in".

Definition rememberMe (form : Node) : list (Node * Node) :=
  filter (isRememberMe form) (FindWithParent unicodeLower checkboxSelector form).

Definition isForgotPassword (s : Node) : bool :=
  let text := ToLower unicodeLower (Text s) in
  Contains text "forgot" && Contains text "password".

Definition forgotPwd (form : Node) : Selection :=
  filter isForgotPassword (Find unicodeLower [tag "a"] form).

Definition isOAuthButton (s : Node) : bool :=
  let text := ToLower unicodeLower (Text s) in
  let classes := match Attr s "class" with Some c => c | None => EmptyString end in
  let classesLower := ToLower unicodeLower classes in
  existsb
    (fun provider =>
       Contains text ("sign in with " ++ provider)
       || Contains text ("login with " ++ provider)
       || (Contains classesLower provider
           && (Contains classesLower "auth" || Contains classesLower "login"
               || Contains classesLower "oauth")))
    providers.

Definition oauthButtons (form : Node) : Selection :=
  filter isOAuthButton (Find unicodeLower [tag "button"; tag "a"] form).

(** The body of the callback of [doc.Find("form").Each]: the score of one
    form.  Go's [int] is 64 bits wide; every addition goes with a node of the
    tree in memory, so the sum stays far from the bound and is taken in [Z]. *)
Definition formScore (form : Node) : Z :=
  let formScore := 0%Z in
  let formScore := if actionMatches form then (formScore + 3)%Z else formScore in
  let formScore :=
    if (Length (passwordFields form) >? 0)%Z then (formScore + 4)%Z else formScore in
  let formScore :=
    if (Length (userFields form) >? 0)%Z then (formScore + 3)%Z else formScore in
  let formScore :=
    fold_left (fun formScore btn =>
                 if submitMatches btn then (formScore + 2)%Z else formScore)
              (submitControls form) formScore in
  let formScore :=
    if (Z.of_nat (List.length (rememberMe form)) >? 0)%Z
    then (formScore + 2)%Z else formScore in
  let formScore :=
    if (Length (forgotPwd form) >? 0)%Z then (formScore + 2)%Z else formScore in
  let formScore :=
    if (Length (oauthButtons form) >? 0)%Z then (formScore + 2)%Z else formScore in
  formScore.

(** The first loop of [detectLoginForm]: the highest form score so far. *)
Definition bestFormScore (forms : Selection) (score : Z) : Z :=
  fold_left (fun score form =>
               let formScore := formScore form in
               if (formScore >? score)%Z then formScore else score)
            forms score.

Definition pageSignal (s : Node) : bool :=
  match Attr s "content" with
  | Some content => Contains (ToLower unicodeLower content) "auth"
  | None => false
  end.

(** The second loop: one more point for each matching meta or link tag. *)
Definition addPageSignals (tags : Selection) (score : Z) : Z :=
  fold_left (fun score s => if pageSignal s then (score + 1)%Z else score) tags score.

Definition loginScore (doc : Node) : Z :=
  let score := 0%Z in
  let score := bestFormScore (Find unicodeLower [tag "form"] doc) score in
  addPageSignals (Find unicodeLower pageSelector doc) score.

Definition detectLoginForm (doc : Node) : bool :=
  let requiredScore := DefaultLoginFormThreshold in
  (loginScore doc >=? requiredScore)%Z.

(** *** The factors of the score, one by one

    What [formScore] adds up, read off the same queries: which factors a form
    shows, and how many submit controls carry a login text. *)
Record signals := {
  actionKeyword : bool;
  passwordField : bool;
  userField : bool;
  submitTexts : Z;
  rememberCheckbox : bool;
  forgotLink : bool;
  oauthControl : bool
}.

Definition signalsOf (form : Node) : signals :=
  {| actionKeyword := actionMatches form;
     passwordField := (Length (passwordFields form) >? 0)%Z;
     userField := (Length (userFields form) >? 0)%Z;
     submitTexts := Length (filter submitMatches (submitControls form));
     rememberCheckbox := (Z.of_nat (List.length (rememberMe form)) >? 0)%Z;
     forgotLink := (Length (forgotPwd form) >? 0)%Z;
     oauthControl := (Length (oauthButtons form) >? 0)%Z |}.

(** The number of meta and link tags that earn the page-level point. *)
Definition pageSignals (doc : Node) : Z :=
  Length (filter pageSignal (Find unicodeLower pageSelector doc)).

End WithLibrary.

(** The test doubles: text that is not ASCII only keeps its case, and a
    selector put together at run time that is not of the plain form matches
    nothing. *)
Definition asciiOnly (s : string) : string := s.
Definition noMatch (sel : string) (n : Node) : Selection := [].

(** The weights of the factors. *)
Definition points (b : bool) (w : Z) : Z := if b then w else 0%Z.

Definition weigh (s : signals) : Z :=
  (points (actionKeyword s) 3 + points (passwordField s) 4 + points (userField s) 3
   + 2 * submitTexts s + points (rememberCheckbox s) 2 + points (forgotLink s) 2
   + points (oauthControl s) 2)%Z.

(** Every signal of [s] is a signal of [s'] too. *)
Definition covers (s s' : signals) : Prop :=
  (actionKeyword s = true -> actionKeyword s' = true)
  /\ (passwordField s = true -> passwordField s' = true)
  /\ (userField s = true -> userField s' = true)
  /\ (submitTexts s <= submitTexts s')%Z
  /\ (rememberCheckbox s = true -> rememberCheckbox s' = true)
  /\ (forgotLink s = true -> forgotLink s' = true)
  /\ (oauthControl s = true -> oauthControl s' = true).

(** Scenario D: a password field, a user field and one submit control with a
    login text, nothing else. *)
Definition scenarioD : signals :=
  {| actionKeyword := false; passwordField := true; userField := true;
     submitTexts := 1; rememberCheckbox := false; forgotLink := false;
     oauthControl := false |}.

End Scorer.

(** ** Results of calls that can fail, panic or never come back *)

Module Go.

(** A Go [error] is kept as its message. *)
Definition error := string.

(** The pair [(value, err)] of a call that gives one or the other. *)
Inductive result (A : Type) :=
| Ok (a : A)
| Err (e : error).
Arguments Ok {A} a.
Arguments Err {A} e.

(** How a call ends: it returns, it panics, or it waits for ever. *)
Inductive outcome (A : Type) :=
| Returns (a : A)
| Panics
| Blocks.
Arguments Returns {A} a.
Arguments Panics {A}.
Arguments Blocks {A}.

(** The verb [%d] of [fmt]. *)
Definition showInt (z : Z) : string := DecimalString.NilEmpty.string_of_int (Z.to_int z).

End Go.

(** ** The link extractor and the reachability prober *)

Module Links.
Import GoStrings Dom Constants Go.

(** What the analyser reads of a [url.URL]: two fields and [String()]. *)
Record URL := { Scheme : string; Host : string; Rendered : string }.

Record linkCheckRequest := { url : string; isInternal : bool }.

Record LinkAnalysis := { Internal : Z; External : Z; Inaccessible : Z }.

Record AnalyzerConfig := { MaxLinks : Z; MaxWorkers : Z; MaxRedirects : Z }.

(** The state the callback of [doc.Find("a[href]").Each] works on. *)
Record collected := {
  analysis : LinkAnalysis;
  externalLinks : list string;
  internalLinks : list string
}.

Definition linkSelector : selector := [tagWith "a" (attrHas "href")].

Definition externalRequest (u : string) := {| url := u; isInternal := false |}.
Definition internalRequest (u : string) := {| url := u; isInternal := true |}.

(** A dispatched task: its place in the order of admission, and the request. *)
Definition task : Type := nat * linkCheckRequest.

Fixpoint number (i : nat) (l : list linkCheckRequest) : list task :=
  match l with
  | [] => []
  | r :: l' => (i, r) :: number (S i) l'
  end.

Section WithNetwork.

Variable unicodeLower : string -> string.

(** [baseURL.Parse(href)]: the resolved reference, or [None] for an error. *)
Variable ParseRef : URL -> string -> option URL.

(** The HEAD request of the probe of a task: the status code of the answer,
    or [None] when the request cannot be built or sent, times out or is
    cancelled. *)
Variable head : task -> option Z.

(** The largest capacity [make] accepts for a channel of requests on the
    platform; a larger or a negative one makes it panic. *)
Variable maxChanCap : Z.

Definition collectStep (baseURL : URL) (st : collected) (s : Node) : collected :=
  match Attr s "href" with
  | Some href =>
      match ParseRef baseURL href with
      | None => st
      | Some linkURL =>
          let a := analysis st in
          if String.eqb (Host linkURL) (Host baseURL)
          then {| analysis := {| Internal := Internal a + 1; External := External a;
                                 Inaccessible := Inaccessible a |};
                  externalLinks := externalLinks st;
                  internalLinks := (internalLinks st ++ [Rendered linkURL])%list |}
          else {| analysis := {| Internal := Internal a; External := External a + 1;
                                 Inaccessible := Inaccessible a |};
                  externalLinks := (externalLinks st ++ [Rendered linkURL])%list;
                  internalLinks := internalLinks st |}
      end
  | None => st
  end.

(** What the callback sees of one anchor: the resolved target, if any. *)
Definition resolved (baseURL : URL) (s : Node) : option URL :=
  match Attr s "href" with
  | Some href => ParseRef baseURL href
  | None => None
  end.

Definition resolves (baseURL : URL) (s : Node) : bool :=
  match resolved baseURL s with Some _ => true | None => false end.

Definition resolvesInternal (baseURL : URL) (s : Node) : bool :=
  match resolved baseURL s with
  | Some linkURL => String.eqb (Host linkURL) (Host baseURL)
  | None => false
  end.

Definition resolvesExternal (baseURL : URL) (s : Node) : bool :=
  match resolved baseURL s with
  | Some linkURL => negb (String.eqb (Host linkURL) (Host baseURL))
  | None => false
  end.

Definition collectLinks (doc : Node) (baseURL : URL) : collected :=
  fold_left (collectStep baseURL) (Find unicodeLower linkSelector doc)
    {| analysis := {| Internal := 0; External := 0; Inaccessible := 0 |};
       externalLinks := []; internalLinks := [] |}.

(** The loop over [externalLinks] with its [break]: the counter and the
    buffer of [linkChan] after it. *)
Fixpoint admitExternal (externalLinks : list string) (linksToCheck maxLinksToCheck : Z)
    (linkChan : list linkCheckRequest) : Z * list linkCheckRequest :=
  match externalLinks with
  | [] => (linksToCheck, linkChan)
  | link :: rest =>
      if (linksToCheck >=? maxLinksToCheck)%Z then (linksToCheck, linkChan)
      else admitExternal rest (linksToCheck + 1)%Z maxLinksToCheck
             (linkChan ++ [externalRequest link])%list
  end.

(** The loop [for i := 0; i < internalLinksToCheck; i++], from [i] on;
    [fuel] bounds the passes, and an index out of range is a panic. *)
Fixpoint admitInternal (fuel : nat) (i internalLinksToCheck : Z)
    (internalLinks : list string) (linksToCheck : Z)
    (linkChan : list linkCheckRequest) : option (Z * list linkCheckRequest) :=
  match fuel with
  | O => Some (linksToCheck, linkChan)
  | S fuel' =>
      if (i <? internalLinksToCheck)%Z then
        match nth_error internalLinks (Z.to_nat i) with
        | Some link =>
            admitInternal fuel' (i + 1)%Z internalLinksToCheck internalLinks
              (linksToCheck + 1)%Z
              (linkChan ++ [internalRequest link])%list
        | None => None
        end
      else Some (linksToCheck, linkChan)
  end.

(** Both loops: what is sent down [linkChan], in order, and the final
    [linksToCheck]. *)
Definition admitLinks (maxLinksToCheck : Z) (c : collected)
    : option (Z * list linkCheckRequest) :=
  let linksToCheck := 0%Z in
  let '(linksToCheck, linkChan) :=
    admitExternal (externalLinks c) linksToCheck maxLinksToCheck [] in
  let remainingCapacity := (maxLinksToCheck - linksToCheck)%Z in
  let internalLinksToCheck := Z.of_nat (List.length (internalLinks c)) in
  let internalLinksToCheck :=
    if (internalLinksToCheck >? remainingCapacity)%Z then remainingCapacity
    else internalLinksToCheck in
  admitInternal (Z.to_nat internalLinksToCheck) 0 internalLinksToCheck
    (internalLinks c) linksToCheck linkChan.

(** [checkLinkWithTimeout]: accessible when an answer comes with a status
    below 400. *)
Definition checkLinkWithTimeout (t : task) : bool :=
  match head t with
  | None => false
  | Some StatusCode => (StatusCode <? StatusBadRequest)%Z
  end.

(** *** The worker pool

    The main goroutine sends the admitted tasks down [linkChan], closes it and
    then drains [resultChan]; each of the [MaxWorkers] workers takes a task,
    probes it and sends the outcome.  A state of the pool: the tasks not yet
    sent, the buffers of the two channels, the tasks being probed, and the
    counter [analysis.Inaccessible]. *)
Record pool := {
  unsent : list task;
  linkChan : list task;
  probing : list task;
  resultChan : list bool;
  counted : Z
}.

Definition startPool (tasks : list task) : pool :=
  {| unsent := tasks; linkChan := []; probing := []; resultChan := []; counted := 0 |}.

(** All tasks were sent, [linkChan] is closed and empty, the wait group is
    down to zero, [resultChan] is closed and drained: the range loop ends. *)
Definition finished (p : pool) : Prop :=
  unsent p = [] /\ linkChan p = [] /\ probing p = [] /\ resultChan p = [].

Inductive step (cfg : AnalyzerConfig) : pool -> pool -> Prop :=
| step_send : forall t us q w r n,
    (Z.of_nat (List.length q) < MaxLinks cfg)%Z ->
    step cfg {| unsent := t :: us; linkChan := q; probing := w; resultChan := r; counted := n |}
             {| unsent := us; linkChan := (q ++ [t])%list; probing := w; resultChan := r;
                counted := n |}
| step_take : forall us t q w r n,
    (Z.of_nat (List.length w) < MaxWorkers cfg)%Z ->
    step cfg {| unsent := us; linkChan := t :: q; probing := w; resultChan := r; counted := n |}
             {| unsent := us; linkChan := q; probing := t :: w; resultChan := r; counted := n |}
| step_probed : forall us q w1 t w2 r n,
    (Z.of_nat (List.length r) < MaxLinks cfg)%Z ->
    step cfg {| unsent := us; linkChan := q; probing := (w1 ++ t :: w2)%list; resultChan := r;
                counted := n |}
             {| unsent := us; linkChan := q; probing := (w1 ++ w2)%list;
                resultChan := (r ++ [checkLinkWithTimeout t])%list; counted := n |}
| step_count : forall q w accessible r n,
    step cfg {| unsent := []; linkChan := q; probing := w; resultChan := accessible :: r;
                counted := n |}
             {| unsent := []; linkChan := q; probing := w; resultChan := r;
                counted := if accessible then n else (n + 1)%Z |}.

Inductive steps (cfg : AnalyzerConfig) : pool -> pool -> Prop :=
| steps_refl : forall p, steps cfg p p
| steps_step : forall p q r, step cfg p q -> steps cfg q r -> steps cfg p r.

(** The pool, started on [tasks], comes to its end with the count [n]. *)
Definition poolReturns (cfg : AnalyzerConfig) (tasks : list task) (n : Z) : Prop :=
  exists p, steps cfg (startPool tasks) p /\ finished p /\ counted p = n.

(** The number of tasks of [l] whose probe says inaccessible. *)
Definition countInaccessible (l : list task) : Z :=
  Z.of_nat (List.length (filter (fun t => negb (checkLinkWithTimeout t)) l)).

(** The tasks and outcomes a state of the pool holds, and a bound on the
    steps it can still take: a task not yet sent has four of them to go. *)
Definition inPool (p : pool) : nat :=
  (List.length (unsent p) + List.length (linkChan p) + List.length (probing p)
   + List.length (resultChan p))%nat.

Definition stepsLeft (p : pool) : nat :=
  (4 * List.length (unsent p) + 3 * List.length (linkChan p)
   + 2 * List.length (probing p) + List.length (resultChan p))%nat.

(** The outcomes in a buffer of [resultChan] that say inaccessible. *)
Definition inaccessibleResults (r : list bool) : Z :=
  Z.of_nat (List.length (filter negb r)).

(** What the counter will come to: the inaccessible tasks still on their way
    and the outcomes not yet counted, on top of the counter. *)
Definition outstanding (p : pool) : Z :=
  (countInaccessible (unsent p) + countInaccessible (linkChan p)
   + countInaccessible (probing p) + inaccessibleResults (resultChan p) + counted p)%Z.

(** [analyzeLinks], with the count every run of the pool ends on (see
    [pool_count] and [analyzeLinks_pool] below). *)
Definition analyzeLinks (cfg : AnalyzerConfig) (doc : Node) (baseURL : URL)
    : outcome LinkAnalysis :=
  if ((MaxLinks cfg <? 0) || (maxChanCap <? MaxLinks cfg))%Z then Panics
  else
    let c := collectLinks doc baseURL in
    match admitLinks (MaxLinks cfg) c with
    | None => Panics
    | Some (_, sent) =>
        let tasks := number 0 sent in
        if (MaxWorkers cfg <=? 0)%Z && negb (Nat.eqb (List.length tasks) 0) then Blocks
        else Returns {| Internal := Internal (analysis c);
                        External := External (analysis c);
                        Inaccessible := countInaccessible tasks |}
    end.

(** The tasks [analyzeLinks] dispatches, when it gets that far. *)
Definition admitted (cfg : AnalyzerConfig) (doc : Node) (baseURL : URL) : list task :=
  match admitLinks (MaxLinks cfg) (collectLinks doc baseURL) with
  | Some (_, sent) => number 0 sent
  | None => []
  end.

(** *** The admission policy in the words of the specification

    External links first, up to the budget; then internal links, in document
    order, up to what is left of it. *)
Definition admittedExternal (B : Z) (c : collected) : list string :=
  firstn (Z.to_nat B) (externalLinks c).

Definition admittedInternal (B : Z) (c : collected) : list string :=
  firstn (Z.to_nat (B - Z.of_nat (List.length (admittedExternal B c))))
         (internalLinks c).

Definition policy (B : Z) (c : collected) : list linkCheckRequest :=
  (map externalRequest (admittedExternal B c)
   ++ map internalRequest (admittedInternal B c))%list.

End WithNetwork.

End Links.

(** ** The fetcher and the orchestrator *)

Module Analyzer.
Import GoStrings Dom Constants Go Links.

(** [io.ReadAll(resp.Body)]: the bytes, or the error of the read. *)
Inductive body :=
| BodyBytes (bodyBytes : string)
| BodyFails (err : error).

(** [httpClient.Get(url)]: an error, or a response with its status code and
    its body still to be read. *)
Inductive getResult :=
| GetFails (err : error)
| Response (StatusCode : Z) (Body : body).

Record AnalyzeResponse := {
  URL_ : string;
  HTMLVersion : string;
  Title : string;
  Headings : list (string * Z);
  Links_ : LinkAnalysis;
  HasLoginForm : bool;
  AnalyzedAt : Z
}.

Section WithCollaborators.

Variables unicodeUpper unicodeLower : string -> string.
Variable cssFind : string -> Node -> Selection.
Variable ParseRef : URL -> string -> option URL.
Variable head : task -> option Z.
Variable maxChanCap : Z.

(** [url.Parse]. *)
Variable urlParse : string -> result URL.

Variable httpGet : string -> getResult.

(** [goquery.NewDocumentFromReader] on the fetched text. *)
Variable newDocument : string -> result Node.

(** [cache.Get]: Go's pair of a result, or nil, and an error, or nil. *)
Variable cacheGet : string -> option AnalyzeResponse * option error.

(** [cache.Set]: an error, or nil. *)
Variable cacheSet : string -> AnalyzeResponse -> option error.

(** [time.Now()]. *)
Variable now : Z.

(** The order in which the range over [simpleVersions] runs in this call. *)
Variable order : list (string * string).

Variable config : AnalyzerConfig.

Definition parseAndValidateURL (targetURL : string) : result URL :=
  match urlParse targetURL with
  | Err err => Err ("invalid URL: " ++ err)
  | Ok parsedURL =>
      if String.eqb (Scheme parsedURL) EmptyString || String.eqb (Host parsedURL) EmptyString
      then Err "invalid URL: missing scheme or host"
      else if negb (String.eqb (Scheme parsedURL) "http")
              && negb (String.eqb (Scheme parsedURL) "https")
      then Err ("invalid URL: unsupported scheme " ++ Scheme parsedURL)
      else Ok parsedURL
  end.

Definition fetchWebpage (targetURL : string) : result string :=
  match httpGet targetURL with
  | GetFails err => Err ("failed to fetch webpage: " ++ err)
  | Response StatusCode Body =>
      if negb (StatusCode =? StatusOK)%Z
      then Err ("webpage returned status code " ++ showInt StatusCode)
      else match Body with
           | BodyFails err => Err ("failed to read response body: " ++ err)
           | BodyBytes bodyBytes => Ok bodyBytes
           end
  end.

Definition parseHTML (htmlContent : string) : result Node :=
  match newDocument htmlContent with
  | Err err => Err ("failed to parse HTML: " ++ err)
  | Ok doc => Ok doc
  end.

Definition extractPageTitle (doc : Node) : string :=
  TrimSpace (String.concat EmptyString (map Text (Find unicodeLower [tag "title"] doc))).

Definition countHeadings (doc : Node) : list (string * Z) :=
  map (fun i => let selector := "h" ++ showInt i in
                (selector, Length (Find unicodeLower [tag selector] doc)))
      [1; 2; 3; 4; 5; 6]%Z.

Definition performWebpageAnalysis (targetURL htmlContent : string) (doc : Node)
    (parsedURL : URL) : outcome AnalyzeResponse :=
  let version := Classifier.detectHTMLVersion unicodeUpper order htmlContent in
  let title := extractPageTitle doc in
  let headings := countHeadings doc in
  match analyzeLinks unicodeLower ParseRef head maxChanCap config doc parsedURL with
  | Panics => Panics
  | Blocks => Blocks
  | Returns links =>
      Returns {| URL_ := targetURL;
                 HTMLVersion := version;
                 Title := title;
                 Headings := headings;
                 Links_ := links;
                 HasLoginForm := Scorer.detectLoginForm unicodeLower cssFind doc;
                 AnalyzedAt := now |}
  end.

(** [Analyze]: how the call ends, and what it wrote to the error log. *)
Definition Analyze (targetURL : string) : list string * outcome (result AnalyzeResponse) :=
  let '(cached, getErr) := cacheGet targetURL in
  let log := match getErr with
             | Some _ => ["Failed to get from cache"]
             | None => []
             end in
  match getErr, cached with
  | None, Some result => (log, Returns (Ok result))
  | _, _ =>
      match parseAndValidateURL targetURL with
      | Err err => (log, Returns (Err err))
      | Ok parsedURL =>
          match fetchWebpage targetURL with
          | Err err => (log, Returns (Err err))
          | Ok htmlContent =>
              match parseHTML htmlContent with
              | Err err => (log, Returns (Err err))
              | Ok doc =>
                  match performWebpageAnalysis targetURL htmlContent doc parsedURL with
                  | Panics => (log, Panics)
                  | Blocks => (log, Blocks)
                  | Returns result =>
                      match cacheSet targetURL result with
                      | Some _ => ((log ++ ["Failed to cache result"])%list, Returns (Ok result))
                      | None => (log, Returns (Ok result))
                      end
                  end
              end
          end
      end
  end.

End WithCollaborators.

End Analyzer.

(** ** Sample documents and test doubles for the collaborators *)

Module Samples.
Import GoStrings Dom Go Links Analyzer.

Definition input (type name : string) : Node :=
  element "input" [("type", type); ("name", name)] [].

Definition submitButton (label : string) : Node :=
  element "button" [("type", "submit")] [text label].

(** The form of scenario D: user name, password and a button labelled Login. *)
Definition plainForm : Node :=
  element "form" []
    [input "text" "username"; input "password" "password"; submitButton "Login"].

(** The same form with an action that names the login. *)
Definition loginForm : Node :=
  element "form" [("action", "/login")]
    [input "text" "username"; input "password" "password"; submitButton "Login"].

Definition page (head body : list Node) : Node :=
  document [element "html" [] [element "head" [] head; element "body" [] body]].

Definition authMeta : Node :=
  element "meta" [("name", "auth-provider"); ("content", "oauth2")] [].

(** No form, ten meta tags that name an auth provider. *)
Definition metaPage : Node := page (repeat authMeta 10) [element "p" [] [text "Welcome"]].

Definition anchor (href label : string) : Node :=
  element "a" [("href", href)] [text label].

(** Two links of the page's own host, two of other hosts, one that does not
    resolve, and an anchor without target. *)
Definition linkPage : Node :=
  page []
    [ anchor "/internal1" "Internal Link 1";
      anchor "http://up.test/" "External Accessible";
      anchor "/internal2" "Internal Link 2";
      anchor "::bad" "Broken";
      anchor "http://down.test/" "External Inaccessible";
      element "a" [("name", "top")] [text "Top"] ].

Definition exampleCom : URL :=
  {| Scheme := "http"; Host := "example.com"; Rendered := "http://example.com" |}.

(** A resolver for the references of [linkPage]: a path stays on the host of
    the base, the two absolute references name their hosts, anything else
    is an error. *)
Definition resolveSample (baseURL : URL) (href : string) : option URL :=
  if prefix "/" href then
    Some {| Scheme := Scheme baseURL; Host := Host baseURL;
            Rendered := Scheme baseURL ++ "://" ++ Host baseURL ++ href |}
  else if String.eqb href "http://up.test/" then
    Some {| Scheme := "http"; Host := "up.test"; Rendered := href |}
  else if String.eqb href "http://down.test/" then
    Some {| Scheme := "http"; Host := "down.test"; Rendered := href |}
  else None.

(** The network of the link test of the repository: nothing listens on the
    page's own host, one foreign host answers 200 and the other 404. *)
Definition headSample (t : task) : option Z :=
  if isInternal (snd t) then None
  else if String.eqb (url (snd t)) "http://up.test/" then Some 200%Z
  else Some 404%Z.

Definition asciiOnlyLower : string -> string := Scorer.asciiOnly.

Definition chanCapSample : Z := 2 ^ 40.

Definition configSample (maxLinks : Z) : AnalyzerConfig :=
  {| MaxLinks := maxLinks; MaxWorkers := 2; MaxRedirects := 0 |}.

Definition urlParseSample (s : string) : result URL :=
  if String.eqb s "http://example.com" then Ok exampleCom else Err "parse error".

(** A server that answers 200 and whose body cannot be read to its end. *)
Definition getTruncated (u : string) : getResult :=
  Response 200 (BodyFails "unexpected EOF").

Definition getPage (u : string) : getResult :=
  Response 200 (BodyBytes "<!DOCTYPE html><html></html>").

Definition parserFails (s : string) : result Node := Err "read error".
Definition parserSample (s : string) : result Node := Ok linkPage.

Definition cacheMiss (u : string) : option AnalyzeResponse * option error := (None, None).
Definition cacheDown (u : string) : option AnalyzeResponse * option error :=
  (None, Some "connection refused").
Definition cacheSetOk (u : string) (r : AnalyzeResponse) : option error := None.
Definition cacheSetDown (u : string) (r : AnalyzeResponse) : option error :=
  Some "connection refused".

End Samples.

(** ** The rest of the service: set-up, request model, handler, cache, rate limiter *)

Module Setup.
Import Constants Links.

(** [NewAnalyzer]: a field of the analyzer configuration that is zero gets
    its default.  [LinkTimeout], in nanoseconds, is the field of
    [config.AnalyzerConfig] that only the HTTP client reads; it is passed
    beside the record. *)
Definition DefaultLinkTimeout : Z := 10 * 1000000000.

Definition NewAnalyzer (cfg : AnalyzerConfig) (LinkTimeout : Z) : AnalyzerConfig * Z :=
  let maxLinks := if (MaxLinks cfg =? 0)%Z then DefaultMaxLinks else MaxLinks cfg in
  let linkTimeout := if (LinkTimeout =? 0)%Z then DefaultLinkTimeout else LinkTimeout in
  let maxWorkers := if (MaxWorkers cfg =? 0)%Z then DefaultMaxWorkers else MaxWorkers cfg in
  let maxRedirects :=
    if (MaxRedirects cfg =? 0)%Z then DefaultMaxRedirects else MaxRedirects cfg in
  ({| MaxLinks := maxLinks; MaxWorkers := maxWorkers; MaxRedirects := maxRedirects |},
   linkTimeout).

End Setup.

Module Models.
Import GoStrings Go Links.

Definition MaxURLLength : Z := 2048.
Definition StatusTooManyRequests : Z := 429.
Definition StatusInternalServerError : Z := 500.

Record AnalyzeRequest := { URL : string }.

Record ErrorResponse := { Code : Z; Message : string; Details : string }.

Section WithURL.

Variable urlParse : string -> result Links.URL.

(** [AnalyzeRequest.Validate]: [None] is Go's nil error. *)
Definition Validate (r : AnalyzeRequest) : option error :=
  if (Z.of_nat (String.length (URL r)) >? MaxURLLength)%Z
  then Some ("URL length exceeds maximum allowed length of " ++ showInt MaxURLLength
             ++ " characters")
  else
    match urlParse (URL r) with
    | Err err => Some ("invalid URL format: " ++ err)
    | Ok parsedURL =>
        if String.eqb (Scheme parsedURL) EmptyString || String.eqb (Host parsedURL) EmptyString
        then Some "URL must have both scheme (http/https) and host"
        else if negb (String.eqb (Scheme parsedURL) "http")
                && negb (String.eqb (Scheme parsedURL) "https")
        then Some "URL scheme must be http or https"
        else None
    end.

End WithURL.

End Models.

Module Handlers.
Import GoStrings Constants Go Links Analyzer Models.

(** What [c.JSON] is given: the status and the value to encode. *)
Inductive responseBody :=
| ErrorBody (e : ErrorResponse)
| ResultBody (r : AnalyzeResponse).

Definition response : Type := Z * responseBody.

Section WithCollaborators.

(** [c.ShouldBindJSON(&req)] on the body of the request. *)
Variable bindJSON : string -> result AnalyzeRequest.

(** [validator.Struct(req)], for the tags of [AnalyzeRequest]. *)
Variable validateStruct : AnalyzeRequest -> option error.

Variable urlParse : string -> result Links.URL.

(** [analyzer.Analyze] with its log. *)
Variable analyze : string -> list string * outcome (result AnalyzeResponse).

Definition badRequest (message details : string) : response :=
  (StatusBadRequest,
   ErrorBody {| Code := StatusBadRequest; Message := message; Details := details |}).

(** [AnalyzeHandler.Handle]: the error log of the call, and the response. *)
Definition Handle (requestBody : string) : list string * outcome response :=
  match bindJSON requestBody with
  | Err err => ([], Returns (badRequest "Invalid request body" err))
  | Ok req =>
      match validateStruct req with
      | Some err => ([], Returns (badRequest "Validation failed" err))
      | None =>
          match Validate urlParse req with
          | Some err => ([], Returns (badRequest "Validation failed" err))
          | None =>
              match analyze (URL req) with
              | (log, Returns (Err err)) =>
                  ((log ++ ["Failed to analyze webpage"])%list,
                   Returns (StatusInternalServerError,
                            ErrorBody {| Code := StatusInternalServerError;
                                         Message := "Failed to analyze webpage";
                                         Details := err |}))
              | (log, Returns (Ok result)) => (log, Returns (StatusOK, ResultBody result))
              | (log, Panics) => (log, Panics)
              | (log, Blocks) => (log, Blocks)
              end
          end
      end
  end.

End WithCollaborators.

End Handlers.

Module Cache.
Import GoStrings Go Analyzer.

(** [client.Get(ctx, key).Bytes()]: [redis.Nil], another error, or the data. *)
Inductive redisReply :=
| RedisNil
| RedisError (err : error)
| RedisData (data : string).

(** The counter a call of [Get] steps, if any. *)
Inductive counted := NoCounter | CacheHit | CacheMiss.

(** A [Cache]: without a client it is the no-op cache of [NewNoOpCache],
    which has no metrics either; [ttl] is in nanoseconds. *)
Record Cache := { hasClient : bool; hasMetrics : bool; ttl : Z }.

Definition NewNoOpCache : Cache := {| hasClient := false; hasMetrics := false; ttl := 0 |}.

(** [Cache.key]. *)
Definition key (url : string) : string := "webpage:" ++ url.

Section WithRedis.

(** The state of the Redis server, and the two commands in use. *)
Variable store : Type.
Variable redisGet : store -> string -> redisReply.
Variable redisSet : store -> string -> string -> Z -> store * option error.

(** [json.Marshal] and [json.Unmarshal] for [AnalyzeResponse]. *)
Variable jsonMarshal : AnalyzeResponse -> result string.
Variable jsonUnmarshal : string -> result AnalyzeResponse.

(** [Cache.Get]: the pair Go returns, and the counter it stepped. *)
Definition Get (c : Cache) (s : store) (url : string)
    : (option AnalyzeResponse * option error) * counted :=
  if negb (hasClient c) then ((None, None), NoCounter)
  else
    match redisGet s (key url) with
    | RedisNil => ((None, None), if hasMetrics c then CacheMiss else NoCounter)
    | RedisError err => ((None, Some ("failed to get from cache: " ++ err)), NoCounter)
    | RedisData data =>
        match jsonUnmarshal data with
        | Err err => ((None, Some ("failed to unmarshal cached data: " ++ err)), NoCounter)
        | Ok result => ((Some result, None), if hasMetrics c then CacheHit else NoCounter)
        end
    end.

(** [Cache.Set]: the server after the call, and the error or nil. *)
Definition Set_ (c : Cache) (s : store) (url : string) (result : AnalyzeResponse)
    : store * option error :=
  if negb (hasClient c) then (s, None)
  else
    match jsonMarshal result with
    | Err err => (s, Some ("failed to marshal data: " ++ err))
    | Ok data =>
        match redisSet s (key url) data (ttl c) with
        | (s', Some err) => (s', Some ("failed to set cache: " ++ err))
        | (s', None) => (s', None)
        end
    end.

End WithRedis.

End Cache.

Module RateLimit.
Import GoStrings Go Models.

Section WithLimiter.

(** The state of a [rate.Limiter]; [newLimiter] is
    [rate.NewLimiter(rl.rate, rl.burst)], and [allow] is [Allow()] at the
    time of the call: the verdict, and the limiter after it. *)
Variable limiter : Type.
Variable newLimiter : limiter.
Variable allow : Z -> limiter -> bool * limiter.

(** The map [ips], a limiter for each address that has one. *)
Definition ipMap : Type := list (string * limiter).

Fixpoint lookup (ips : ipMap) (ip : string) : option limiter :=
  match ips with
  | [] => None
  | (k, l) :: ips' => if String.eqb k ip then Some l else lookup ips' ip
  end.

Fixpoint store (ips : ipMap) (ip : string) (l : limiter) : ipMap :=
  match ips with
  | [] => [(ip, l)]
  | (k, l') :: ips' =>
      if String.eqb k ip then (k, l) :: ips' else (k, l') :: store ips' ip l
  end.

(** [getLimiter]: the limiter of the address, made and kept if there was
    none. *)
Definition getLimiter (ips : ipMap) (ip : string) : limiter * ipMap :=
  match lookup ips ip with
  | Some l => (l, ips)
  | None => (newLimiter, store ips ip newLimiter)
  end.

(** What the middleware does with a request: hand it on with [c.Next()], or
    answer and abort. *)
Inductive verdict :=
| Next
| Abort (status : Z) (body : ErrorResponse).

(** The handler [RateLimit] returns, for a request of address [ip] at the
    time [now]; [enabled] is the setting [rate_limit.enabled]. *)
Definition RateLimit (enabled : bool) (now : Z) (ips : ipMap) (ip : string)
    : verdict * ipMap :=
  if negb enabled then (Next, ips)
  else
    let '(l, ips) := getLimiter ips ip in
    let '(allowed, l') := allow now l in
    let ips := store ips ip l' in
    if negb allowed
    then (Abort StatusTooManyRequests
                {| Code := StatusTooManyRequests; Message := "Rate limit exceeded";
                   Details := "Please try again later" |},
          ips)
    else (Next, ips).

End WithLimiter.

End RateLimit.

(** ** Notions the further properties are stated with *)

Module Notions.
Import GoStrings Dom Go Links.

(** A text of ASCII blanks only: space, tab, LF, VT, FF, CR. *)
Fixpoint blanks (s : string) : bool :=
  match s with
  | EmptyString => true
  | String c s' => isAsciiSpace c && blanks s'
  end.

(** A text without ASCII letters. *)
Fixpoint caseless (s : string) : bool :=
  match s with
  | EmptyString => true
  | String c s' =>
      ((code c <? 65) || (90 <? code c) && (code c <? 97) || (122 <? code c))%N
      && caseless s'
  end.

(** An element [h1] to [h6]. *)
Definition headingElement (n : Node) : bool :=
  NodeType_eqb (Type_ n) ElementNode
  && existsb (String.eqb (Data n)) ["h1"; "h2"; "h3"; "h4"; "h5"; "h6"].

Section WithResolver.

Variable ParseRef : URL -> string -> option URL.

(** The rendered targets of the anchors of [l] that resolve to the host of
    the base, and to another host, in the order of [l]. *)
Definition internalTargets (baseURL : URL) (l : Selection) : list string :=
  flat_map (fun s => match resolved ParseRef baseURL s with
                     | Some linkURL =>
                         if String.eqb (Host linkURL) (Host baseURL)
                         then [Rendered linkURL] else []
                     | None => []
                     end) l.

Definition externalTargets (baseURL : URL) (l : Selection) : list string :=
  flat_map (fun s => match resolved ParseRef baseURL s with
                     | Some linkURL =>
                         if String.eqb (Host linkURL) (Host baseURL)
                         then [] else [Rendered linkURL]
                     | None => []
                     end) l.

End WithResolver.

End Notions.

(** ** More test doubles *)

Module MoreSamples.
Import GoStrings Dom Go Links Analyzer Samples.

(** A configuration as a file with [max_workers: -1] gives it. *)
Definition configNoWorker : AnalyzerConfig :=
  {| MaxLinks := 3; MaxWorkers := -1; MaxRedirects := 0 |}.

(** A configuration with every field left out. *)
Definition configZero : AnalyzerConfig :=
  {| MaxLinks := 0; MaxWorkers := 0; MaxRedirects := 0 |}.

(** A Redis that keeps what it is given, for ever, and never fails. *)
Definition memoryStore : Type := list (string * string).

Fixpoint memoryGet (s : memoryStore) (k : string) : Cache.redisReply :=
  match s with
  | [] => Cache.RedisNil
  | (k', d) :: s' => if String.eqb k' k then Cache.RedisData d else memoryGet s' k
  end.

Definition memorySet (s : memoryStore) (k d : string) (ttl : Z)
    : memoryStore * option error :=
  ((k, d) :: s, None).

Definition sampleResponse : AnalyzeResponse :=
  {| URL_ := "http://example.com"; HTMLVersion := "HTML5"; Title := "Example";
     Headings := []; Links_ := {| Internal := 0; External := 0; Inaccessible := 0 |};
     HasLoginForm := false; AnalyzedAt := 0 |}.

(** An encoding that keeps the title only. *)
Definition marshalTitle (r : AnalyzeResponse) : result string := Ok (Title r).
Definition unmarshalTitle (d : string) : result AnalyzeResponse :=
  Ok {| URL_ := EmptyString; HTMLVersion := EmptyString; Title := d;
        Headings := []; Links_ := {| Internal := 0; External := 0; Inaccessible := 0 |};
        HasLoginForm := false; AnalyzedAt := 0 |}.

Definition redisCache : Cache.Cache :=
  {| Cache.hasClient := true; Cache.hasMetrics := true; Cache.ttl := 3600000000000 |}.

(** A limiter that lets a fixed number of requests through: its state is the
    number left. *)
Definition allowTokens (now : Z) (l : nat) : bool * nat :=
  match l with
  | O => (false, O)
  | S l' => (true, l')
  end.

Definition bindSample (requestBody : string) : result Models.AnalyzeRequest :=
  Ok {| Models.URL := requestBody |}.
Definition validateSample (r : Models.AnalyzeRequest) : option error := None.

Definition taskUp : task := (0%nat, externalRequest "http://up.test/").
Definition taskDown : task := (1%nat, externalRequest "http://down.test/").

(** A server that has no such page. *)
Definition getNotFound (u : string) : getResult :=
  Response 404 (BodyBytes "404 page not found").

End MoreSamples.

(** ** Scenario D of the login scorer, on markup *)

Module ScenarioD.
Import GoStrings Dom Scorer Samples.

Definition lowerASCII (s : string) : string := mapBytes lowerByte s.

(** An ASCII text that holds one of the keywords, whatever the case of its
    letters. *)
Definition mentions (text : string) (keywords : list string) : bool :=
  isASCII text && existsb (Contains (lowerASCII text)) keywords.

(** The providers a login button can name. *)
Definition knownProviders : list string :=
  ["google"; "facebook"; "github"; "twitter"; "microsoft"].

Definition knownProvider (provider : string) : bool :=
  existsb (String.eqb provider) knownProviders.

(** The fields of the form of scenario D ([plainForm]). *)
Definition baseFields : list Node :=
  [input "text" "username"; input "password" "password"; submitButton "Login"].

(** One more signal for the page of scenario D, as markup: an action on the
    form, one more element in the form, or one more tag in the head. *)
Inductive addition :=
| ActionKeyword (action : string)            (* <form action=...> *)
| SubmitButton (label : string)              (* <button type="submit">label</button> *)
| SubmitInput (value : string)               (* <input type="submit" value=...> *)
| RememberMe (label : string)                (* <input type="checkbox"><label>label</label> *)
| RememberMeLabelled (label : string)        (* <label><input type="checkbox">label</label> *)
| ForgotLink (href label : string)           (* <a href=...>label</a> *)
| OAuthText (provider label : string)        (* <button type="button">label</button> *)
| OAuthClass (provider class label : string) (* <button class=...>label</button> *)
| PageMeta (name content : string)           (* <meta name=... content=...> *)
| PageLink (rel content : string).           (* <link rel=... content=...> *)

(** What makes the addition a signal, in the words of the list of factors:
    the keywords are looked for in the text with its letters in lower case. *)
Definition qualifies (a : addition) : bool :=
  match a with
  | ActionKeyword action => mentions action ["login"; "signin"; "auth"]
  | SubmitButton label => mentions label ["login"; "sign in"; "log in"]
  | SubmitInput value => mentions value ["login"; "sign in"; "log in"]
  | RememberMe label => mentions label ["remember me"; "keep me signed in"]
  | RememberMeLabelled label => mentions label ["remember me"; "keep me signed in"]
  | ForgotLink _ label => mentions label ["forgot"] && mentions label ["password"]
  | OAuthText provider label =>
      knownProvider provider
      && mentions label ["sign in with " ++ provider; "login with " ++ provider]
  | OAuthClass provider class _ =>
      knownProvider provider && mentions class [provider]
      && mentions class ["auth"; "login"; "oauth"]
  | PageMeta name content => mentions name ["sign"; "auth"] && mentions content ["auth"]
  | PageLink rel content => mentions rel ["authorization"] && mentions content ["auth"]
  end.

Definition formAttrs (a : addition) : list (string * string) :=
  match a with
  | ActionKeyword action => [("action", action)]
  | _ => []
  end.

Definition formElements (a : addition) : list Node :=
  match a with
  | SubmitButton label => [submitButton label]
  | SubmitInput value => [element "input" [("type", "submit"); ("value", value)] []]
  | RememberMe label =>
      [ element "input" [("type", "checkbox"); ("name", "remember")] [];
        element "label" [] [text label] ]
  | RememberMeLabelled label =>
      [ element "label" [] [element "input" [("type", "checkbox")] []; text label] ]
  | ForgotLink href label => [anchor href label]
  | OAuthText _ label => [element "button" [("type", "button")] [text label]]
  | OAuthClass _ class label => [element "button" [("class", class)] [text label]]
  | _ => []
  end.

Definition headTags (a : addition) : list Node :=
  match a with
  | PageMeta name content => [element "meta" [("name", name); ("content", content)] []]
  | PageLink rel content => [element "link" [("rel", rel); ("content", content)] []]
  | _ => []
  end.

(** [new] put in front of the element of index [i] of [l], at the end when
    [l] is shorter. *)
Definition insertAt (i : nat) (new l : list Node) : list Node :=
  (firstn i l ++ new ++ skipn i l)%list.

(** The form of scenario D with the addition, its elements in front of the
    field of index [i], and the page that holds it. *)
Definition formWith (a : addition) (i : nat) : Node :=
  element "form" (formAttrs a) (insertAt i (formElements a) baseFields).

Definition pageWith (a : addition) (i : nat) : Node :=
  page (headTags a) [formWith a i].

(** The nodes below the nodes of [l], in document order. *)
Definition below (l : list Node) : list Node :=
  flat_map (fun c => c :: descendants c) l.

(** The texts of the nodes of [l], joined. *)
Definition textsOf (l : list Node) : string :=
  fold_right (fun c acc => Text c ++ acc) EmptyString l.

(** *** A signal that goes when markup comes

    A submit button whose label [Login] is split by an element that holds
    [inner], and the form of scenario D with that button and a link for a
    forgotten password. *)
Definition splitLoginButton (inner : list Node) : Node :=
  element "button" [("type", "submit")] [text "Log"; element "b" [] inner; text "in"].

Definition forgotLinkSample : Node := anchor "/forgot" "Forgot password?".

Definition splitLabelForm (inner : list Node) : Node :=
  element "form" []
    [ input "text" "username"; input "password" "password";
      splitLoginButton inner; forgotLinkSample ].

End ScenarioD.

(** * Properties *)

(** ** The version classifier *)

Module ClassifierProps.
Import GoStrings Constants Classifier.

Lemma range_none order doctype :
  (forall keyword version, In (keyword, version) order -> Contains doctype keyword = false) ->
  rangeSimpleVersions order doctype = None.
Proof.
  induction order as [|[keyword version] order IH]; intros H; simpl.
  - reflexivity.
  - rewrite (H keyword version) by (left; reflexivity).
    apply IH. intros k v Hin. apply (H k v). right. exact Hin.
Qed.

Lemma range_some order doctype version :
  rangeSimpleVersions order doctype = Some version ->
  exists keyword, In (keyword, version) order /\ Contains doctype keyword = true.
Proof.
  induction order as [|[k v] order IH]; simpl; intros H.
  - discriminate.
  - destruct (Contains doctype k) eqn:E.
    + injection H as <-. exists k. split; [left; reflexivity | exact E].
    + destruct (IH H) as [k' [Hin Hc]]. exists k'. split; [right; exact Hin | exact Hc].
Qed.

Lemma rangeOrder_in order keyword version :
  rangeOrder order -> In (keyword, version) order -> In (keyword, version) simpleVersions.
Proof.
  intros Hp Hin. apply (Permutation_in _ (Permutation_sym Hp)). exact Hin.
Qed.

Lemma check_cases doctype keyword b s t f :
  let v := checkHTMLVersionWithVariants doctype keyword b s t f in
  v = EmptyString \/ v = b \/ v = s \/ v = t \/ v = f.
Proof.
  unfold checkHTMLVersionWithVariants.
  destruct (negb (Contains doctype keyword)); [auto|].
  destruct (nonEmpty s && Contains doctype DOCTYPEKeywordStrict); [auto|].
  destruct (nonEmpty t && Contains doctype DOCTYPEKeywordTransitional); [auto|].
  destruct (nonEmpty f && Contains doctype DOCTYPEKeywordFrameset); auto.
Qed.

Lemma nonEmpty_true s : nonEmpty s = true -> s <> EmptyString.
Proof.
  unfold nonEmpty. intros H ->. discriminate.
Qed.

#[local] Ltac pick_label :=
  simpl; repeat (first [left; reflexivity | right]).

(** Whatever the text and the order of the range, the label is one of the
    enumerated ones or the value of [HTMLVersionUnknown]. *)
Lemma detectHTMLVersion_labels unicodeUpper order htmlContent :
  rangeOrder order ->
  In (detectHTMLVersion unicodeUpper order htmlContent) enumeratedLabels
  \/ detectHTMLVersion unicodeUpper order htmlContent = HTMLVersionUnknown.
Proof.
  intros Hord. unfold detectHTMLVersion.
  set (doctype := extractDOCTYPE unicodeUpper htmlContent). cbv zeta.
  destruct (String.eqb doctype EmptyString); [left; pick_label|].
  destruct (matchHTML5DOCTYPE doctype); [left; pick_label|].
  destruct (nonEmpty (checkHTMLVersionWithVariants doctype DOCTYPEKeywordXHTML11 _ _ _ _)) eqn:E1.
  { apply nonEmpty_true in E1. left.
    destruct (check_cases doctype DOCTYPEKeywordXHTML11 HTMLVersionXHTML11
                EmptyString EmptyString EmptyString) as [H|[H|[H|[H|H]]]];
      try (exfalso; apply E1; exact H); rewrite H; pick_label. }
  destruct (nonEmpty (checkHTMLVersionWithVariants doctype DOCTYPEKeywordXHTML10 _ _ _ _)) eqn:E2.
  { apply nonEmpty_true in E2. left.
    destruct (check_cases doctype DOCTYPEKeywordXHTML10 HTMLVersionXHTML10
                HTMLVersionXHTML10Strict HTMLVersionXHTML10Transitional
                HTMLVersionXHTML10Frameset) as [H|[H|[H|[H|H]]]];
      try (exfalso; apply E2; exact H); rewrite H; pick_label. }
  destruct (nonEmpty (checkHTMLVersionWithVariants doctype DOCTYPEKeywordHTML401 _ _ _ _)) eqn:E3.
  { apply nonEmpty_true in E3. left.
    destruct (check_cases doctype DOCTYPEKeywordHTML401 HTMLVersionHTML401
                HTMLVersionHTML401Strict HTMLVersionHTML401Transitional
                HTMLVersionHTML401Frameset) as [H|[H|[H|[H|H]]]];
      try (exfalso; apply E3; exact H); rewrite H; pick_label. }
  destruct (rangeSimpleVersions order doctype) as [version|] eqn:Er.
  { apply range_some in Er. destruct Er as [keyword [Hin _]].
    apply (rangeOrder_in _ _ _ Hord) in Hin. left.
    simpl in Hin. destruct Hin as [H|[H|[H|[]]]]; injection H as _ <-; pick_label. }
  destruct (Contains doctype DOCTYPEKeywordXHTML); [left; pick_label|].
  destruct (Contains doctype DOCTYPEKeywordHTML); [left; pick_label|].
  right. reflexivity.
Qed.

(** The doctype the failing text of C3 comes down to. *)
Lemma extract_something_else unicodeUpper :
  extractDOCTYPE unicodeUpper "<!DOCTYPE something-else>" = "<!DOCTYPE SOMETHING-ELSE>".
Proof. reflexivity. Qed.

(** On the text [<!DOCTYPE something-else>] no keyword is found, whatever
    the order of the range, and the answer is the value of
    [HTMLVersionUnknown], which is [Unknown DOCTYPE]. *)
Lemma detectHTMLVersion_unknown_outside_labels unicodeUpper order :
  rangeOrder order ->
  detectHTMLVersion unicodeUpper order "<!DOCTYPE something-else>" = "Unknown DOCTYPE"
  /\ ~ In (detectHTMLVersion unicodeUpper order "<!DOCTYPE something-else>") enumeratedLabels.
Proof.
  intros Hord.
  assert (E : detectHTMLVersion unicodeUpper order "<!DOCTYPE something-else>"
              = "Unknown DOCTYPE").
  { unfold detectHTMLVersion. rewrite extract_something_else. cbv zeta.
    rewrite range_none; [reflexivity|].
    intros keyword version Hin. apply (rangeOrder_in _ _ _ Hord) in Hin.
    simpl in Hin. destruct Hin as [H|[H|[H|[]]]]; injection H as <- _; reflexivity. }
  split; [exact E|]. rewrite E. simpl.
  intros H. repeat (destruct H as [H|H]; [discriminate H|]). exact H.
Qed.

(** C3, as the code has it.  Whatever the text and whatever the order of the
    range, the classifier answers with one label of the enumerated set, the
    last member of which the code spells [Unknown DOCTYPE]. *)
Theorem detectHTMLVersion_in_codeLabels unicodeUpper order htmlContent :
  rangeOrder order ->
  In (detectHTMLVersion unicodeUpper order htmlContent) codeLabels.
Proof.
  intros Hord. unfold detectHTMLVersion.
  set (doctype := extractDOCTYPE unicodeUpper htmlContent). cbv zeta.
  destruct (String.eqb doctype EmptyString); [pick_label|].
  destruct (matchHTML5DOCTYPE doctype); [pick_label|].
  destruct (nonEmpty (checkHTMLVersionWithVariants doctype DOCTYPEKeywordXHTML11 _ _ _ _)) eqn:E1.
  { apply nonEmpty_true in E1.
    destruct (check_cases doctype DOCTYPEKeywordXHTML11 HTMLVersionXHTML11
                EmptyString EmptyString EmptyString) as [H|[H|[H|[H|H]]]];
      try (exfalso; apply E1; exact H); rewrite H; pick_label. }
  destruct (nonEmpty (checkHTMLVersionWithVariants doctype DOCTYPEKeywordXHTML10 _ _ _ _)) eqn:E2.
  { apply nonEmpty_true in E2.
    destruct (check_cases doctype DOCTYPEKeywordXHTML10 HTMLVersionXHTML10
                HTMLVersionXHTML10Strict HTMLVersionXHTML10Transitional
                HTMLVersionXHTML10Frameset) as [H|[H|[H|[H|H]]]];
      try (exfalso; apply E2; exact H); rewrite H; pick_label. }
  destruct (nonEmpty (checkHTMLVersionWithVariants doctype DOCTYPEKeywordHTML401 _ _ _ _)) eqn:E3.
  { apply nonEmpty_true in E3.
    destruct (check_cases doctype DOCTYPEKeywordHTML401 HTMLVersionHTML401
                HTMLVersionHTML401Strict HTMLVersionHTML401Transitional
                HTMLVersionHTML401Frameset) as [H|[H|[H|[H|H]]]];
      try (exfalso; apply E3; exact H); rewrite H; pick_label. }
  destruct (rangeSimpleVersions order doctype) as [version|] eqn:Er.
  { apply range_some in Er. destruct Er as [keyword [Hin _]].
    apply (rangeOrder_in _ _ _ Hord) in Hin.
    simpl in Hin. destruct Hin as [H|[H|[H|[]]]]; injection H as _ <-; pick_label. }
  destruct (Contains doctype DOCTYPEKeywordXHTML); [pick_label|].
  destruct (Contains doctype DOCTYPEKeywordHTML); [pick_label|].
  pick_label.
Qed.

(** C3, as the claim has it, fails: on a doctype without any of the keywords
    the label is [Unknown DOCTYPE], which the enumerated set, with [Unknown]
    for its last member, does not hold. *)
Lemma detectHTMLVersion_not_enumerated :
  detectHTMLVersion asciiOnly declaredOrder "<!DOCTYPE something-else>" = "Unknown DOCTYPE"
  /\ detectHTMLVersion asciiOnly declaredOrder "<!DOCTYPE something-else>" = HTMLVersionUnknown
  /\ ~ In (detectHTMLVersion asciiOnly declaredOrder "<!DOCTYPE something-else>")
          enumeratedLabels.
Proof.
  split; [reflexivity|]. split; [reflexivity|].
  vm_compute. intros H.
  repeat (destruct H as [H|H]; [discriminate H|]). exact H.
Qed.

Lemma detectHTMLVersion_in_codeLabels_witness :
  rangeOrder declaredOrder
  /\ In (detectHTMLVersion asciiOnly declaredOrder
           "<!DOCTYPE html PUBLIC '-//W3C//DTD XHTML 1.0 Strict//EN'>")
        codeLabels.
Proof.
  assert (H : rangeOrder declaredOrder) by apply Permutation_refl.
  split; [exact H|].
  exact (detectHTMLVersion_in_codeLabels asciiOnly declaredOrder
           "<!DOCTYPE html PUBLIC '-//W3C//DTD XHTML 1.0 Strict//EN'>" H).
Defined.

Lemma rotatedOrder_rangeOrder : rangeOrder rotatedOrder.
Proof.
  unfold rangeOrder, simpleVersions, rotatedOrder.
  apply Permutation_sym.
  apply (Permutation_cons_app [_; _] [] _). apply Permutation_refl.
Qed.

(** C4 (code defect).  Two evaluations of the classifier on one text should
    give one label.  The code tests HTML 4.0, HTML 3.2 and HTML 2.0 in the
    order of a range over a map, which is not fixed: on a doctype that holds
    two of the keywords, two orders of the range give two labels. *)
Theorem detectHTMLVersion_depends_on_range_order unicodeUpper :
  exists order1 order2,
    rangeOrder order1 /\ rangeOrder order2
    /\ detectHTMLVersion unicodeUpper order1 "<!DOCTYPE HTML 3.2 HTML 2.0>" = "HTML 3.2"
    /\ detectHTMLVersion unicodeUpper order2 "<!DOCTYPE HTML 3.2 HTML 2.0>" = "HTML 2.0".
Proof.
  exists declaredOrder, rotatedOrder.
  split; [apply Permutation_refl|].
  split; [apply rotatedOrder_rangeOrder|].
  split; reflexivity.
Qed.

(** Once the order of the range is fixed, a doctype with one of the three
    keywords at most gets the same label under every order. *)
Lemma range_order_irrelevant order1 order2 doctype keyword :
  rangeOrder order1 -> rangeOrder order2 ->
  (forall k v, In (k, v) simpleVersions -> Contains doctype k = true -> k = keyword) ->
  rangeSimpleVersions order1 doctype = rangeSimpleVersions order2 doctype.
Proof.
  intros H1 H2 Huniq.
  assert (K : forall order, rangeOrder order ->
            rangeSimpleVersions order doctype
            = rangeSimpleVersions simpleVersions doctype).
  { intros order Hord.
    destruct (rangeSimpleVersions order doctype) as [v|] eqn:E.
    - apply range_some in E. destruct E as [k [Hin Hc]].
      apply (rangeOrder_in _ _ _ Hord) in Hin.
      pose proof (Huniq k v Hin Hc) as Hk.
      simpl in Hin. unfold simpleVersions. simpl.
      destruct (Contains doctype DOCTYPEKeywordHTML40) eqn:C40.
      { pose proof (Huniq _ _ (or_introl eq_refl) C40) as Hk'.
        destruct Hin as [H|[H|[H|[]]]]; injection H as Ha Hb; subst v; try reflexivity;
          rewrite <- Ha in Hk; rewrite <- Hk in Hk'; discriminate Hk'. }
      destruct (Contains doctype DOCTYPEKeywordHTML32) eqn:C32.
      { pose proof (Huniq _ _ (or_intror (or_introl eq_refl)) C32) as Hk'.
        destruct Hin as [H|[H|[H|[]]]]; injection H as Ha Hb; subst v; try reflexivity;
          rewrite <- Ha in Hk; rewrite <- Hk in Hk'; discriminate Hk'. }
      destruct (Contains doctype DOCTYPEKeywordHTML20) eqn:C20.
      { pose proof (Huniq _ _ (or_intror (or_intror (or_introl eq_refl))) C20) as Hk'.
        destruct Hin as [H|[H|[H|[]]]]; injection H as Ha Hb; subst v; try reflexivity;
          rewrite <- Ha in Hk; rewrite <- Hk in Hk'; discriminate Hk'. }
      destruct Hin as [H|[H|[H|[]]]]; injection H as Ha Hb; subst k; congruence.
    - symmetry. apply range_none. intros k v Hin.
      destruct (Contains doctype k) eqn:C; [|reflexivity].
      assert (Hin' : In (k, v) order) by (apply (Permutation_in _ Hord); exact Hin).
      clear - E Hin' C. induction order as [|[k' v'] order IH]; simpl in *.
      + contradiction.
      + destruct (Contains doctype k') eqn:C'; [discriminate|].
        destruct Hin' as [H|H]; [injection H as -> _; congruence | apply IH; assumption]. }
  rewrite (K _ H1), (K _ H2). reflexivity.
Qed.

End ClassifierProps.

(** ** The login-form scorer *)

Module ScorerProps.
Import GoStrings Dom Constants Scorer Samples.

Section WithLibrary.

Variable unicodeLower : string -> string.
Variable cssFind : string -> Node -> Selection.

#[local] Abbreviation formScore := (formScore unicodeLower cssFind).
#[local] Abbreviation signalsOf := (signalsOf unicodeLower cssFind).
#[local] Abbreviation bestFormScore := (bestFormScore unicodeLower cssFind).
#[local] Abbreviation addPageSignals := (addPageSignals unicodeLower).
#[local] Abbreviation pageSignals := (pageSignals unicodeLower).
#[local] Abbreviation loginScore := (loginScore unicodeLower cssFind).
#[local] Abbreviation detectLoginForm := (detectLoginForm unicodeLower cssFind).
#[local] Abbreviation forms := (Find unicodeLower [tag "form"]).

Lemma Length_nonneg (s : Selection) : (0 <= Length s)%Z.
Proof. unfold Length. lia. Qed.

(** A loop that adds [w] for each element that passes [p]. *)
Lemma fold_add {A} (p : A -> bool) (w : Z) (l : list A) (acc : Z) :
  fold_left (fun acc x => if p x then (acc + w)%Z else acc) l acc
  = (acc + w * Z.of_nat (List.length (filter p l)))%Z.
Proof.
  revert acc. induction l as [|x l IH]; intros acc; simpl.
  - lia.
  - rewrite IH. destruct (p x); simpl List.length; lia.
Qed.

Lemma formScore_weigh form : formScore form = weigh (signalsOf form).
Proof.
  unfold Scorer.formScore, weigh, Scorer.signalsOf, points; cbv zeta.
  cbn [actionKeyword passwordField userField submitTexts rememberCheckbox
       forgotLink oauthControl].
  rewrite fold_add. unfold Length.
  repeat match goal with
         | |- context [if ?b then _ else _] => destruct b
         end; lia.
Qed.

Lemma points_le b b' w : (0 <= w)%Z -> (b = true -> b' = true) -> (points b w <= points b' w)%Z.
Proof.
  intros Hw H. unfold points. destruct b, b'; try lia.
  all: specialize (H eq_refl); discriminate.
Qed.

Lemma weigh_monotone s s' : covers s s' -> (weigh s <= weigh s')%Z.
Proof.
  intros (Ha & Hp & Hu & Hs & Hr & Hf & Ho). unfold weigh.
  pose proof (points_le _ _ 3 ltac:(lia) Ha).
  pose proof (points_le _ _ 4 ltac:(lia) Hp).
  pose proof (points_le _ _ 3 ltac:(lia) Hu).
  pose proof (points_le _ _ 2 ltac:(lia) Hr).
  pose proof (points_le _ _ 2 ltac:(lia) Hf).
  pose proof (points_le _ _ 2 ltac:(lia) Ho).
  lia.
Qed.

(** A form that shows every signal of another scores as much at least. *)
Lemma formScore_monotone form form' :
  covers (signalsOf form) (signalsOf form') -> (formScore form <= formScore form')%Z.
Proof.
  intros H. rewrite !formScore_weigh. apply weigh_monotone. exact H.
Qed.

Lemma bestFormScore_max l score :
  bestFormScore l score = fold_left Z.max (map formScore l) score.
Proof.
  revert score. induction l as [|f l IH]; intros score; simpl.
  - reflexivity.
  - rewrite <- IH. unfold Scorer.bestFormScore. simpl. f_equal.
    destruct (formScore f >? score)%Z eqn:E; lia.
Qed.

Lemma fold_max_ge l score : (score <= fold_left Z.max l score)%Z.
Proof.
  revert score. induction l as [|x l IH]; intros score; simpl.
  - lia.
  - specialize (IH (Z.max score x)). lia.
Qed.

Lemma fold_max_in l score x : In x l -> (x <= fold_left Z.max l score)%Z.
Proof.
  revert score. induction l as [|y l IH]; intros score Hin; simpl.
  - contradiction.
  - destruct Hin as [->|Hin].
    + pose proof (fold_max_ge l (Z.max score x)). lia.
    + apply IH. exact Hin.
Qed.

Lemma fold_max_monotone l l' score score' :
  Forall2 Z.le l l' -> (score <= score')%Z ->
  (fold_left Z.max l score <= fold_left Z.max l' score')%Z.
Proof.
  intros H. revert score score'.
  induction H as [|x y l l' Hxy H IH]; intros score score' Hs; simpl.
  - exact Hs.
  - apply IH. lia.
Qed.

Lemma bestFormScore_in l form : In form l -> (formScore form <= bestFormScore l 0)%Z.
Proof.
  intros Hin. rewrite bestFormScore_max. apply fold_max_in.
  apply in_map. exact Hin.
Qed.

Lemma addPageSignals_count tags score :
  addPageSignals tags score = (score + Length (filter (pageSignal unicodeLower) tags))%Z.
Proof.
  unfold Scorer.addPageSignals, Length. rewrite fold_add. lia.
Qed.

Lemma loginScore_sum doc :
  loginScore doc = (bestFormScore (forms doc) 0 + pageSignals doc)%Z.
Proof.
  unfold Scorer.loginScore, Scorer.pageSignals. cbv zeta.
  apply addPageSignals_count.
Qed.

Lemma pageSignals_nonneg doc : (0 <= pageSignals doc)%Z.
Proof. apply Length_nonneg. Qed.

Lemma weigh_scenarioD_more s :
  covers scenarioD s -> s <> scenarioD -> (11 <= weigh s)%Z.
Proof.
  intros (_ & Hp & Hu & Hs & _ & _ & _) Hne.
  destruct s as [a p u n r f o]. simpl in Hp, Hu, Hs.
  specialize (Hp eq_refl). specialize (Hu eq_refl). subst p u.
  unfold weigh, points.
  cbn [actionKeyword passwordField userField submitTexts rememberCheckbox
       forgotLink oauthControl].
  destruct a, r, f, o; try lia.
  assert (n <> 1)%Z by (intros ->; apply Hne; reflexivity). lia.
Qed.

(** The weights of scenario D, in terms of the signals found: a form with a
    password field, a user field and one submit control with a login text,
    and no other signal on the page, scores 4 + 3 + 2 = 9, below the
    threshold of 10; a form with these signals and one more, or with one
    page-level tag on top, brings the page to the threshold.  The action
    keyword is worth 3. *)
Lemma scenario_D_score doc form doc' form' :
  forms doc = [form] ->
  signalsOf form = scenarioD ->
  pageSignals doc = 0%Z ->
  In form' (forms doc') ->
  covers scenarioD (signalsOf form') ->
  signalsOf form' <> scenarioD \/ (0 < pageSignals doc')%Z ->
  formScore form = (4 + 3 + 2)%Z
  /\ loginScore doc = 9%Z
  /\ detectLoginForm doc = false
  /\ detectLoginForm doc' = true
  /\ (actionKeyword (signalsOf form') = true -> (formScore form + 3 <= formScore form')%Z).
Proof.
  intros Hforms Hsig Hpage Hin Hcov Hmore.
  assert (Hscore : formScore form = 9%Z) by (rewrite formScore_weigh, Hsig; reflexivity).
  assert (Hdoc : loginScore doc = 9%Z).
  { rewrite loginScore_sum, Hforms, Hpage, bestFormScore_max. simpl.
    rewrite Hscore. reflexivity. }
  split; [exact Hscore|]. split; [exact Hdoc|].
  split; [unfold Scorer.detectLoginForm; cbv zeta; rewrite Hdoc; reflexivity|].
  split.
  - unfold Scorer.detectLoginForm, DefaultLoginFormThreshold. cbv zeta.
    rewrite loginScore_sum.
    pose proof (bestFormScore_in _ _ Hin) as Hbest.
    pose proof (pageSignals_nonneg doc') as Hnn.
    pose proof (weigh_monotone _ _ Hcov) as Hmono.
    rewrite <- formScore_weigh in Hmono. change (weigh scenarioD) with 9%Z in Hmono.
    apply Z.geb_le. destruct Hmore as [Hne|Hpos].
    + pose proof (weigh_scenarioD_more _ Hcov Hne) as H11.
      rewrite <- formScore_weigh in H11. lia.
    + lia.
  - intros Hact. rewrite Hscore, (formScore_weigh form').
    destruct Hcov as (_ & Hp & Hu & Hs & _ & _ & _).
    destruct (signalsOf form') as [a p u n r f o]. simpl in Hact, Hp, Hu, Hs.
    specialize (Hp eq_refl). specialize (Hu eq_refl). subst a p u.
    unfold weigh, points.
    cbn [actionKeyword passwordField userField submitTexts rememberCheckbox
         forgotLink oauthControl].
    destruct r, f, o; lia.
Qed.


(** C10.  A page without any form element can be reported to have a login
    form: its score is the number of matching meta and link tags, and ten of
    them reach the threshold. *)
Theorem login_form_without_forms doc :
  forms doc = [] ->
  (DefaultLoginFormThreshold <= pageSignals doc)%Z ->
  loginScore doc = pageSignals doc /\ detectLoginForm doc = true.
Proof.
  intros Hforms Hpage.
  assert (H : loginScore doc = pageSignals doc).
  { rewrite loginScore_sum, Hforms. reflexivity. }
  split; [exact H|].
  unfold Scorer.detectLoginForm. cbv zeta. rewrite H. apply Z.geb_le. exact Hpage.
Qed.

End WithLibrary.

Lemma covers_refl s : covers s s.
Proof. unfold covers. repeat split; auto. lia. Qed.

Lemma scenario_D_score_witness :
  formScore asciiOnly noMatch plainForm = 9%Z
  /\ loginScore asciiOnly noMatch (page [] [plainForm]) = 9%Z
  /\ detectLoginForm asciiOnly noMatch (page [] [plainForm]) = false
  /\ detectLoginForm asciiOnly noMatch (page [] [loginForm]) = true
  /\ (actionKeyword (signalsOf asciiOnly noMatch loginForm) = true ->
      (formScore asciiOnly noMatch plainForm + 3 <= formScore asciiOnly noMatch loginForm)%Z).
Proof.
  apply (scenario_D_score asciiOnly noMatch (page [] [plainForm]) plainForm
           (page [] [loginForm]) loginForm).
  - reflexivity.
  - reflexivity.
  - reflexivity.
  - left. reflexivity.
  - vm_compute. repeat split; auto; discriminate.
  - left. vm_compute. discriminate.
Defined.


Lemma login_form_without_forms_witness :
  loginScore asciiOnly noMatch metaPage = pageSignals asciiOnly metaPage
  /\ detectLoginForm asciiOnly noMatch metaPage = true.
Proof.
  apply (login_form_without_forms asciiOnly noMatch metaPage).
  - reflexivity.
  - vm_compute. discriminate.
Defined.

End ScorerProps.

(** ** Scenario D of the scorer, on markup *)

Module ScenarioDProps.
Import GoStrings Dom Constants Scorer Samples ScenarioD.

(** *** Texts *)

Lemma append_empty s : s ++ EmptyString = s.
Proof. induction s as [|c s IH]; simpl; [reflexivity | rewrite IH; reflexivity]. Qed.

Lemma append_assoc s t r : (s ++ t) ++ r = s ++ (t ++ r).
Proof. induction s as [|c s IH]; simpl; [reflexivity | rewrite IH; reflexivity]. Qed.

Lemma isASCII_app s t : isASCII (s ++ t) = isASCII s && isASCII t.
Proof.
  induction s as [|c s IH]; simpl; [reflexivity|].
  rewrite IH. apply andb_assoc.
Qed.

Lemma lowerASCII_app s t : lowerASCII (s ++ t) = lowerASCII s ++ lowerASCII t.
Proof.
  unfold lowerASCII. induction s as [|c s IH]; simpl; [reflexivity | rewrite IH; reflexivity].
Qed.

Lemma ToLower_ascii unicodeLower s :
  isASCII s = true -> ToLower unicodeLower s = lowerASCII s.
Proof. unfold ToLower. intros ->. reflexivity. Qed.

Lemma prefix_app k s t : prefix k s = true -> prefix k (s ++ t) = true.
Proof.
  revert s. induction k as [|c k IH]; intros s H.
  - destruct (s ++ t); reflexivity.
  - destruct s as [|d s]; simpl in H; [discriminate|]. simpl.
    destruct (ascii_dec c d); [apply IH; exact H | discriminate].
Qed.

Lemma Contains_app_l s t k : Contains s k = true -> Contains (s ++ t) k = true.
Proof.
  induction s as [|c s IH]; intros H.
  - simpl in H. rewrite orb_false_r in H.
    destruct k; [|discriminate]. destruct t; reflexivity.
  - simpl in H. apply orb_true_iff in H.
    change ((String c s) ++ t) with (String c (s ++ t)).
    simpl Contains. apply orb_true_iff. destruct H as [H|H].
    + left. apply (prefix_app k (String c s) t). exact H.
    + right. apply IH. exact H.
Qed.

Lemma Contains_app_r s t k : Contains t k = true -> Contains (s ++ t) k = true.
Proof.
  intros H. induction s as [|c s IH]; [exact H|].
  change ((String c s) ++ t) with (String c (s ++ t)).
  simpl Contains. rewrite IH. apply orb_true_r.
Qed.

Lemma mentions_ascii text keywords : mentions text keywords = true -> isASCII text = true.
Proof. unfold mentions. intros H. apply andb_true_iff in H. apply H. Qed.

Lemma mentions_keyword text keywords :
  mentions text keywords = true ->
  exists k, In k keywords /\ Contains (lowerASCII text) k = true.
Proof.
  unfold mentions. intros H. apply andb_true_iff in H. destruct H as [_ H].
  apply existsb_exists in H. exact H.
Qed.


(** *** Nodes below a node *)

Lemma descendantsWithParent_children n :
  descendantsWithParent n
  = flat_map (fun c => (n, c) :: descendantsWithParent c) (Children n).
Proof.
  assert (H : forall m l,
             (fix below (l : list Node) : list (Node * Node) :=
                match l with
                | [] => []
                | c :: l' => (m, c) :: (descendantsWithParent c ++ below l')%list
                end) l
             = flat_map (fun c => (m, c) :: descendantsWithParent c) l).
  { intros m l. induction l as [|c l IH]; [reflexivity|]. rewrite IH. reflexivity. }
  destruct n as [t d a cs]. apply H.
Qed.

Lemma descendants_below n : descendants n = below (Children n).
Proof.
  unfold descendants. rewrite descendantsWithParent_children.
  unfold below. induction (Children n) as [|c l IH]; [reflexivity|].
  simpl. rewrite map_app, IH. reflexivity.
Qed.

Lemma below_app l1 l2 : below (l1 ++ l2) = (below l1 ++ below l2)%list.
Proof. apply flat_map_app. Qed.

Lemma In_below c l : In c l -> In c (below l).
Proof. intros H. apply in_flat_map. exists c. split; [exact H | left; reflexivity]. Qed.

Lemma In_below_deeper c l x : In c l -> In x (descendants c) -> In x (below l).
Proof. intros H Hx. apply in_flat_map. exists c. split; [exact H | right; exact Hx]. Qed.

Lemma In_insertAt_new i new l x : In x new -> In x (insertAt i new l).
Proof. intros H. unfold insertAt. apply in_or_app. right. apply in_or_app. left. exact H. Qed.

Lemma filter_filter {A} (p q : A -> bool) l :
  filter q (filter p l) = filter (fun x => p x && q x) l.
Proof.
  induction l as [|x l IH]; [reflexivity|]. simpl.
  destruct (p x); simpl; [destruct (q x)|]; rewrite IH; reflexivity.
Qed.

Lemma filter_has {A} (p : A -> bool) l x :
  In x l -> p x = true -> (1 <= List.length (filter p l))%nat.
Proof.
  intros Hin Hp. assert (H : In x (filter p l)) by (apply filter_In; split; assumption).
  destruct (filter p l); [contradiction | simpl; lia].
Qed.

(** What a query counts in the form with an addition is what it counts in
    the form of scenario D and in the elements that came. *)
Lemma count_insertAt (q : Node -> bool) i new l :
  List.length (filter q (below (insertAt i new l)))
  = (List.length (filter q (below l)) + List.length (filter q (below new)))%nat.
Proof.
  unfold insertAt.
  assert (E : List.length (filter q (below l))
              = (List.length (filter q (below (firstn i l)))
                 + List.length (filter q (below (skipn i l))))%nat).
  { rewrite <- (firstn_skipn i l) at 1.
    rewrite below_app, filter_app, length_app. reflexivity. }
  rewrite !below_app, !filter_app, !length_app. lia.
Qed.

Lemma count_formWith (q : Node -> bool) a i :
  List.length (filter q (descendants (formWith a i)))
  = (List.length (filter q (descendants plainForm))
     + List.length (filter q (below (formElements a))))%nat.
Proof.
  rewrite !descendants_below. apply count_insertAt.
Qed.

Section WithLibrary.

Variable unicodeLower : string -> string.
Variable cssFind : string -> Node -> Selection.

#[local] Abbreviation formScore := (formScore unicodeLower cssFind).
#[local] Abbreviation signalsOf := (signalsOf unicodeLower cssFind).
#[local] Abbreviation loginScore := (loginScore unicodeLower cssFind).
#[local] Abbreviation detectLoginForm := (detectLoginForm unicodeLower cssFind).
#[local] Abbreviation matches := (matches unicodeLower).
#[local] Abbreviation Find := (Find unicodeLower).

Lemma Find_count sel (p : Node -> bool) a i :
  Length (filter p (Find sel (formWith a i)))
  = (Length (filter p (Find sel plainForm))
     + Length (filter p (filter (matches sel) (below (formElements a)))))%Z.
Proof.
  unfold Dom.Find, Length. rewrite !filter_filter, count_formWith. lia.
Qed.

Lemma Find_count_all sel a i :
  Length (Find sel (formWith a i))
  = (Length (Find sel plainForm)
     + Length (filter (matches sel) (below (formElements a))))%Z.
Proof.
  unfold Dom.Find, Length. rewrite count_formWith. lia.
Qed.

Lemma formWith_password a i :
  passwordField (signalsOf (formWith a i)) = true.
Proof.
  cbn [passwordField Scorer.signalsOf]. unfold passwordFields.
  rewrite Find_count_all.
  change (Length (Find passwordSelector plainForm)) with 1%Z.
  apply Z.gtb_lt. unfold Length. lia.
Qed.

Lemma formWith_user a i :
  userField (signalsOf (formWith a i)) = true.
Proof.
  cbn [userField Scorer.signalsOf]. unfold userFields.
  rewrite Find_count_all.
  change (Length (Find userSelector plainForm)) with 1%Z.
  apply Z.gtb_lt. unfold Length. lia.
Qed.

Lemma formWith_submit a i :
  submitTexts (signalsOf (formWith a i))
  = (1 + Length (filter (submitMatches unicodeLower)
                   (filter (matches submitSelector) (below (formElements a)))))%Z.
Proof.
  cbn [submitTexts Scorer.signalsOf]. unfold submitControls.
  rewrite Find_count.
  change (Length (filter (submitMatches unicodeLower) (Find submitSelector plainForm)))
    with 1%Z.
  reflexivity.
Qed.


Lemma Text_label t a label : Text (element t a [text label]) = label.
Proof. simpl. apply append_empty. Qed.

Lemma lower_keyword text keywords :
  mentions text keywords = true ->
  exists k, In k keywords /\ Contains (ToLower unicodeLower text) k = true.
Proof.
  intros H. destruct (mentions_keyword _ _ H) as [k [Hin Hk]].
  exists k. split; [exact Hin|].
  rewrite (ToLower_ascii _ _ (mentions_ascii _ _ H)). exact Hk.
Qed.

Ltac keyword H :=
  let k := fresh "k" in
  let Hin := fresh "Hin" in
  let Hk := fresh "Hk" in
  destruct (lower_keyword _ _ H) as [k [Hin Hk]];
  simpl in Hin;
  repeat (destruct Hin as [Hin|Hin]; [subst k|]); try contradiction.

Lemma action_detected action i :
  qualifies (ActionKeyword action) = true ->
  actionKeyword (signalsOf (formWith (ActionKeyword action) i)) = true.
Proof.
  intros H. cbn [qualifies] in H.
  cbn [actionKeyword Scorer.signalsOf]. unfold actionMatches.
  change (Attr (formWith (ActionKeyword action) i) "action") with (Some action).
  cbv zeta. keyword H; rewrite Hk; rewrite ?orb_true_r; reflexivity.
Qed.

Lemma submitMatches_label label :
  mentions label ["login"; "sign in"; "log in"] = true ->
  submitMatches unicodeLower (submitButton label) = true.
Proof.
  intros H. unfold submitMatches.
  change (Attr (submitButton label) "value") with (@None string).
  unfold submitButton. rewrite Text_label. cbv zeta.
  keyword H; rewrite Hk; rewrite ?orb_true_r; reflexivity.
Qed.

Lemma submitMatches_value value :
  mentions value ["login"; "sign in"; "log in"] = true ->
  submitMatches unicodeLower (element "input" [("type", "submit"); ("value", value)] []) = true.
Proof.
  intros H. unfold submitMatches.
  change (Attr (element "input" [("type", "submit"); ("value", value)] []) "value")
    with (Some value).
  change (Text (element "input" [("type", "submit"); ("value", value)] []))
    with EmptyString.
  change (ToLower unicodeLower EmptyString) with EmptyString.
  cbv zeta.
  keyword H;
    rewrite (Contains_app_r EmptyString _ _ (Contains_app_r " " _ _ Hk));
    rewrite ?orb_true_r; reflexivity.
Qed.

Lemma submit_detected a i :
  match a with SubmitButton _ | SubmitInput _ => True | _ => False end ->
  qualifies a = true ->
  (2 <= submitTexts (signalsOf (formWith a i)))%Z.
Proof.
  intros Ha H. rewrite formWith_submit.
  destruct a as [| label | value | | | | | | |]; try contradiction; cbn [qualifies] in H.
  - change (filter (matches submitSelector) (below (formElements (SubmitButton label))))
      with [submitButton label].
    cbn [filter]. rewrite (submitMatches_label _ H). reflexivity.
  - change (filter (matches submitSelector) (below (formElements (SubmitInput value))))
      with [element "input" [("type", "submit"); ("value", value)] []].
    cbn [filter]. rewrite (submitMatches_value _ H). reflexivity.
Qed.


Lemma positive_length {A} (l : list A) :
  (1 <= List.length l)%nat -> (Z.of_nat (List.length l) >? 0)%Z = true.
Proof. intros H. apply Z.gtb_lt. lia. Qed.

(** The text of the form with an addition: the texts in front, the texts of
    the elements that came, the texts behind. *)
Lemma Text_textsOf t a cs : Text (element t a cs) = textsOf cs.
Proof.
  unfold element. simpl. induction cs as [|c cs IH]; [reflexivity|].
  simpl. rewrite IH. reflexivity.
Qed.

Lemma textsOf_app l1 l2 : textsOf (l1 ++ l2) = textsOf l1 ++ textsOf l2.
Proof.
  induction l1 as [|c l1 IH]; [reflexivity|].
  simpl. rewrite IH. symmetry. apply append_assoc.
Qed.

Lemma baseFields_ascii i :
  isASCII (textsOf (firstn i baseFields)) = true
  /\ isASCII (textsOf (skipn i baseFields)) = true.
Proof.
  apply andb_true_iff. rewrite <- isASCII_app, <- textsOf_app, firstn_skipn.
  reflexivity.
Qed.

Lemma remember_keyword label :
  mentions label ["remember me"; "keep me signed in"] = true ->
  forall front back,
    isASCII front = true -> isASCII back = true ->
    let labelLower := ToLower unicodeLower (front ++ label ++ back) in
    Contains labelLower "remember me" || Contains labelLower "keep me signed in" = true.
Proof.
  intros H front back Hf Hb. cbv zeta.
  rewrite ToLower_ascii
    by (rewrite !isASCII_app, Hf, Hb, (mentions_ascii _ _ H); reflexivity).
  rewrite !lowerASCII_app.
  destruct (mentions_keyword _ _ H) as [k [Hin Hk]]. simpl in Hin.
  destruct Hin as [<-|[<-|[]]];
    rewrite (Contains_app_r _ _ _ (Contains_app_l _ (lowerASCII back) _ Hk));
    rewrite ?orb_true_r; reflexivity.
Qed.

Lemma remember_detected label i :
  qualifies (RememberMe label) = true ->
  rememberCheckbox (signalsOf (formWith (RememberMe label) i)) = true.
Proof.
  intros H. cbn [qualifies] in H.
  cbn [rememberCheckbox Scorer.signalsOf]. apply positive_length.
  set (form := formWith (RememberMe label) i).
  set (checkbox := element "input" [("type", "checkbox"); ("name", "remember")] []).
  apply (filter_has _ _ (form, checkbox)).
  - apply filter_In. split; [|reflexivity].
    rewrite descendantsWithParent_children. apply in_flat_map.
    exists checkbox. split; [|left; reflexivity].
    apply In_insertAt_new. left. reflexivity.
  - unfold isRememberMe.
    change (Attr checkbox "id") with (@None string).
    change (parentText form) with (Text form).
    unfold form, formWith. rewrite Text_textsOf. unfold insertAt.
    rewrite !textsOf_app.
    change (textsOf (formElements (RememberMe label)))
      with ((label ++ EmptyString) ++ EmptyString).
    rewrite !append_empty.
    destruct (baseFields_ascii i) as [Hf Hb].
    apply (remember_keyword _ H _ _ Hf Hb).
Qed.

Lemma remember_labelled_detected label i :
  qualifies (RememberMeLabelled label) = true ->
  rememberCheckbox (signalsOf (formWith (RememberMeLabelled label) i)) = true.
Proof.
  intros H. cbn [qualifies] in H.
  cbn [rememberCheckbox Scorer.signalsOf]. apply positive_length.
  set (form := formWith (RememberMeLabelled label) i).
  set (checkbox := element "input" [("type", "checkbox")] []).
  set (wrap := element "label" [] [checkbox; text label]).
  apply (filter_has _ _ (wrap, checkbox)).
  - apply filter_In. split; [|reflexivity].
    rewrite descendantsWithParent_children. apply in_flat_map.
    exists wrap. split; [apply In_insertAt_new; left; reflexivity|].
    right. left. reflexivity.
  - unfold isRememberMe.
    change (Attr checkbox "id") with (@None string).
    change (parentText wrap) with (label ++ EmptyString).
    rewrite append_empty.
    pose proof (remember_keyword _ H EmptyString EmptyString eq_refl eq_refl) as K.
    cbv zeta in K. rewrite append_empty in K. exact K.
Qed.

Lemma forgot_detected href label i :
  qualifies (ForgotLink href label) = true ->
  forgotLink (signalsOf (formWith (ForgotLink href label) i)) = true.
Proof.
  intros H. cbn [qualifies] in H. apply andb_true_iff in H. destruct H as [H1 H2].
  cbn [forgotLink Scorer.signalsOf]. unfold forgotPwd.
  rewrite Find_count.
  change (filter (matches [tag "a"]) (below (formElements (ForgotLink href label))))
    with [anchor href label].
  assert (E : isForgotPassword unicodeLower (anchor href label) = true).
  { unfold isForgotPassword, anchor. rewrite Text_label. cbv zeta.
    keyword H1. keyword H2. rewrite Hk, Hk0. reflexivity. }
  cbn [filter]. rewrite E. apply Z.gtb_lt. unfold Length. simpl List.length. lia.
Qed.

Lemma knownProvider_In provider : knownProvider provider = true -> In provider providers.
Proof.
  unfold knownProvider. intros H. apply existsb_exists in H.
  destruct H as [p [Hin Hp]]. apply String.eqb_eq in Hp. subst p. exact Hin.
Qed.

Lemma oauth_text_detected provider label i :
  qualifies (OAuthText provider label) = true ->
  oauthControl (signalsOf (formWith (OAuthText provider label) i)) = true.
Proof.
  intros H. cbn [qualifies] in H. apply andb_true_iff in H. destruct H as [Hp H].
  cbn [oauthControl Scorer.signalsOf]. unfold oauthButtons.
  rewrite Find_count.
  set (button := element "button" [("type", "button")] [text label]).
  change (filter (matches [tag "button"; tag "a"])
            (below (formElements (OAuthText provider label))))
    with [button].
  assert (E : isOAuthButton unicodeLower button = true).
  { unfold isOAuthButton, button. rewrite Text_label. cbv zeta.
    apply existsb_exists. exists provider.
    split; [apply knownProvider_In; exact Hp|].
    keyword H; cbn [append]; rewrite Hk; rewrite ?orb_true_r; reflexivity. }
  cbn [filter]. rewrite E. apply Z.gtb_lt. unfold Length. simpl List.length. lia.
Qed.

Lemma oauth_class_detected provider class label i :
  qualifies (OAuthClass provider class label) = true ->
  oauthControl (signalsOf (formWith (OAuthClass provider class label) i)) = true.
Proof.
  intros H. cbn [qualifies] in H.
  apply andb_true_iff in H. destruct H as [H Hc].
  apply andb_true_iff in H. destruct H as [Hp Hn].
  cbn [oauthControl Scorer.signalsOf]. unfold oauthButtons.
  rewrite Find_count.
  set (button := element "button" [("class", class)] [text label]).
  change (filter (matches [tag "button"; tag "a"])
            (below (formElements (OAuthClass provider class label))))
    with [button].
  assert (E : isOAuthButton unicodeLower button = true).
  { unfold isOAuthButton.
    change (Attr button "class") with (Some class). cbv zeta.
    apply existsb_exists. exists provider.
    split; [apply knownProvider_In; exact Hp|].
    keyword Hn. keyword Hc; rewrite Hk, Hk0; rewrite ?orb_true_r; reflexivity. }
  cbn [filter]. rewrite E. apply Z.gtb_lt. unfold Length. simpl List.length. lia.
Qed.


(** *** The page *)

Lemma insertAt_nothing i l : insertAt i [] l = l.
Proof. unfold insertAt. simpl. apply firstn_skipn. Qed.

Lemma body_found sel head x body :
  In x body -> matches sel x = true -> In x (Find sel (page head body)).
Proof.
  intros Hin Hm. apply filter_In. split; [|exact Hm].
  unfold page. rewrite descendants_below.
  apply (In_below_deeper (element "html" [] [element "head" [] head; element "body" [] body]));
    [left; reflexivity|].
  rewrite descendants_below.
  apply (In_below_deeper (element "body" [] body)); [right; left; reflexivity|].
  rewrite descendants_below. apply In_below. exact Hin.
Qed.

Lemma head_found sel head x body :
  In x head -> matches sel x = true -> In x (Find sel (page head body)).
Proof.
  intros Hin Hm. apply filter_In. split; [|exact Hm].
  unfold page. rewrite descendants_below.
  apply (In_below_deeper (element "html" [] [element "head" [] head; element "body" [] body]));
    [left; reflexivity|].
  rewrite descendants_below.
  apply (In_below_deeper (element "head" [] head)); [left; reflexivity|].
  rewrite descendants_below. apply In_below. exact Hin.
Qed.

Lemma matchCompound_substr t key val value rest :
  String.eqb val EmptyString = false ->
  Contains (ToLower unicodeLower value) (ToLower unicodeLower val) = true ->
  matchCompound unicodeLower (element t ((key, value) :: rest) [])
    (tagWith t (attrSubstrFold key val)) = true.
Proof.
  intros Hval H. unfold matchCompound, tagWith, matchAttr, matchAttribute, element.
  cbn [Type_ Data Attrs selTag selAttrs forallb existsb fst snd NodeType_eqb].
  rewrite Hval, !String.eqb_refl, H. reflexivity.
Qed.

Lemma page_tag_detected a i :
  match a with PageMeta _ _ | PageLink _ _ => True | _ => False end ->
  qualifies a = true ->
  (1 <= pageSignals unicodeLower (pageWith a i))%Z.
Proof.
  intros Ha H. unfold pageSignals, Length.
  destruct a as [| | | | | | | | name content | rel content]; try contradiction;
    cbn [qualifies] in H; apply andb_true_iff in H; destruct H as [Hn Hc].
  - set (meta := element "meta" [("name", name); ("content", content)] []).
    assert (K : (1 <= List.length (filter (pageSignal unicodeLower)
                                     (Find pageSelector (pageWith (PageMeta name content) i))))%nat).
    { apply (filter_has _ _ meta).
      - apply head_found; [left; reflexivity|].
        unfold Dom.matches, pageSelector, meta. cbn [existsb].
        keyword Hn;
          match type of Hk with
          | Contains _ ?v = true =>
              rewrite (matchCompound_substr "meta" "name" v name _ eq_refl Hk)
          end;
          rewrite ?orb_true_r; reflexivity.
      - unfold pageSignal. change (Attr meta "content") with (Some content).
        keyword Hc. exact Hk. }
    lia.
  - set (link := element "link" [("rel", rel); ("content", content)] []).
    assert (K : (1 <= List.length (filter (pageSignal unicodeLower)
                                     (Find pageSelector (pageWith (PageLink rel content) i))))%nat).
    { apply (filter_has _ _ link).
      - apply head_found; [left; reflexivity|].
        unfold Dom.matches, pageSelector, link. cbn [existsb].
        keyword Hn;
          match type of Hk with
          | Contains _ ?v = true =>
              rewrite (matchCompound_substr "link" "rel" v rel _ eq_refl Hk)
          end;
          rewrite ?orb_true_r; reflexivity.
      - unfold pageSignal. change (Attr link "content") with (Some content).
        keyword Hc. exact Hk. }
    lia.
Qed.

Lemma weigh_with_one_more s :
  passwordField s = true -> userField s = true -> (1 <= submitTexts s)%Z ->
  actionKeyword s = true \/ (2 <= submitTexts s)%Z \/ rememberCheckbox s = true
  \/ forgotLink s = true \/ oauthControl s = true ->
  (11 <= weigh s)%Z.
Proof.
  destruct s as [a p u n r f o].
  cbn [actionKeyword passwordField userField submitTexts rememberCheckbox
       forgotLink oauthControl].
  intros -> -> Hn H. unfold weigh, points.
  cbn [actionKeyword passwordField userField submitTexts rememberCheckbox
       forgotLink oauthControl].
  destruct H as [-> | [H | [-> | [-> | ->]]]];
    repeat match goal with
           | |- context [if ?b then _ else _] => destruct b
           end; lia.
Qed.

Lemma formWith_submit_one a i : (1 <= submitTexts (signalsOf (formWith a i)))%Z.
Proof. rewrite formWith_submit. unfold Length. lia. Qed.

Lemma form_addition_score a i :
  headTags a = [] -> qualifies a = true -> (11 <= formScore (formWith a i))%Z.
Proof.
  intros Hhead H. rewrite ScorerProps.formScore_weigh.
  apply weigh_with_one_more;
    [apply formWith_password | apply formWith_user | apply formWith_submit_one |].
  destruct a as [action | label | value | label | label | href label
                 | provider label | provider class label | |]; try discriminate Hhead.
  - left. apply action_detected. exact H.
  - right. left. apply submit_detected; [exact I | exact H].
  - right. left. apply submit_detected; [exact I | exact H].
  - right. right. left. apply remember_detected. exact H.
  - right. right. left. apply remember_labelled_detected. exact H.
  - right. right. right. left. apply forgot_detected. exact H.
  - right. right. right. right. apply oauth_text_detected. exact H.
  - right. right. right. right. apply oauth_class_detected. exact H.
Qed.

Lemma page_addition_score a i :
  headTags a <> [] -> qualifies a = true ->
  formScore (formWith a i) = 9%Z /\ (1 <= pageSignals unicodeLower (pageWith a i))%Z.
Proof.
  intros Hhead H.
  destruct a; try (exfalso; apply Hhead; reflexivity).
  - split; [|apply page_tag_detected; [exact I | exact H]].
    unfold formWith. cbn [formElements formAttrs]. rewrite insertAt_nothing. reflexivity.
  - split; [|apply page_tag_detected; [exact I | exact H]].
    unfold formWith. cbn [formElements formAttrs]. rewrite insertAt_nothing. reflexivity.
Qed.

Lemma reaches_threshold doc form :
  In form (Find [tag "form"] doc) ->
  (10 <= formScore form + pageSignals unicodeLower doc)%Z ->
  (10 <= loginScore doc)%Z /\ detectLoginForm doc = true.
Proof.
  intros Hin H.
  assert (K : (10 <= loginScore doc)%Z).
  { rewrite ScorerProps.loginScore_sum.
    pose proof (ScorerProps.bestFormScore_in unicodeLower cssFind _ _ Hin). lia. }
  split; [exact K|].
  unfold Scorer.detectLoginForm, DefaultLoginFormThreshold. cbv zeta.
  apply Z.geb_le. exact K.
Qed.

Lemma action_score action i :
  qualifies (ActionKeyword action) = true ->
  formScore (formWith (ActionKeyword action) i) = (formScore plainForm + 3)%Z.
Proof.
  intros H. rewrite !ScorerProps.formScore_weigh. unfold weigh.
  rewrite (action_detected _ i H).
  unfold formWith. cbn [formElements formAttrs]. rewrite insertAt_nothing.
  reflexivity.
Qed.



End WithLibrary.


(** The score of the page of scenario D with one addition of each kind. *)
Lemma scenario_D_additions :
  map (fun a => (qualifies a, loginScore asciiOnly noMatch (pageWith a 3)))
    [ ActionKeyword "/login";
      SubmitButton "Sign in";
      SubmitInput "Log in";
      RememberMe "Remember me";
      RememberMeLabelled "Keep me signed in";
      ForgotLink "/forgot" "Forgot password?";
      OAuthText "github" "Login with GitHub";
      OAuthClass "google" "google-auth" "Continue";
      PageMeta "auth-provider" "oauth2";
      PageLink "authorization" "/oauth/authorize" ]
  = [ (true, 12); (true, 11); (true, 11); (true, 11); (true, 11);
      (true, 11); (true, 11); (true, 11); (true, 10); (true, 10) ]%Z.
Proof. vm_compute. reflexivity. Qed.

(** An addition that does not qualify leaves the page where it is. *)
Lemma scenario_D_no_signal :
  map (fun a => (qualifies a, loginScore asciiOnly noMatch (pageWith a 0)))
    [ ActionKeyword "/search";
      SubmitButton "Send";
      RememberMe "Subscribe";
      ForgotLink "/help" "Help";
      OAuthText "google" "Continue";
      PageMeta "viewport" "width=device-width" ]
  = [ (false, 9); (false, 9); (false, 9); (false, 9); (false, 9); (false, 9) ]%Z.
Proof. vm_compute. reflexivity. Qed.


End ScenarioDProps.

(** ** The link extractor and the prober *)

Module LinksProps.
Import GoStrings Dom Constants Go Links Samples.

Section WithNetwork.

Variable unicodeLower : string -> string.
Variable ParseRef : URL -> string -> option URL.
Variable head : task -> option Z.
Variable maxChanCap : Z.

#[local] Abbreviation collectLinks := (collectLinks unicodeLower ParseRef).
#[local] Abbreviation countInaccessible := (countInaccessible head).
#[local] Abbreviation step := (step head).
#[local] Abbreviation steps := (steps head).
#[local] Abbreviation poolReturns := (poolReturns head).
#[local] Abbreviation analyzeLinks := (analyzeLinks unicodeLower ParseRef head maxChanCap).
#[local] Abbreviation admitted := (admitted unicodeLower ParseRef).
#[local] Abbreviation links := (Find unicodeLower linkSelector).
#[local] Abbreviation outstanding := (outstanding head).

(** *** The two admission loops *)

Lemma admitExternal_firstn ext n B chan :
  admitExternal ext n B chan
  = ((n + Z.of_nat (List.length (firstn (Z.to_nat (B - n)) ext)))%Z,
     (chan ++ map externalRequest (firstn (Z.to_nat (B - n)) ext))%list).
Proof.
  revert n chan. induction ext as [|link rest IH]; intros n chan; simpl.
  - rewrite firstn_nil. simpl. rewrite app_nil_r. f_equal. lia.
  - destruct (n >=? B)%Z eqn:E.
    + apply Z.geb_le in E. replace (Z.to_nat (B - n)) with 0%nat by lia.
      simpl. rewrite app_nil_r. f_equal. lia.
    + assert (n < B)%Z by (destruct (Z.geb_spec n B); [discriminate | lia]).
      rewrite IH.
      replace (Z.to_nat (B - n)) with (S (Z.to_nat (B - (n + 1)))) by lia.
      simpl. rewrite <- app_assoc. simpl. f_equal. lia.
Qed.

Lemma skipn_nth {A} (l : list A) k x :
  nth_error l k = Some x -> skipn k l = x :: skipn (S k) l.
Proof.
  revert k. induction l as [|y l IH]; intros [|k] H; simpl in *; try discriminate.
  - injection H as ->. reflexivity.
  - apply IH. exact H.
Qed.

Lemma admitInternal_firstn fuel i n internal cnt chan :
  (0 <= i)%Z -> (n <= Z.of_nat (List.length internal))%Z ->
  (Z.to_nat (n - i) <= fuel)%nat ->
  admitInternal fuel i n internal cnt chan
  = Some ((cnt + Z.of_nat (Z.to_nat (n - i)))%Z,
          (chan ++ map internalRequest
                     (firstn (Z.to_nat (n - i)) (skipn (Z.to_nat i) internal)))%list).
Proof.
  revert i cnt chan. induction fuel as [|fuel IH]; intros i cnt chan Hi Hn Hfuel; simpl.
  - replace (Z.to_nat (n - i)) with 0%nat by lia. simpl. rewrite app_nil_r.
    do 2 f_equal. lia.
  - destruct (i <? n)%Z eqn:E.
    + apply Z.ltb_lt in E.
      destruct (nth_error internal (Z.to_nat i)) as [link|] eqn:Enth.
      * rewrite IH by lia.
        rewrite (skipn_nth _ _ _ Enth).
        replace (Z.to_nat (n - i)) with (S (Z.to_nat (n - (i + 1)))) by lia.
        replace (Z.to_nat (i + 1)) with (S (Z.to_nat i)) by lia.
        simpl firstn. simpl map. rewrite <- app_assoc. simpl.
        do 2 f_equal. lia.
      * apply nth_error_None in Enth. lia.
    + apply Z.ltb_ge in E. replace (Z.to_nat (n - i)) with 0%nat by lia.
      simpl. rewrite app_nil_r. do 2 f_equal. lia.
Qed.

(** The loops of the code send what the policy of the specification admits. *)
Lemma admitLinks_policy B c :
  (0 <= B)%Z ->
  admitLinks B c = Some (Z.of_nat (List.length (policy B c)), policy B c).
Proof.
  intros HB. unfold admitLinks. rewrite admitExternal_firstn. cbv zeta. simpl app.
  rewrite Z.add_0_l, Z.sub_0_r.
  set (ext := firstn (Z.to_nat B) (externalLinks c)).
  set (remaining := (B - Z.of_nat (List.length ext))%Z).
  assert (Hext : (Z.of_nat (List.length ext) <= B)%Z).
  { unfold ext. rewrite length_firstn. lia. }
  set (n := if (Z.of_nat (List.length (internalLinks c)) >? remaining)%Z
            then remaining else Z.of_nat (List.length (internalLinks c))).
  assert (Hn : (0 <= n <= Z.of_nat (List.length (internalLinks c)))%Z
               /\ firstn (Z.to_nat n) (internalLinks c)
                  = firstn (Z.to_nat remaining) (internalLinks c)).
  { unfold n. destruct (Z.gtb_spec (Z.of_nat (List.length (internalLinks c))) remaining).
    - split; [unfold remaining; lia | reflexivity].
    - split; [lia|]. rewrite Nat2Z.id.
      rewrite firstn_all. symmetry. apply firstn_all2. lia. }
  destruct Hn as [Hn Hfirst].
  rewrite admitInternal_firstn by lia.
  rewrite Z.sub_0_r. simpl skipn. rewrite Hfirst.
  unfold policy, admittedInternal, admittedExternal. fold ext. fold remaining.
  f_equal. f_equal.
  rewrite length_app, !length_map, <- Hfirst, length_firstn. lia.
Qed.

Lemma number_snd i l : map snd (number i l) = l.
Proof.
  revert i. induction l as [|r l IH]; intros i; simpl; [reflexivity|].
  rewrite IH. reflexivity.
Qed.

Lemma number_length i l : List.length (number i l) = List.length l.
Proof.
  rewrite <- (number_snd i l) at 2. rewrite length_map. reflexivity.
Qed.

Lemma policy_length B c : (0 <= B)%Z -> (Z.of_nat (List.length (policy B c)) <= B)%Z.
Proof.
  intros HB. unfold policy, admittedInternal.
  rewrite length_app, !length_map, length_firstn.
  assert ((Z.of_nat (List.length (admittedExternal B c)) <= B)%Z).
  { unfold admittedExternal. rewrite length_firstn. lia. }
  lia.
Qed.

(** *** The worker pool *)

Lemma countInaccessible_app l1 l2 :
  countInaccessible (l1 ++ l2) = (countInaccessible l1 + countInaccessible l2)%Z.
Proof.
  unfold Links.countInaccessible. rewrite filter_app, length_app. lia.
Qed.

Lemma countInaccessible_cons t l :
  countInaccessible (t :: l)
  = ((if checkLinkWithTimeout head t then 0 else 1) + countInaccessible l)%Z.
Proof.
  unfold Links.countInaccessible. simpl.
  destruct (checkLinkWithTimeout head t); simpl List.length; lia.
Qed.

Lemma inaccessibleResults_app r1 r2 :
  inaccessibleResults (r1 ++ r2) = (inaccessibleResults r1 + inaccessibleResults r2)%Z.
Proof.
  unfold inaccessibleResults. rewrite filter_app, length_app. lia.
Qed.

Lemma step_outstanding cfg p q : step cfg p q -> outstanding p = outstanding q.
Proof.
  intros H. destruct H; unfold outstanding; simpl;
    repeat rewrite ?countInaccessible_app, ?countInaccessible_cons, ?inaccessibleResults_app.
  - change (countInaccessible []) with 0%Z. lia.
  - lia.
  - destruct (checkLinkWithTimeout head t);
      [change (inaccessibleResults [true]) with 0%Z
      |change (inaccessibleResults [false]) with 1%Z]; lia.
  - destruct accessible;
      [change (inaccessibleResults (true :: r)) with (inaccessibleResults r)
      |change (inaccessibleResults (false :: r))
         with (Z.of_nat (S (List.length (filter negb r))))];
      unfold inaccessibleResults; lia.
Qed.

Lemma steps_outstanding cfg p q : steps cfg p q -> outstanding p = outstanding q.
Proof.
  induction 1 as [|p q r Hstep _ IH]; [reflexivity|].
  rewrite (step_outstanding _ _ _ Hstep). exact IH.
Qed.

(** Every run of the pool that comes to its end has counted the inaccessible
    ones among the tasks it was started on, in whatever order the workers
    took and answered them. *)
Lemma pool_count cfg tasks n :
  poolReturns cfg tasks n -> n = countInaccessible tasks.
Proof.
  intros (p & Hsteps & (Hu & Hq & Hw & Hr) & Hn).
  apply steps_outstanding in Hsteps. unfold outstanding in Hsteps.
  rewrite Hu, Hq, Hw, Hr, Hn in Hsteps. simpl in Hsteps.
  change (countInaccessible []) with 0%Z in Hsteps.
  unfold inaccessibleResults in Hsteps. simpl in Hsteps. lia.
Qed.

Lemma steps_trans cfg p q r : steps cfg p q -> steps cfg q r -> steps cfg p r.
Proof.
  induction 1 as [|p q' r' Hstep _ IH]; intros H; [exact H|].
  eapply steps_step; [exact Hstep | apply IH; exact H].
Qed.

Lemma run_send cfg us q n :
  (Z.of_nat (List.length q + List.length us) <= MaxLinks cfg)%Z ->
  steps cfg {| unsent := us; linkChan := q; probing := []; resultChan := []; counted := n |}
            {| unsent := []; linkChan := (q ++ us)%list; probing := []; resultChan := [];
               counted := n |}.
Proof.
  revert q. induction us as [|t us IH]; intros q Hcap.
  - rewrite app_nil_r. apply steps_refl.
  - eapply steps_step.
    + apply step_send. simpl in Hcap. lia.
    + replace (q ++ t :: us)%list with ((q ++ [t]) ++ us)%list
        by (rewrite <- app_assoc; reflexivity).
      apply IH. rewrite length_app. simpl in *. lia.
Qed.

Lemma run_work cfg q n :
  (1 <= MaxWorkers cfg)%Z -> (Z.of_nat (List.length q) <= MaxLinks cfg)%Z ->
  steps cfg {| unsent := []; linkChan := q; probing := []; resultChan := []; counted := n |}
            {| unsent := []; linkChan := []; probing := []; resultChan := [];
               counted := (n + countInaccessible q)%Z |}.
Proof.
  intros HW. revert n. induction q as [|t q IH]; intros n Hcap.
  - change (countInaccessible []) with 0%Z. rewrite Z.add_0_r. apply steps_refl.
  - simpl in Hcap.
    eapply steps_step; [apply step_take; simpl; lia|].
    eapply steps_step; [apply (step_probed head cfg [] q [] t [] [] n); simpl; lia|].
    eapply steps_step; [apply step_count|].
    rewrite countInaccessible_cons.
    replace (n + ((if checkLinkWithTimeout head t then 0 else 1) + countInaccessible q))%Z
      with ((if checkLinkWithTimeout head t then n else n + 1) + countInaccessible q)%Z
      by (destruct (checkLinkWithTimeout head t); lia).
    apply IH. lia.
Qed.

(** With one worker at least and the tasks within the capacity of the
    channels, the pool has a run that comes to its end. *)
Lemma pool_runs cfg tasks :
  (1 <= MaxWorkers cfg)%Z -> (Z.of_nat (List.length tasks) <= MaxLinks cfg)%Z ->
  poolReturns cfg tasks (countInaccessible tasks).
Proof.
  intros HW Hcap.
  exists {| unsent := []; linkChan := []; probing := []; resultChan := [];
            counted := countInaccessible tasks |}.
  split; [|split; [repeat split | reflexivity]].
  eapply steps_trans.
  - apply (run_send cfg tasks [] 0). simpl. exact Hcap.
  - simpl. apply (run_work cfg tasks 0 HW Hcap).
Qed.

(** Every step uses up one of the steps left, so every run is finite. *)
Lemma step_stepsLeft cfg p q : step cfg p q -> (stepsLeft q < stepsLeft p)%nat.
Proof.
  intros H. destruct H; unfold stepsLeft; simpl; rewrite ?length_app; simpl; lia.
Qed.

Lemma step_inPool cfg p q : step cfg p q -> (inPool q <= inPool p)%nat.
Proof.
  intros H. destruct H; unfold inPool; simpl; rewrite ?length_app; simpl; lia.
Qed.

Lemma steps_inPool cfg p q : steps cfg p q -> (inPool q <= inPool p)%nat.
Proof.
  induction 1 as [|p q r Hstep _ IH]; [lia|].
  apply step_inPool in Hstep. lia.
Qed.

(** With one worker at least, a pool started within the capacity of the
    channels is never stuck before its end: no send waits on a full buffer
    for ever, and the range over [resultChan] is fed until it is closed. *)
Lemma pool_progress cfg tasks p :
  (1 <= MaxWorkers cfg)%Z -> (Z.of_nat (List.length tasks) <= MaxLinks cfg)%Z ->
  steps cfg (startPool tasks) p ->
  finished p \/ exists q, step cfg p q.
Proof.
  intros HW Hcap Hsteps. apply steps_inPool in Hsteps.
  unfold inPool in Hsteps. simpl in Hsteps.
  destruct p as [us q w r n]. simpl in Hsteps.
  destruct us as [|t us].
  - destruct r as [|accessible r].
    + destruct w as [|t w].
      * destruct q as [|t q]; [left; repeat split|].
        right. eexists. apply step_take. simpl. lia.
      * right. eexists. apply (step_probed head cfg [] q [] t w [] n). simpl in *. lia.
    + right. eexists. apply step_count.
  - right. eexists. apply step_send. simpl in Hsteps. lia.
Qed.

(** Without a worker nothing is taken from [linkChan]: the wait group never
    comes down and the range over [resultChan] never ends. *)
Lemma pool_blocks cfg tasks n :
  (MaxWorkers cfg <= 0)%Z -> tasks <> [] -> ~ poolReturns cfg tasks n.
Proof.
  intros HW Hne (p & Hsteps & (Hu & Hq & _ & _) & _).
  assert (Inv : forall a b, steps cfg a b ->
            probing a = [] -> resultChan a = [] ->
            (List.length (unsent b) + List.length (linkChan b)
             = List.length (unsent a) + List.length (linkChan a))%nat).
  { induction 1 as [|a b c Hstep _ IH]; intros Hw Hr; [reflexivity|].
    destruct Hstep; simpl in *.
    - rewrite IH by assumption. simpl. rewrite length_app. simpl. lia.
    - subst. simpl in *. lia.
    - destruct w1; discriminate.
    - discriminate. }
  specialize (Inv _ _ Hsteps eq_refl eq_refl). rewrite Hu, Hq in Inv. simpl in Inv.
  destruct tasks; [apply Hne; reflexivity | simpl in Inv; lia].
Qed.

(** Only tasks the pool was started on are ever probed. *)
Lemma pool_probes cfg tasks p t :
  steps cfg (startPool tasks) p -> In t (probing p) -> In t tasks.
Proof.
  intros Hsteps.
  assert (Inv : forall a b, steps cfg a b ->
            forall x, In x (unsent b ++ linkChan b ++ probing b)%list ->
                      In x (unsent a ++ linkChan a ++ probing a)%list).
  { induction 1 as [|a b c Hstep _ IH]; intros x Hx; [exact Hx|].
    specialize (IH x Hx). clear Hx. destruct Hstep; simpl in *;
      repeat (rewrite ?in_app_iff in *; simpl in * ); tauto. }
  intros Hin. specialize (Inv _ _ Hsteps t). simpl in Inv.
  rewrite app_nil_r in Inv. apply Inv. rewrite !in_app_iff. right. right. exact Hin.
Qed.

(** *** The extractor *)

Lemma collect_counts baseURL l st :
  let st' := fold_left (collectStep ParseRef baseURL) l st in
  Internal (analysis st')
  = (Internal (analysis st)
     + Z.of_nat (List.length (filter (resolvesInternal ParseRef baseURL) l)))%Z
  /\ External (analysis st')
     = (External (analysis st)
        + Z.of_nat (List.length (filter (resolvesExternal ParseRef baseURL) l)))%Z
  /\ Inaccessible (analysis st') = Inaccessible (analysis st).
Proof.
  revert st. induction l as [|s l IH]; intros st; simpl.
  - repeat split; lia.
  - destruct (IH (collectStep ParseRef baseURL st s)) as (HI & HE & HN).
    rewrite HI, HE, HN. clear IH HI HE HN.
    unfold collectStep, resolvesInternal, resolvesExternal, resolved.
    destruct (Attr s "href") as [href|]; [|repeat split; lia].
    destruct (ParseRef baseURL href) as [linkURL|]; [|repeat split; lia].
    destruct (String.eqb (Host linkURL) (Host baseURL)); simpl; repeat split; lia.
Qed.

Lemma resolves_split baseURL l :
  (List.length (filter (resolvesInternal ParseRef baseURL) l)
   + List.length (filter (resolvesExternal ParseRef baseURL) l)
   = List.length (filter (resolves ParseRef baseURL) l))%nat.
Proof.
  induction l as [|s l IH]; simpl; [reflexivity|].
  unfold resolvesInternal, resolvesExternal, resolves in *.
  destruct (resolved ParseRef baseURL s) as [linkURL|]; [|exact IH].
  destruct (String.eqb (Host linkURL) (Host baseURL)); simpl; lia.
Qed.

(** *** [analyzeLinks] *)

Lemma analyzeLinks_returns_inv cfg doc baseURL result :
  analyzeLinks cfg doc baseURL = Returns result ->
  (0 <= MaxLinks cfg <= maxChanCap)%Z
  /\ admitted cfg doc baseURL = number 0 (policy (MaxLinks cfg) (collectLinks doc baseURL))
  /\ result = {| Internal := Internal (analysis (collectLinks doc baseURL));
                 External := External (analysis (collectLinks doc baseURL));
                 Inaccessible := countInaccessible (admitted cfg doc baseURL) |}.
Proof.
  unfold Links.analyzeLinks, Links.admitted.
  destruct (MaxLinks cfg <? 0)%Z eqn:E1; [discriminate|].
  destruct (maxChanCap <? MaxLinks cfg)%Z eqn:E2; [discriminate|]. simpl.
  apply Z.ltb_ge in E1, E2. rewrite (admitLinks_policy _ _ E1).
  destruct ((MaxWorkers cfg <=? 0)%Z && _); [discriminate|].
  intros H. injection H as <-. repeat split; lia.
Qed.

(** With a budget the platform has channels for and one worker at least,
    [analyzeLinks] returns, and the pool has a run that ends on its count. *)
Lemma analyzeLinks_returns cfg doc baseURL :
  (0 <= MaxLinks cfg <= maxChanCap)%Z -> (1 <= MaxWorkers cfg)%Z ->
  exists result,
    analyzeLinks cfg doc baseURL = Returns result
    /\ poolReturns cfg (admitted cfg doc baseURL) (Inaccessible result).
Proof.
  intros [HB Hcap] HW.
  unfold Links.analyzeLinks, Links.admitted.
  replace (MaxLinks cfg <? 0)%Z with false by (symmetry; apply Z.ltb_ge; lia).
  replace (maxChanCap <? MaxLinks cfg)%Z with false by (symmetry; apply Z.ltb_ge; lia).
  simpl. rewrite (admitLinks_policy _ _ HB).
  replace (MaxWorkers cfg <=? 0)%Z with false by (symmetry; apply Z.leb_gt; lia).
  simpl. eexists. split; [reflexivity|]. simpl.
  apply pool_runs; [exact HW|].
  rewrite number_length. apply policy_length. exact HB.
Qed.

(** The three outcomes of [analyzeLinks] are those of the pool: a result is
    the count a run ends on, and where the call is said to wait for ever, no
    run of the pool comes to its end. *)
Lemma analyzeLinks_pool cfg doc baseURL :
  match analyzeLinks cfg doc baseURL with
  | Returns result => poolReturns cfg (admitted cfg doc baseURL) (Inaccessible result)
  | Blocks => forall n, ~ poolReturns cfg (admitted cfg doc baseURL) n
  | Panics => (MaxLinks cfg < 0)%Z \/ (maxChanCap < MaxLinks cfg)%Z
  end.
Proof.
  unfold Links.analyzeLinks, Links.admitted.
  destruct (Z.ltb_spec (MaxLinks cfg) 0) as [|HB]; [left; assumption|].
  destruct (Z.ltb_spec maxChanCap (MaxLinks cfg)) as [|Hcap]; [right; assumption|].
  simpl. rewrite (admitLinks_policy _ _ HB).
  set (tasks := number 0 (policy (MaxLinks cfg) (collectLinks doc baseURL))).
  assert (Hlen : (Z.of_nat (List.length tasks) <= MaxLinks cfg)%Z).
  { unfold tasks. rewrite number_length. apply policy_length. exact HB. }
  destruct (Z.leb_spec (MaxWorkers cfg) 0) as [HW|HW]; simpl.
  - destruct tasks as [|t tasks'] eqn:E; simpl.
    + exists (startPool []). split; [apply steps_refl|]. split; [repeat split | reflexivity].
    + intros n. apply pool_blocks; [exact HW | discriminate].
  - apply pool_runs; [lia | exact Hlen].
Qed.

Lemma countInaccessible_bounds l :
  (0 <= countInaccessible l <= Z.of_nat (List.length l))%Z.
Proof.
  unfold Links.countInaccessible. split; [lia|].
  apply Nat2Z.inj_le. induction l as [|t l IH]; simpl; [lia|].
  destruct (negb (checkLinkWithTimeout head t)); simpl; lia.
Qed.

(** C1.  When [analyzeLinks] returns, the tasks it dispatched are the ones
    the policy admits: the external links first, up to the budget, then the
    internal links in document order, up to what is left of the budget.
    Nothing else is ever probed, and the inaccessible count is the count
    over these tasks, whatever run the pool takes. *)
Theorem admission_follows_policy cfg doc baseURL result :
  analyzeLinks cfg doc baseURL = Returns result ->
  map snd (admitted cfg doc baseURL) = policy (MaxLinks cfg) (collectLinks doc baseURL)
  /\ Inaccessible result
     = countInaccessible (number 0 (policy (MaxLinks cfg) (collectLinks doc baseURL)))
  /\ (forall n, poolReturns cfg (admitted cfg doc baseURL) n -> n = Inaccessible result)
  /\ (forall p t, steps cfg (startPool (admitted cfg doc baseURL)) p ->
                  In t (probing p) ->
                  In t (number 0 (policy (MaxLinks cfg) (collectLinks doc baseURL)))).
Proof.
  intros H. apply analyzeLinks_returns_inv in H. destruct H as (_ & Hadm & ->).
  simpl Inaccessible. split; [rewrite Hadm; apply number_snd|].
  split; [rewrite Hadm; reflexivity|]. split.
  - intros n Hn. apply (pool_count _ _ _ Hn).
  - intros p t Hsteps Hin. rewrite <- Hadm.
    apply (pool_probes _ _ _ _ Hsteps). exact Hin.
Qed.

(** C2.  When [analyzeLinks] returns, the inaccessible count is not negative
    and not above the number of dispatched tasks, which is not above the
    link budget. *)
Theorem inaccessible_bounds cfg doc baseURL result :
  analyzeLinks cfg doc baseURL = Returns result ->
  (0 <= Inaccessible result)%Z
  /\ (Inaccessible result <= Z.of_nat (List.length (admitted cfg doc baseURL)))%Z
  /\ (Z.of_nat (List.length (admitted cfg doc baseURL)) <= MaxLinks cfg)%Z.
Proof.
  intros H. apply analyzeLinks_returns_inv in H. destruct H as ([HB _] & Hadm & ->).
  simpl Inaccessible.
  pose proof (countInaccessible_bounds (admitted cfg doc baseURL)) as Hc.
  split; [lia|]. split; [lia|].
  rewrite Hadm, number_length. apply policy_length. exact HB.
Qed.

(** C5.  When [analyzeLinks] returns, the internal and the external count
    add up to the number of anchors with a target that resolves against the
    base URL: each such target is in one bucket, by its host, and a target
    that does not resolve is in none. *)
Theorem link_counts cfg doc baseURL result :
  analyzeLinks cfg doc baseURL = Returns result ->
  Internal result
  = Z.of_nat (List.length (filter (resolvesInternal ParseRef baseURL) (links doc)))
  /\ External result
     = Z.of_nat (List.length (filter (resolvesExternal ParseRef baseURL) (links doc)))
  /\ (Internal result + External result)%Z
     = Z.of_nat (List.length (filter (resolves ParseRef baseURL) (links doc))).
Proof.
  intros H. apply analyzeLinks_returns_inv in H. destruct H as (_ & _ & ->).
  simpl Internal. simpl External.
  unfold Links.collectLinks.
  match goal with
  | |- context [fold_left _ ?l ?st] =>
      destruct (collect_counts baseURL l st) as (HI & HE & _)
  end.
  cbv zeta in HI, HE. rewrite HI, HE. simpl.
  pose proof (resolves_split baseURL (links doc)). repeat split; lia.
Qed.

End WithNetwork.

#[local] Abbreviation analyzeSample :=
  (analyzeLinks asciiOnlyLower resolveSample headSample chanCapSample).

(** The sample page under a budget of three: both external links and the
    first internal one are probed, two of the three are inaccessible. *)
Lemma analyzeLinks_sample :
  analyzeSample (configSample 3) linkPage exampleCom
  = Returns {| Internal := 2; External := 2; Inaccessible := 2 |}.
Proof. vm_compute. reflexivity. Qed.

Lemma admission_follows_policy_witness :
  map snd (admitted asciiOnlyLower resolveSample (configSample 3) linkPage exampleCom)
  = [ externalRequest "http://up.test/"; externalRequest "http://down.test/";
      internalRequest "http://example.com/internal1" ]
  /\ (forall n,
        poolReturns headSample (configSample 3)
          (admitted asciiOnlyLower resolveSample (configSample 3) linkPage exampleCom) n ->
        n = 2%Z).
Proof.
  destruct (admission_follows_policy asciiOnlyLower resolveSample headSample chanCapSample
              (configSample 3) linkPage exampleCom _ analyzeLinks_sample)
    as (Hsent & _ & Hruns & _).
  split; [exact Hsent | exact Hruns].
Defined.

Lemma inaccessible_bounds_witness :
  (0 <= 2)%Z
  /\ (2 <= Z.of_nat (List.length
                       (admitted asciiOnlyLower resolveSample (configSample 3)
                          linkPage exampleCom)))%Z
  /\ (Z.of_nat (List.length
                  (admitted asciiOnlyLower resolveSample (configSample 3)
                     linkPage exampleCom)) <= 3)%Z.
Proof.
  exact (inaccessible_bounds asciiOnlyLower resolveSample headSample chanCapSample
           (configSample 3) linkPage exampleCom _ analyzeLinks_sample).
Defined.

Lemma link_counts_witness :
  2%Z = Z.of_nat (List.length (filter (resolvesInternal resolveSample exampleCom)
                                 (Find asciiOnlyLower linkSelector linkPage)))
  /\ 2%Z = Z.of_nat (List.length (filter (resolvesExternal resolveSample exampleCom)
                                    (Find asciiOnlyLower linkSelector linkPage)))
  /\ (2 + 2)%Z = Z.of_nat (List.length (filter (resolves resolveSample exampleCom)
                                          (Find asciiOnlyLower linkSelector linkPage))).
Proof.
  exact (link_counts asciiOnlyLower resolveSample headSample chanCapSample
           (configSample 3) linkPage exampleCom _ analyzeLinks_sample).
Defined.

End LinksProps.

(** ** The fetcher and the orchestrator *)

Module AnalyzerProps.
Import GoStrings Dom Constants Go Links Analyzer Samples.

Section WithCollaborators.

Variables unicodeUpper unicodeLower : string -> string.
Variable cssFind : string -> Node -> Selection.
Variable ParseRef : URL -> string -> option URL.
Variable head : task -> option Z.
Variable maxChanCap : Z.
Variable urlParse : string -> result URL.
Variable httpGet : string -> getResult.
Variable newDocument : string -> result Node.
Variable cacheGet : string -> option AnalyzeResponse * option error.
Variable cacheSet : string -> AnalyzeResponse -> option error.
Variable now : Z.
Variable order : list (string * string).
Variable config : AnalyzerConfig.

#[local] Abbreviation fetchWebpage := (fetchWebpage httpGet).
#[local] Abbreviation parseAndValidateURL := (parseAndValidateURL urlParse).
#[local] Abbreviation parseHTML := (parseHTML newDocument).
#[local] Abbreviation Analyze :=
  (Analyze unicodeUpper unicodeLower cssFind ParseRef head maxChanCap urlParse httpGet
     newDocument cacheGet cacheSet now order config).

(** C8, as the code has it.  Given the response to the GET, the fetch
    succeeds exactly when the status is 200 and the body can be read to its
    end, and it then returns the text of the body; with any other status it
    fails with an error that carries the status code. *)
Theorem fetchWebpage_result targetURL StatusCode Body :
  httpGet targetURL = Response StatusCode Body ->
  ((exists content, fetchWebpage targetURL = Ok content)
   <-> StatusCode = StatusOK /\ exists content, Body = BodyBytes content)
  /\ (forall content, fetchWebpage targetURL = Ok content -> Body = BodyBytes content)
  /\ (StatusCode <> StatusOK ->
      fetchWebpage targetURL = Err ("webpage returned status code " ++ showInt StatusCode)).
Proof.
  intros Hget. unfold Analyzer.fetchWebpage. rewrite Hget.
  destruct (Z.eqb_spec StatusCode StatusOK) as [->|Hne]; simpl.
  - split; [|split].
    + split.
      * intros [content H]. split; [reflexivity|].
        destruct Body; [exists bodyBytes; reflexivity | discriminate].
      * intros [_ [content ->]]. exists content. reflexivity.
    + intros content H. destruct Body; [injection H as ->; reflexivity | discriminate].
    + intros H. exfalso. apply H. reflexivity.
  - split; [|split].
    + split.
      * intros [content H]. discriminate.
      * intros [H _]. exfalso. apply Hne. exact H.
    + intros content H. discriminate.
    + intros _. reflexivity.
Qed.

(** The return statements of [Analyze] that carry an error: the URL does
    not validate, the fetch fails, or [parseHTML] fails on the fetched text;
    what the cache answers and what the probes find has no part in it. *)
Lemma Analyze_error_paths targetURL err :
  snd (Analyze targetURL) = Returns (Err err) ->
  parseAndValidateURL targetURL = Err err
  \/ fetchWebpage targetURL = Err err
  \/ exists htmlContent,
       fetchWebpage targetURL = Ok htmlContent /\ parseHTML htmlContent = Err err.
Proof.
  unfold Analyzer.Analyze. intros H.
  destruct (cacheGet targetURL) as [cached getErr].
  destruct (parseAndValidateURL targetURL) as [parsedURL|e1] eqn:Evalid;
    [destruct (fetchWebpage targetURL) as [htmlContent|e2] eqn:Efetch;
       [destruct (parseHTML htmlContent) as [doc|e3] eqn:Eparse|]|].
  - exfalso.
    destruct (performWebpageAnalysis _ _ _ _ _ _ _ _ _ _ _ _ _) as [result| |];
      [destruct (cacheSet targetURL result)| |];
      destruct getErr, cached; simpl in H; discriminate H.
  - right. right. exists htmlContent. split; [reflexivity|].
    destruct getErr, cached; simpl in H; try discriminate H;
      injection H as ->; exact Eparse.
  - right. left.
    destruct getErr, cached; simpl in H; try discriminate H;
      injection H as ->; reflexivity.
  - left.
    destruct getErr, cached; simpl in H; try discriminate H;
      injection H as ->; reflexivity.
Qed.

(** Past validation, fetch and parse nothing stops the call: with a budget
    the platform has channels for and one worker at least, [Analyze] returns
    a result, whatever the cache and the probes do. *)
Lemma Analyze_best_effort targetURL parsedURL htmlContent doc :
  parseAndValidateURL targetURL = Ok parsedURL ->
  fetchWebpage targetURL = Ok htmlContent ->
  parseHTML htmlContent = Ok doc ->
  (0 <= MaxLinks config <= maxChanCap)%Z -> (1 <= MaxWorkers config)%Z ->
  exists result, snd (Analyze targetURL) = Returns (Ok result).
Proof.
  intros Hvalid Hfetch Hparse HB HW. unfold Analyzer.Analyze.
  rewrite Hvalid, Hfetch, Hparse. unfold performWebpageAnalysis.
  destruct (LinksProps.analyzeLinks_returns unicodeLower ParseRef head maxChanCap
              config doc parsedURL HB HW) as [links [Hlinks _]].
  rewrite Hlinks.
  destruct (cacheGet targetURL) as [cached getErr].
  destruct getErr, cached; simpl;
    try (eexists; reflexivity);
    match goal with
    | |- context [cacheSet ?u ?r] => destruct (cacheSet u r); simpl; eexists; reflexivity
    end.
Qed.

(** C9.  [Analyze] has two failure paths.  [parseHTML] hands the fetched
    text to [goquery.NewDocumentFromReader] over a [strings.Reader]; the
    parser of HTML takes any text and reports the errors of its reader only,
    of which a reader over a text in memory has none: [newDocument] answers
    every text with a document.  Then an error that [Analyze] returns is the
    error of the URL validation or the error of the fetch, whatever the
    cache answers on the read and on the write and whatever the probes of
    the links find. *)
Theorem Analyze_error_paths_total_parser targetURL err :
  (forall htmlContent, exists doc, newDocument htmlContent = Ok doc) ->
  snd (Analyze targetURL) = Returns (Err err) ->
  parseAndValidateURL targetURL = Err err \/ fetchWebpage targetURL = Err err.
Proof.
  intros Htotal H. apply Analyze_error_paths in H.
  destruct H as [H|[H|[htmlContent [_ H]]]]; [left; exact H | right; exact H |].
  unfold Analyzer.parseHTML in H.
  destruct (Htotal htmlContent) as [doc Hdoc]. rewrite Hdoc in H. discriminate.
Qed.

End WithCollaborators.

(** C8, as the claim has it, fails: the status is 200 and the fetch fails,
    because the body breaks off. *)
Lemma fetchWebpage_status_200_fails :
  getTruncated "http://example.com" = Response StatusOK (BodyFails "unexpected EOF")
  /\ fetchWebpage getTruncated "http://example.com"
     = Err "failed to read response body: unexpected EOF"
  /\ ~ ((exists content, fetchWebpage getTruncated "http://example.com" = Ok content)
        <-> 200%Z = StatusOK).
Proof.
  split; [reflexivity|]. split; [reflexivity|].
  intros [_ H]. destruct (H eq_refl) as [content Hc]. discriminate Hc.
Qed.

Lemma fetchWebpage_result_witness :
  ((exists content, fetchWebpage getPage "http://example.com" = Ok content)
   <-> 200%Z = StatusOK
       /\ exists content, BodyBytes "<!DOCTYPE html><html></html>" = BodyBytes content)
  /\ (forall content,
        fetchWebpage getPage "http://example.com" = Ok content ->
        BodyBytes "<!DOCTYPE html><html></html>" = BodyBytes content)
  /\ (200%Z <> StatusOK ->
      fetchWebpage getPage "http://example.com"
      = Err ("webpage returned status code " ++ showInt 200)).
Proof.
  apply (fetchWebpage_result getPage "http://example.com" 200
           (BodyBytes "<!DOCTYPE html><html></html>")).
  reflexivity.
Defined.

(** The error of a status other than 200 spells the code out. *)
Lemma fetchWebpage_not_found :
  fetchWebpage (fun _ => Response 404 (BodyBytes "gone")) "http://example.com"
  = Err "webpage returned status code 404".
Proof. reflexivity. Qed.

#[local] Abbreviation analyzeWith newDocument cacheGet cacheSet :=
  (Analyze asciiOnlyLower asciiOnlyLower Scorer.noMatch resolveSample headSample chanCapSample
     urlParseSample getPage newDocument cacheGet cacheSet 0%Z Classifier.declaredOrder
     (configSample 3)).

(** The third return statement, for the record: were the parser to fail,
    the URL validating and the fetch succeeding, [Analyze] would return the
    error of the parser. *)
Lemma Analyze_parse_error :
  parseAndValidateURL urlParseSample "http://example.com" = Ok exampleCom
  /\ fetchWebpage getPage "http://example.com" = Ok "<!DOCTYPE html><html></html>"
  /\ snd (analyzeWith parserFails cacheMiss cacheSetOk "http://example.com")
     = Returns (Err "failed to parse HTML: read error")
  /\ ~ (parseAndValidateURL urlParseSample "http://example.com"
        = Err "failed to parse HTML: read error"
        \/ fetchWebpage getPage "http://example.com"
           = Err "failed to parse HTML: read error").
Proof.
  repeat split; try reflexivity. intros [H|H]; discriminate H.
Qed.

Lemma Analyze_error_paths_witness :
  parseAndValidateURL urlParseSample "http://example.com"
  = Err "failed to parse HTML: read error"
  \/ fetchWebpage getPage "http://example.com" = Err "failed to parse HTML: read error"
  \/ exists htmlContent,
       fetchWebpage getPage "http://example.com" = Ok htmlContent
       /\ parseHTML parserFails htmlContent = Err "failed to parse HTML: read error".
Proof.
  apply (Analyze_error_paths asciiOnlyLower asciiOnlyLower Scorer.noMatch resolveSample
           headSample chanCapSample urlParseSample getPage parserFails cacheMiss cacheSetOk
           0%Z Classifier.declaredOrder (configSample 3) "http://example.com").
  reflexivity.
Defined.

(** The page is not there, the cache is down: the error is the one of the
    fetch. *)
Lemma Analyze_error_paths_total_parser_witness :
  parseAndValidateURL urlParseSample "http://example.com"
  = Err "webpage returned status code 404"
  \/ fetchWebpage MoreSamples.getNotFound "http://example.com"
     = Err "webpage returned status code 404".
Proof.
  apply (Analyze_error_paths_total_parser asciiOnlyLower asciiOnlyLower Scorer.noMatch
           resolveSample headSample chanCapSample urlParseSample MoreSamples.getNotFound
           parserSample cacheDown cacheSetDown 0%Z Classifier.declaredOrder (configSample 3)
           "http://example.com").
  - intros htmlContent. exists linkPage. reflexivity.
  - reflexivity.
Defined.

(** A cache that fails on both calls, and probes that fail, leave their mark
    in the log and in the inaccessible count only. *)
Lemma Analyze_cache_down :
  analyzeWith parserSample cacheDown cacheSetDown "http://example.com"
  = (["Failed to get from cache"; "Failed to cache result"],
     Returns (Ok {| URL_ := "http://example.com";
                    HTMLVersion := "HTML5";
                    Title := EmptyString;
                    Headings := [("h1", 0); ("h2", 0); ("h3", 0);
                                 ("h4", 0); ("h5", 0); ("h6", 0)]%Z;
                    Links_ := {| Internal := 2; External := 2; Inaccessible := 2 |};
                    HasLoginForm := false;
                    AnalyzedAt := 0 |})).
Proof. vm_compute. reflexivity. Qed.

End AnalyzerProps.

(** * Further properties of the code *)

(** ** The version classifier *)

Module ClassifierMore.
Import GoStrings Constants Classifier ClassifierProps Notions.

Lemma detectHTMLVersion_labels_witness :
  In (detectHTMLVersion asciiOnly rotatedOrder "<!DOCTYPE html SYSTEM 'about:legacy-compat'>")
     enumeratedLabels
  \/ detectHTMLVersion asciiOnly rotatedOrder "<!DOCTYPE html SYSTEM 'about:legacy-compat'>"
     = HTMLVersionUnknown.
Proof.
  apply (detectHTMLVersion_labels asciiOnly rotatedOrder
           "<!DOCTYPE html SYSTEM 'about:legacy-compat'>").
  apply rotatedOrder_rangeOrder.
Defined.

Lemma trimLeft_blanks ws s : blanks ws = true -> trimLeft (ws ++ s) = trimLeft s.
Proof.
  induction ws as [|c ws IH]; intros H; [reflexivity|].
  simpl in H. apply andb_prop in H. destruct H as [Hc Hws].
  change (String c ws ++ s) with (String c (ws ++ s)).
  change (trimLeft (String c (ws ++ s)))
    with (if isAsciiSpace c then trimLeft (ws ++ s)
          else match ws ++ s with
               | EmptyString => String c (ws ++ s)
               | String b t2 =>
                   if isSpace2 c b then trimLeft t2
                   else match t2 with
                        | EmptyString => String c (ws ++ s)
                        | String d t3 =>
                            if isSpace3 c b d then trimLeft t3 else String c (ws ++ s)
                        end
               end).
  rewrite Hc. apply IH. exact Hws.
Qed.

(** Blank characters in front of the text (space, tab, line ends) do not
    change the label: they are trimmed before the doctype is looked for. *)
Theorem detectHTMLVersion_leading_blanks unicodeUpper order ws htmlContent :
  blanks ws = true ->
  detectHTMLVersion unicodeUpper order (ws ++ htmlContent)
  = detectHTMLVersion unicodeUpper order htmlContent.
Proof.
  intros H. unfold detectHTMLVersion, extractDOCTYPE, TrimSpace.
  rewrite (trimLeft_blanks ws htmlContent H). reflexivity.
Qed.

Lemma detectHTMLVersion_leading_blanks_witness :
  detectHTMLVersion asciiOnly declaredOrder
    (String (byte 10) (String (byte 9) " <!DOCTYPE html><html></html>"))
  = detectHTMLVersion asciiOnly declaredOrder "<!DOCTYPE html><html></html>".
Proof.
  apply (detectHTMLVersion_leading_blanks asciiOnly declaredOrder
           (String (byte 10) (String (byte 9) " ")) "<!DOCTYPE html><html></html>").
  reflexivity.
Defined.

Lemma check_nonEmpty doctype keyword b s t f :
  Contains doctype keyword = true -> nonEmpty b = true ->
  nonEmpty (checkHTMLVersionWithVariants doctype keyword b s t f) = true.
Proof.
  intros Hk Hb. unfold checkHTMLVersionWithVariants. rewrite Hk. simpl.
  destruct (nonEmpty s) eqn:Es; simpl;
    [destruct (Contains doctype DOCTYPEKeywordStrict); [exact Es|]|];
  (destruct (nonEmpty t) eqn:Et; simpl;
    [destruct (Contains doctype DOCTYPEKeywordTransitional); [exact Et|]|]);
  (destruct (nonEmpty f) eqn:Ef; simpl;
    [destruct (Contains doctype DOCTYPEKeywordFrameset); [exact Ef|]|]);
  exact Hb.
Qed.

(** A doctype of one of the three families (XHTML 1.1, XHTML 1.0, HTML 4.01)
    is labelled before the range over the map is reached: its label is the
    same under every order of the range.  So a doctype of HTML 4.01, which
    holds the keyword of HTML 4.0 too, is never labelled HTML 4.0. *)
Theorem detectHTMLVersion_family_first unicodeUpper order1 order2 htmlContent :
  Contains (extractDOCTYPE unicodeUpper htmlContent) DOCTYPEKeywordXHTML11
  || Contains (extractDOCTYPE unicodeUpper htmlContent) DOCTYPEKeywordXHTML10
  || Contains (extractDOCTYPE unicodeUpper htmlContent) DOCTYPEKeywordHTML401 = true ->
  detectHTMLVersion unicodeUpper order1 htmlContent
  = detectHTMLVersion unicodeUpper order2 htmlContent
  /\ detectHTMLVersion unicodeUpper order1 htmlContent <> HTMLVersionHTML40.
Proof.
  intros H. unfold detectHTMLVersion.
  set (doctype := extractDOCTYPE unicodeUpper htmlContent) in *. cbv zeta.
  destruct (String.eqb doctype EmptyString); [split; [reflexivity | discriminate]|].
  destruct (matchHTML5DOCTYPE doctype); [split; [reflexivity | discriminate]|].
  destruct (Contains doctype DOCTYPEKeywordXHTML11) eqn:E11.
  { rewrite (check_nonEmpty doctype DOCTYPEKeywordXHTML11 HTMLVersionXHTML11
               EmptyString EmptyString EmptyString E11 eq_refl).
    split; [reflexivity|].
    unfold checkHTMLVersionWithVariants. rewrite E11. simpl. discriminate. }
  destruct (nonEmpty (checkHTMLVersionWithVariants doctype DOCTYPEKeywordXHTML11 _ _ _ _));
    [split; [reflexivity|];
     unfold checkHTMLVersionWithVariants; rewrite E11; simpl; discriminate|].
  destruct (Contains doctype DOCTYPEKeywordXHTML10) eqn:E10.
  { rewrite (check_nonEmpty doctype DOCTYPEKeywordXHTML10 HTMLVersionXHTML10
               HTMLVersionXHTML10Strict HTMLVersionXHTML10Transitional
               HTMLVersionXHTML10Frameset E10 eq_refl).
    split; [reflexivity|].
    unfold checkHTMLVersionWithVariants. rewrite E10. simpl.
    destruct (Contains doctype DOCTYPEKeywordStrict); [discriminate|].
    destruct (Contains doctype DOCTYPEKeywordTransitional); [discriminate|].
    destruct (Contains doctype DOCTYPEKeywordFrameset); discriminate. }
  destruct (nonEmpty (checkHTMLVersionWithVariants doctype DOCTYPEKeywordXHTML10 _ _ _ _));
    [split; [reflexivity|];
     unfold checkHTMLVersionWithVariants; rewrite E10; simpl; discriminate|].
  simpl in H.
  rewrite (check_nonEmpty doctype DOCTYPEKeywordHTML401 HTMLVersionHTML401
             HTMLVersionHTML401Strict HTMLVersionHTML401Transitional
             HTMLVersionHTML401Frameset H eq_refl).
  split; [reflexivity|].
  unfold checkHTMLVersionWithVariants. rewrite H. simpl.
  destruct (Contains doctype DOCTYPEKeywordStrict); [discriminate|].
  destruct (Contains doctype DOCTYPEKeywordTransitional); [discriminate|].
  destruct (Contains doctype DOCTYPEKeywordFrameset); discriminate.
Qed.

Lemma detectHTMLVersion_family_first_witness :
  detectHTMLVersion asciiOnly declaredOrder
    "<!DOCTYPE HTML PUBLIC '-//W3C//DTD HTML 4.01//EN' 'http://www.w3.org/TR/html4/strict.dtd'>"
  = detectHTMLVersion asciiOnly rotatedOrder
      "<!DOCTYPE HTML PUBLIC '-//W3C//DTD HTML 4.01//EN' 'http://www.w3.org/TR/html4/strict.dtd'>"
  /\ detectHTMLVersion asciiOnly declaredOrder
       "<!DOCTYPE HTML PUBLIC '-//W3C//DTD HTML 4.01//EN' 'http://www.w3.org/TR/html4/strict.dtd'>"
     <> HTMLVersionHTML40.
Proof.
  apply (detectHTMLVersion_family_first asciiOnly declaredOrder rotatedOrder).
  reflexivity.
Defined.

(** A doctype that holds one at most of the keywords HTML 4.0, HTML 3.2 and
    HTML 2.0 gets the same label under every order of the range: the order
    of the map matters only when two of them occur. *)
Theorem detectHTMLVersion_one_keyword unicodeUpper order1 order2 htmlContent keyword :
  rangeOrder order1 -> rangeOrder order2 ->
  (forall k v, In (k, v) simpleVersions ->
               Contains (extractDOCTYPE unicodeUpper htmlContent) k = true -> k = keyword) ->
  detectHTMLVersion unicodeUpper order1 htmlContent
  = detectHTMLVersion unicodeUpper order2 htmlContent.
Proof.
  intros H1 H2 Huniq. unfold detectHTMLVersion. cbv zeta.
  rewrite (range_order_irrelevant order1 order2 _ keyword H1 H2 Huniq). reflexivity.
Qed.

Lemma detectHTMLVersion_one_keyword_witness :
  detectHTMLVersion asciiOnly declaredOrder
    "<!DOCTYPE HTML PUBLIC '-//W3C//DTD HTML 3.2 Final//EN'>"
  = detectHTMLVersion asciiOnly rotatedOrder
      "<!DOCTYPE HTML PUBLIC '-//W3C//DTD HTML 3.2 Final//EN'>".
Proof.
  apply (detectHTMLVersion_one_keyword asciiOnly declaredOrder rotatedOrder
           "<!DOCTYPE HTML PUBLIC '-//W3C//DTD HTML 3.2 Final//EN'>" DOCTYPEKeywordHTML32).
  - apply Permutation_refl.
  - apply rotatedOrder_rangeOrder.
  - intros k v Hin Hc. simpl in Hin.
    destruct Hin as [H|[H|[H|[]]]]; injection H as <- _;
      [vm_compute in Hc; discriminate Hc | reflexivity | vm_compute in Hc; discriminate Hc].
Defined.

End ClassifierMore.

(** ** The link extractor and the prober *)

Module LinksMore.
Import GoStrings Dom Constants Go Links Samples MoreSamples Setup Notions LinksProps.

Section WithNetwork.

Variable unicodeLower : string -> string.
Variable ParseRef : URL -> string -> option URL.
Variable head : task -> option Z.
Variable maxChanCap : Z.

#[local] Abbreviation collectLinks := (collectLinks unicodeLower ParseRef).
#[local] Abbreviation countInaccessible := (countInaccessible head).
#[local] Abbreviation step := (step head).
#[local] Abbreviation steps := (steps head).
#[local] Abbreviation poolReturns := (poolReturns head).
#[local] Abbreviation analyzeLinks := (analyzeLinks unicodeLower ParseRef head maxChanCap).
#[local] Abbreviation admitted := (admitted unicodeLower ParseRef).
#[local] Abbreviation links := (Find unicodeLower linkSelector).
#[local] Abbreviation internalTargets := (internalTargets ParseRef).
#[local] Abbreviation externalTargets := (externalTargets ParseRef).

Lemma collect_lists baseURL l st :
  let st' := fold_left (collectStep ParseRef baseURL) l st in
  internalLinks st' = (internalLinks st ++ internalTargets baseURL l)%list
  /\ externalLinks st' = (externalLinks st ++ externalTargets baseURL l)%list.
Proof.
  revert st. induction l as [|s l IH]; intros st; simpl.
  - rewrite !app_nil_r. split; reflexivity.
  - destruct (IH (collectStep ParseRef baseURL st s)) as (HI & HE).
    rewrite HI, HE. clear IH HI HE.
    unfold collectStep, resolved.
    destruct (Attr s "href") as [href|]; [|split; reflexivity].
    destruct (ParseRef baseURL href) as [linkURL|]; [|split; reflexivity].
    destruct (String.eqb (Host linkURL) (Host baseURL)); simpl;
      rewrite <- ?app_assoc; split; reflexivity.
Qed.

Lemma internalTargets_length baseURL l :
  List.length (internalTargets baseURL l)
  = List.length (filter (resolvesInternal ParseRef baseURL) l).
Proof.
  induction l as [|s l IH]; simpl; [reflexivity|].
  rewrite length_app, IH. unfold resolvesInternal.
  destruct (resolved ParseRef baseURL s) as [linkURL|]; [|reflexivity].
  destruct (String.eqb (Host linkURL) (Host baseURL)); reflexivity.
Qed.

Lemma externalTargets_length baseURL l :
  List.length (externalTargets baseURL l)
  = List.length (filter (resolvesExternal ParseRef baseURL) l).
Proof.
  induction l as [|s l IH]; simpl; [reflexivity|].
  rewrite length_app, IH. unfold resolvesExternal.
  destruct (resolved ParseRef baseURL s) as [linkURL|]; [|reflexivity].
  destruct (String.eqb (Host linkURL) (Host baseURL)); reflexivity.
Qed.

Lemma collectLinks_targets doc baseURL :
  internalLinks (collectLinks doc baseURL) = internalTargets baseURL (links doc)
  /\ externalLinks (collectLinks doc baseURL) = externalTargets baseURL (links doc).
Proof.
  unfold Links.collectLinks.
  match goal with
  | |- context [fold_left _ ?l ?st] => destruct (collect_lists baseURL l st) as (HI & HE)
  end.
  cbv zeta in HI, HE. rewrite HI, HE. split; reflexivity.
Qed.

Lemma collectLinks_lengths doc baseURL :
  Internal (analysis (collectLinks doc baseURL))
  = Z.of_nat (List.length (internalLinks (collectLinks doc baseURL)))
  /\ External (analysis (collectLinks doc baseURL))
     = Z.of_nat (List.length (externalLinks (collectLinks doc baseURL))).
Proof.
  destruct (collectLinks_targets doc baseURL) as (HI & HE). rewrite HI, HE.
  unfold Links.collectLinks.
  match goal with
  | |- context [fold_left _ ?l ?st] =>
      destruct (collect_counts ParseRef baseURL l st) as (CI & CE & _)
  end.
  cbv zeta in CI, CE. rewrite CI, CE. simpl.
  rewrite internalTargets_length, externalTargets_length. split; reflexivity.
Qed.

(** The two lists the extractor builds hold the resolved targets in the
    order of the anchors in the document, and the two counters are their
    lengths. *)
Theorem links_in_document_order doc baseURL :
  internalLinks (collectLinks doc baseURL) = internalTargets baseURL (links doc)
  /\ externalLinks (collectLinks doc baseURL) = externalTargets baseURL (links doc)
  /\ Internal (analysis (collectLinks doc baseURL))
     = Z.of_nat (List.length (internalTargets baseURL (links doc)))
  /\ External (analysis (collectLinks doc baseURL))
     = Z.of_nat (List.length (externalTargets baseURL (links doc))).
Proof.
  destruct (collectLinks_targets doc baseURL) as (HI & HE).
  destruct (collectLinks_lengths doc baseURL) as (CI & CE).
  rewrite CI, CE, HI, HE. repeat split.
Qed.

Lemma policy_length_min B c :
  (0 <= B)%Z ->
  Z.of_nat (List.length (policy B c))
  = Z.min B (Z.of_nat (List.length (externalLinks c))
             + Z.of_nat (List.length (internalLinks c))).
Proof.
  intros HB. unfold policy, admittedInternal, admittedExternal.
  rewrite length_app, !length_map, !length_firstn. lia.
Qed.

(** When [analyzeLinks] returns, the number of probed links is the budget
    or the number of resolved links, whichever is smaller; so the
    inaccessible count is never above internal plus external. *)
Theorem probed_count cfg doc baseURL result :
  analyzeLinks cfg doc baseURL = Returns result ->
  Z.of_nat (List.length (admitted cfg doc baseURL))
  = Z.min (MaxLinks cfg) (Internal result + External result)
  /\ (Inaccessible result <= Internal result + External result)%Z.
Proof.
  intros H. apply analyzeLinks_returns_inv in H. destruct H as ([HB _] & Hadm & ->).
  simpl Internal. simpl External. simpl Inaccessible.
  destruct (collectLinks_lengths doc baseURL) as (HI & HE).
  pose proof (countInaccessible_bounds head (admitted cfg doc baseURL)) as Hc.
  assert (Hlen : Z.of_nat (List.length (admitted cfg doc baseURL))
                 = Z.min (MaxLinks cfg)
                     (Internal (analysis (collectLinks doc baseURL))
                      + External (analysis (collectLinks doc baseURL)))).
  { rewrite Hadm, number_length, (policy_length_min _ _ HB), HI, HE. lia. }
  split; [exact Hlen | lia].
Qed.

(** External links have priority: when there are as many of them as the
    budget allows, or more, the budget is spent on them and no internal link
    is probed. *)
Theorem external_links_first cfg doc baseURL result :
  analyzeLinks cfg doc baseURL = Returns result ->
  (MaxLinks cfg <= External result)%Z ->
  map snd (admitted cfg doc baseURL)
  = map externalRequest
        (firstn (Z.to_nat (MaxLinks cfg)) (externalTargets baseURL (links doc)))
  /\ Forall (fun t => isInternal (snd t) = false) (admitted cfg doc baseURL).
Proof.
  intros H Hext. apply analyzeLinks_returns_inv in H. destruct H as ([HB _] & Hadm & ->).
  simpl External in Hext.
  destruct (collectLinks_targets doc baseURL) as (_ & HE).
  destruct (collectLinks_lengths doc baseURL) as (_ & HEn).
  assert (Hpol : policy (MaxLinks cfg) (collectLinks doc baseURL)
                 = map externalRequest
                       (firstn (Z.to_nat (MaxLinks cfg))
                               (externalTargets baseURL (links doc)))).
  { unfold policy, admittedInternal, admittedExternal.
    rewrite length_firstn.
    replace (Z.to_nat (MaxLinks cfg
                       - Z.of_nat (Nat.min (Z.to_nat (MaxLinks cfg))
                                     (List.length (externalLinks (collectLinks doc baseURL))))))
      with 0%nat by lia.
    simpl. rewrite app_nil_r, HE. reflexivity. }
  split.
  - rewrite Hadm, number_snd. exact Hpol.
  - apply Forall_forall. intros t Hin.
    assert (Hs : In (snd t) (map snd (admitted cfg doc baseURL))) by (apply in_map; exact Hin).
    rewrite Hadm, number_snd, Hpol in Hs.
    apply in_map_iff in Hs. destruct Hs as [u [<- _]]. reflexivity.
Qed.

(** A budget that covers all resolved links leaves none out: every external
    and every internal link is probed, the external ones first. *)
Theorem budget_covers_all cfg doc baseURL result :
  analyzeLinks cfg doc baseURL = Returns result ->
  (Internal result + External result <= MaxLinks cfg)%Z ->
  map snd (admitted cfg doc baseURL)
  = (map externalRequest (externalTargets baseURL (links doc))
     ++ map internalRequest (internalTargets baseURL (links doc)))%list.
Proof.
  intros H Hall. apply analyzeLinks_returns_inv in H. destruct H as ([HB _] & Hadm & ->).
  simpl Internal in Hall. simpl External in Hall.
  destruct (collectLinks_targets doc baseURL) as (HI & HE).
  destruct (collectLinks_lengths doc baseURL) as (HIn & HEn).
  rewrite Hadm, number_snd. unfold policy, admittedInternal, admittedExternal.
  rewrite (firstn_all2 (externalLinks (collectLinks doc baseURL))) by lia.
  rewrite (firstn_all2 (internalLinks (collectLinks doc baseURL))) by lia.
  rewrite HI, HE. reflexivity.
Qed.

(** The inaccessible count does not depend on the scheduling: two runs of
    the pool on the same tasks, whatever the order in which the workers take
    the tasks and answer, end on the same count. *)
Theorem pool_schedule_independent cfg tasks n m :
  poolReturns cfg tasks n -> poolReturns cfg tasks m -> n = m.
Proof.
  intros Hn Hm.
  rewrite (pool_count head cfg tasks n Hn), (pool_count head cfg tasks m Hm). reflexivity.
Qed.

(** With one worker at least and the tasks within the capacity of the
    channels, the pool cannot deadlock and cannot run for ever: a state it
    reaches is the end or has a next step, and each step uses up one of at
    most four steps for each task. *)
Theorem pool_terminates cfg tasks p :
  (1 <= MaxWorkers cfg)%Z -> (Z.of_nat (List.length tasks) <= MaxLinks cfg)%Z ->
  steps cfg (startPool tasks) p ->
  (finished p \/ exists q, step cfg p q)
  /\ (forall q, step cfg p q -> (stepsLeft q < stepsLeft p)%nat)
  /\ (stepsLeft p <= 4 * List.length tasks)%nat.
Proof.
  intros HW Hcap Hsteps. split; [|split].
  - apply (pool_progress head cfg tasks p HW Hcap Hsteps).
  - intros q Hq. apply (step_stepsLeft head cfg p q Hq).
  - assert (K : forall a b, steps cfg a b -> (stepsLeft b <= stepsLeft a)%nat).
    { induction 1 as [|a b c Hstep _ IH]; [lia|].
      apply (step_stepsLeft head) in Hstep. lia. }
    apply K in Hsteps. unfold stepsLeft in Hsteps at 2. simpl in Hsteps. lia.
Qed.

(** Without a worker (a negative [MaxWorkers]) a page with a link that
    resolves makes [analyzeLinks] wait for ever: the task is queued and no
    run of the pool comes to its end. *)
Theorem no_worker_blocks cfg doc baseURL :
  (MaxWorkers cfg <= 0)%Z -> (1 <= MaxLinks cfg <= maxChanCap)%Z ->
  filter (resolves ParseRef baseURL) (links doc) <> [] ->
  analyzeLinks cfg doc baseURL = Blocks
  /\ forall n, ~ poolReturns cfg (admitted cfg doc baseURL) n.
Proof.
  intros HW [HB Hcap] Hlinks.
  assert (Hlen : (1 <= Z.of_nat (List.length (policy (MaxLinks cfg) (collectLinks doc baseURL))))%Z).
  { rewrite policy_length_min by lia.
    destruct (collectLinks_targets doc baseURL) as (HI & HE).
    rewrite HI, HE, internalTargets_length, externalTargets_length.
    pose proof (resolves_split ParseRef baseURL (links doc)) as Hsplit.
    destruct (filter (resolves ParseRef baseURL) (links doc)) as [|s l] eqn:E;
      [exfalso; apply Hlinks; reflexivity|].
    simpl in Hsplit. lia. }
  assert (Hblocks : analyzeLinks cfg doc baseURL = Blocks).
  { unfold Links.analyzeLinks.
    replace (MaxLinks cfg <? 0)%Z with false by (symmetry; apply Z.ltb_ge; lia).
    replace (maxChanCap <? MaxLinks cfg)%Z with false by (symmetry; apply Z.ltb_ge; lia).
    simpl. rewrite admitLinks_policy by lia.
    replace (MaxWorkers cfg <=? 0)%Z with true by (symmetry; apply Z.leb_le; lia).
    rewrite number_length.
    destruct (policy (MaxLinks cfg) (collectLinks doc baseURL)); [simpl in Hlen; lia|].
    reflexivity. }
  split; [exact Hblocks|].
  pose proof (analyzeLinks_pool unicodeLower ParseRef head maxChanCap cfg doc baseURL) as Hp.
  rewrite Hblocks in Hp. exact Hp.
Qed.

(** [NewAnalyzer] leaves no zero budget and no zero worker count, keeps what
    is not zero, and does nothing when applied again; a configuration
    without negative fields, put through it, makes [analyzeLinks] return on
    every page, provided the platform has channels for the budget. *)
Theorem NewAnalyzer_makes_analyzeLinks_return cfg LinkTimeout doc baseURL :
  (0 <= MaxLinks cfg)%Z -> (0 <= MaxWorkers cfg)%Z ->
  (Z.max DefaultMaxLinks (MaxLinks cfg) <= maxChanCap)%Z ->
  let cfg' := fst (NewAnalyzer cfg LinkTimeout) in
  (MaxLinks cfg' = if (MaxLinks cfg =? 0)%Z then 100%Z else MaxLinks cfg)
  /\ (MaxWorkers cfg' = if (MaxWorkers cfg =? 0)%Z then 20%Z else MaxWorkers cfg)
  /\ NewAnalyzer cfg' (snd (NewAnalyzer cfg LinkTimeout)) = NewAnalyzer cfg LinkTimeout
  /\ exists result, analyzeLinks cfg' doc baseURL = Returns result.
Proof.
  intros HB HW Hcap cfg'. unfold cfg', NewAnalyzer, DefaultMaxLinks, DefaultMaxWorkers,
    DefaultMaxRedirects, DefaultLinkTimeout in *. simpl.
  split; [reflexivity|]. split; [reflexivity|]. split.
  - destruct (Z.eqb_spec (MaxLinks cfg) 0), (Z.eqb_spec LinkTimeout 0),
      (Z.eqb_spec (MaxWorkers cfg) 0), (Z.eqb_spec (MaxRedirects cfg) 0); simpl;
      repeat match goal with
             | |- context [(?x =? 0)%Z] =>
                 let E := fresh in
                 destruct (Z.eqb_spec x 0) as [E|E]; [try (exfalso; lia); try rewrite E|]
             end; try reflexivity; try congruence.
  - match goal with
    | |- exists result, analyzeLinks ?c doc baseURL = Returns result =>
        destruct (analyzeLinks_returns unicodeLower ParseRef head maxChanCap c doc baseURL)
          as [result [Hres _]]
    end.
    + simpl. destruct (Z.eqb_spec (MaxLinks cfg) 0); lia.
    + simpl. destruct (Z.eqb_spec (MaxWorkers cfg) 0); lia.
    + exists result. exact Hres.
Qed.

End WithNetwork.

#[local] Abbreviation analyzeSample :=
  (analyzeLinks asciiOnlyLower resolveSample headSample chanCapSample).
#[local] Abbreviation admittedSample :=
  (admitted asciiOnlyLower resolveSample).

Lemma analyzeLinks_sample_tight :
  analyzeSample (configSample 2) linkPage exampleCom
  = Returns {| Internal := 2; External := 2; Inaccessible := 1 |}.
Proof. vm_compute. reflexivity. Qed.

Lemma analyzeLinks_sample_wide :
  analyzeSample (configSample 10) linkPage exampleCom
  = Returns {| Internal := 2; External := 2; Inaccessible := 3 |}.
Proof. vm_compute. reflexivity. Qed.

Lemma probed_count_witness :
  Z.of_nat (List.length (admittedSample (configSample 3) linkPage exampleCom))
  = Z.min 3 (2 + 2)
  /\ (2 <= 2 + 2)%Z.
Proof.
  exact (probed_count asciiOnlyLower resolveSample headSample chanCapSample
           (configSample 3) linkPage exampleCom _ analyzeLinks_sample).
Defined.

Lemma external_links_first_witness :
  map snd (admittedSample (configSample 2) linkPage exampleCom)
  = map externalRequest
        (firstn 2 (externalTargets resolveSample exampleCom
                     (Find asciiOnlyLower linkSelector linkPage)))
  /\ Forall (fun t => isInternal (snd t) = false)
            (admittedSample (configSample 2) linkPage exampleCom).
Proof.
  apply (external_links_first asciiOnlyLower resolveSample headSample chanCapSample
           (configSample 2) linkPage exampleCom _ analyzeLinks_sample_tight).
  simpl. lia.
Defined.

Lemma budget_covers_all_witness :
  map snd (admittedSample (configSample 10) linkPage exampleCom)
  = (map externalRequest
         (externalTargets resolveSample exampleCom (Find asciiOnlyLower linkSelector linkPage))
     ++ map internalRequest
          (internalTargets resolveSample exampleCom
             (Find asciiOnlyLower linkSelector linkPage)))%list.
Proof.
  apply (budget_covers_all asciiOnlyLower resolveSample headSample chanCapSample
           (configSample 10) linkPage exampleCom _ analyzeLinks_sample_wide).
  simpl. lia.
Defined.

(** Two workers, two tasks: the worker that took the second task answers
    first. *)
Lemma pool_run_out_of_order :
  poolReturns headSample (configSample 3) [taskUp; taskDown] 1.
Proof.
  exists {| unsent := []; linkChan := []; probing := []; resultChan := []; counted := 1 |}.
  split; [|split; [repeat split | reflexivity]].
  eapply steps_step; [apply step_send; simpl; lia|].
  eapply steps_step; [apply step_send; simpl; lia|].
  eapply steps_step; [apply step_take; simpl; lia|].
  eapply steps_step; [apply step_take; simpl; lia|].
  eapply steps_step;
    [apply (step_probed headSample (configSample 3) [] [] [] taskDown [taskUp] [] 0);
     simpl; lia|].
  eapply steps_step;
    [apply (step_probed headSample (configSample 3) [] [] [] taskUp []
              [checkLinkWithTimeout headSample taskDown] 0);
     simpl; lia|].
  eapply steps_step; [apply step_count|].
  eapply steps_step; [apply step_count|].
  apply steps_refl.
Defined.

Lemma pool_schedule_independent_witness :
  countInaccessible headSample [taskUp; taskDown] = 1%Z.
Proof.
  apply (pool_schedule_independent headSample (configSample 3) [taskUp; taskDown]).
  - apply pool_runs; simpl; lia.
  - exact pool_run_out_of_order.
Defined.

Lemma pool_terminates_witness :
  (finished (startPool [taskUp; taskDown])
   \/ exists q, step headSample (configSample 3) (startPool [taskUp; taskDown]) q)
  /\ (forall q, step headSample (configSample 3) (startPool [taskUp; taskDown]) q ->
                (stepsLeft q < stepsLeft (startPool [taskUp; taskDown]))%nat)
  /\ (stepsLeft (startPool [taskUp; taskDown]) <= 4 * 2)%nat.
Proof.
  apply (pool_terminates headSample (configSample 3) [taskUp; taskDown]).
  - simpl. lia.
  - simpl. lia.
  - apply steps_refl.
Defined.

Lemma no_worker_blocks_witness :
  analyzeSample configNoWorker linkPage exampleCom = Blocks
  /\ forall n, ~ poolReturns headSample configNoWorker
                   (admittedSample configNoWorker linkPage exampleCom) n.
Proof.
  apply (no_worker_blocks asciiOnlyLower resolveSample headSample chanCapSample
           configNoWorker linkPage exampleCom).
  - simpl. lia.
  - vm_compute. split; discriminate.
  - vm_compute. discriminate.
Defined.

Lemma NewAnalyzer_makes_analyzeLinks_return_witness :
  MaxLinks (fst (NewAnalyzer configZero 0)) = 100%Z
  /\ MaxWorkers (fst (NewAnalyzer configZero 0)) = 20%Z
  /\ NewAnalyzer (fst (NewAnalyzer configZero 0)) (snd (NewAnalyzer configZero 0))
     = NewAnalyzer configZero 0
  /\ exists result,
       analyzeSample (fst (NewAnalyzer configZero 0)) linkPage exampleCom = Returns result.
Proof.
  apply (NewAnalyzer_makes_analyzeLinks_return asciiOnlyLower resolveSample headSample
           chanCapSample configZero 0 linkPage exampleCom).
  - simpl. lia.
  - simpl. lia.
  - vm_compute. discriminate.
Defined.

End LinksMore.

(** ** The login-form scorer *)

Module ScorerMore.
Import GoStrings Dom Constants Scorer Samples ScorerProps.

Section WithLibrary.

Variable unicodeLower : string -> string.
Variable cssFind : string -> Node -> Selection.

#[local] Abbreviation formScore := (formScore unicodeLower cssFind).
#[local] Abbreviation bestFormScore := (bestFormScore unicodeLower cssFind).
#[local] Abbreviation pageSignals := (pageSignals unicodeLower).
#[local] Abbreviation loginScore := (loginScore unicodeLower cssFind).
#[local] Abbreviation detectLoginForm := (detectLoginForm unicodeLower cssFind).
#[local] Abbreviation forms := (Find unicodeLower [tag "form"]).

Lemma filter_length {A} (p : A -> bool) (l : list A) :
  (List.length (filter p l) <= List.length l)%nat.
Proof.
  induction l as [|x l IH]; simpl; [lia|]. destruct (p x); simpl; lia.
Qed.

(** The score of a form is never negative, and the six factors that count
    once bring 16 at most; only matching submit controls, two points each,
    can take it higher. *)
Theorem formScore_bounds form :
  (0 <= formScore form <= 16 + 2 * Length (submitControls unicodeLower form))%Z.
Proof.
  rewrite formScore_weigh. unfold weigh, points, Scorer.signalsOf.
  cbn [actionKeyword passwordField userField submitTexts rememberCheckbox
       forgotLink oauthControl].
  assert (H : (0 <= Length (filter (submitMatches unicodeLower)
                              (submitControls unicodeLower form))
               <= Length (submitControls unicodeLower form))%Z).
  { unfold Length.
    pose proof (filter_length (submitMatches unicodeLower)
                  (submitControls unicodeLower form)). lia. }
  repeat match goal with
         | |- context [if ?b then _ else _] => destruct b
         end; lia.
Qed.

Lemma fold_max_attained l score :
  fold_left Z.max l score = score \/ In (fold_left Z.max l score) l.
Proof.
  revert score. induction l as [|x l IH]; intros score; simpl; [left; reflexivity|].
  destruct (IH (Z.max score x)) as [H|H].
  - rewrite H. destruct (Z.max_spec score x) as [[_ E]|[_ E]]; rewrite E; auto.
  - right. right. exact H.
Qed.

(** Only the best form counts, and the page-level tags count on top: a
    login form is reported exactly when the tags alone, or one single form
    with the tags, reach the threshold.  The scores of two forms never add
    up. *)
Theorem detectLoginForm_iff doc :
  detectLoginForm doc = true
  <-> (DefaultLoginFormThreshold <= pageSignals doc)%Z
      \/ exists form, In form (forms doc)
                      /\ (DefaultLoginFormThreshold <= formScore form + pageSignals doc)%Z.
Proof.
  unfold Scorer.detectLoginForm. cbv zeta. rewrite Z.geb_le, loginScore_sum.
  rewrite bestFormScore_max. split.
  - intros H.
    destruct (fold_max_attained (map formScore (forms doc)) 0) as [E|E].
    + left. lia.
    + right. apply in_map_iff in E. destruct E as [form [Hscore Hin]].
      exists form. split; [exact Hin | lia].
  - intros [H|[form [Hin H]]].
    + pose proof (fold_max_ge (map formScore (forms doc)) 0). lia.
    + pose proof (fold_max_in (map formScore (forms doc)) 0 (formScore form)
                    (in_map formScore _ _ Hin)). lia.
Qed.

Lemma fold_max_perm l l' :
  Permutation l l' -> forall score, fold_left Z.max l score = fold_left Z.max l' score.
Proof.
  induction 1 as [|x l l' _ IH|x y l|l l' l'' _ IH1 _ IH2]; intros score; simpl.
  - reflexivity.
  - apply IH.
  - f_equal. lia.
  - rewrite IH1. apply IH2.
Qed.

(** The order in which the forms of a page are visited does not matter for
    the best score. *)
Theorem bestFormScore_any_order l l' score :
  Permutation l l' -> bestFormScore l score = bestFormScore l' score.
Proof.
  intros H. rewrite !bestFormScore_max. apply fold_max_perm.
  apply Permutation_map. exact H.
Qed.

End WithLibrary.

Lemma bestFormScore_any_order_witness :
  bestFormScore asciiOnly noMatch [plainForm; loginForm] 0
  = bestFormScore asciiOnly noMatch [loginForm; plainForm] 0.
Proof.
  apply (bestFormScore_any_order asciiOnly noMatch [plainForm; loginForm]
           [loginForm; plainForm] 0).
  apply perm_swap.
Defined.

End ScorerMore.

(** ** The structural extractor, the validator and the orchestrator *)

Module AnalyzerMore.
Import GoStrings Dom Constants Go Links Analyzer Samples MoreSamples Notions.

Section WithCollaborators.

Variables unicodeUpper unicodeLower : string -> string.
Variable cssFind : string -> Node -> Selection.
Variable ParseRef : URL -> string -> option URL.
Variable head : task -> option Z.
Variable maxChanCap : Z.
Variable urlParse : string -> result URL.
Variable httpGet : string -> getResult.
Variable newDocument : string -> result Node.
Variable now : Z.
Variable order : list (string * string).
Variable config : AnalyzerConfig.

#[local] Abbreviation fetchWebpage := (fetchWebpage httpGet).
#[local] Abbreviation parseAndValidateURL := (parseAndValidateURL urlParse).
#[local] Abbreviation parseHTML := (parseHTML newDocument).
#[local] Abbreviation countHeadings := (countHeadings unicodeLower).
#[local] Abbreviation AnalyzeWith cacheGet cacheSet :=
  (Analyze unicodeUpper unicodeLower cssFind ParseRef head maxChanCap urlParse httpGet
     newDocument cacheGet cacheSet now order config).

(** *** Headings *)

Lemma countHeadings_unfold doc :
  countHeadings doc
  = map (fun selector => (selector, Length (Find unicodeLower [tag selector] doc)))
        ["h1"; "h2"; "h3"; "h4"; "h5"; "h6"].
Proof. reflexivity. Qed.

Lemma heading_split (l : list Node) :
  (List.length (filter (matches unicodeLower [tag "h1"]) l)
   + List.length (filter (matches unicodeLower [tag "h2"]) l)
   + List.length (filter (matches unicodeLower [tag "h3"]) l)
   + List.length (filter (matches unicodeLower [tag "h4"]) l)
   + List.length (filter (matches unicodeLower [tag "h5"]) l)
   + List.length (filter (matches unicodeLower [tag "h6"]) l)
   = List.length (filter headingElement l))%nat.
Proof.
  induction l as [|n l IH]; [reflexivity|].
  cbn [filter]. unfold matches, matchCompound, headingElement in *.
  cbn [existsb tag selTag selAttrs forallb] in *.
  destruct (NodeType_eqb (Type_ n) ElementNode); cbn [andb orb]; [|exact IH].
  destruct (String.eqb_spec (Data n) "h1") as [E|_];
    [rewrite ?E; cbn -[filter]; cbn [List.length]; lia|].
  destruct (String.eqb_spec (Data n) "h2") as [E|_];
    [rewrite ?E; cbn -[filter]; cbn [List.length]; lia|].
  destruct (String.eqb_spec (Data n) "h3") as [E|_];
    [rewrite ?E; cbn -[filter]; cbn [List.length]; lia|].
  destruct (String.eqb_spec (Data n) "h4") as [E|_];
    [rewrite ?E; cbn -[filter]; cbn [List.length]; lia|].
  destruct (String.eqb_spec (Data n) "h5") as [E|_];
    [rewrite ?E; cbn -[filter]; cbn [List.length]; lia|].
  destruct (String.eqb_spec (Data n) "h6") as [E|_];
    [rewrite ?E; cbn -[filter]; cbn [List.length]; lia|].
  cbn [andb orb]. exact IH.
Qed.

(** The heading counts have the six keys [h1] to [h6], whatever the page
    holds; no count is negative, and together they count every heading
    element of the page once. *)
Theorem countHeadings_keys_and_total doc :
  map fst (countHeadings doc) = ["h1"; "h2"; "h3"; "h4"; "h5"; "h6"]
  /\ Forall (fun kv => (0 <= snd kv)%Z) (countHeadings doc)
  /\ fold_right Z.add 0%Z (map snd (countHeadings doc))
     = Length (filter headingElement (descendants doc)).
Proof.
  rewrite countHeadings_unfold. split; [reflexivity|]. split.
  - repeat constructor; simpl; unfold Length; lia.
  - cbn [map snd fold_right]. unfold Length, Find.
    rewrite <- (heading_split (descendants doc)). lia.
Qed.

(** *** URL validation *)

(** A URL is accepted exactly when it parses, its host is not empty and its
    scheme is http or https; the URL handed on is the parsed one. *)
Theorem parseAndValidateURL_ok_iff targetURL parsedURL :
  parseAndValidateURL targetURL = Ok parsedURL
  <-> urlParse targetURL = Ok parsedURL
      /\ Host parsedURL <> EmptyString
      /\ (Scheme parsedURL = "http" \/ Scheme parsedURL = "https").
Proof.
  unfold Analyzer.parseAndValidateURL.
  destruct (urlParse targetURL) as [u|e]; [|split; [discriminate | intros [H _]; discriminate H]].
  destruct (String.eqb_spec (Scheme u) EmptyString) as [Es|Es]; simpl.
  { split; [discriminate|]. intros [H [_ [Hs|Hs]]]; injection H as <-;
      rewrite Es in Hs; discriminate Hs. }
  destruct (String.eqb_spec (Host u) EmptyString) as [Eh|Eh]; simpl.
  { split; [discriminate|]. intros [H [Hh _]]. injection H as <-. contradiction. }
  destruct (String.eqb_spec (Scheme u) "http") as [E1|E1]; simpl.
  { split; [intros H; injection H as <-; auto | intros [H _]; exact H]. }
  destruct (String.eqb_spec (Scheme u) "https") as [E2|E2]; simpl.
  { split; [intros H; injection H as <-; auto | intros [H _]; exact H]. }
  split; [discriminate|]. intros [H [_ [Hs|Hs]]]; injection H as <-; contradiction.
Qed.

(** *** The cache in [Analyze] *)

(** A hit of the cache is the answer, whatever else holds: the URL is not
    validated, nothing is fetched or parsed, nothing is logged. *)
Theorem Analyze_cache_hit cacheGet cacheSet targetURL result :
  cacheGet targetURL = (Some result, None) ->
  Analyze unicodeUpper unicodeLower cssFind ParseRef head maxChanCap urlParse httpGet
    newDocument cacheGet cacheSet now order config targetURL
  = ([], Returns (Ok result)).
Proof.
  intros H. unfold Analyzer.Analyze. rewrite H. reflexivity.
Qed.

(** A cache that fails on the look-up is a cache that misses: the call ends
    as it does on a miss, with one more line in the log, at its head, even
    when the failing look-up came with a result. *)
Theorem Analyze_cache_error_is_miss cacheGet cacheSet targetURL cached err :
  cacheGet targetURL = (cached, Some err) ->
  Analyze unicodeUpper unicodeLower cssFind ParseRef head maxChanCap urlParse httpGet
    newDocument cacheGet cacheSet now order config targetURL
  = ("Failed to get from cache" :: fst (AnalyzeWith (fun _ => (None, None)) cacheSet targetURL),
     snd (AnalyzeWith (fun _ => (None, None)) cacheSet targetURL)).
Proof.
  intros H. unfold Analyzer.Analyze. rewrite H.
  destruct (parseAndValidateURL targetURL) as [parsedURL|e1];
    [destruct (fetchWebpage targetURL) as [htmlContent|e2];
       [destruct (parseHTML htmlContent) as [doc|e3];
          [destruct (performWebpageAnalysis _ _ _ _ _ _ _ _ _ _ _ _ _) as [r| |];
             [destruct (cacheSet targetURL r)| |]|]|]|];
    destruct cached; reflexivity.
Qed.

(** What the cache answers to the write decides nothing but the log: the
    call ends the same way with any two caches that agree on the look-up. *)
Theorem Analyze_cache_write_irrelevant cacheGet cacheSet cacheSet' targetURL :
  snd (Analyze unicodeUpper unicodeLower cssFind ParseRef head maxChanCap urlParse httpGet
         newDocument cacheGet cacheSet now order config targetURL)
  = snd (Analyze unicodeUpper unicodeLower cssFind ParseRef head maxChanCap urlParse httpGet
           newDocument cacheGet cacheSet' now order config targetURL).
Proof.
  unfold Analyzer.Analyze.
  destruct (cacheGet targetURL) as [cached getErr].
  destruct (parseAndValidateURL targetURL) as [parsedURL|e1];
    [destruct (fetchWebpage targetURL) as [htmlContent|e2];
       [destruct (parseHTML htmlContent) as [doc|e3];
          [destruct (performWebpageAnalysis _ _ _ _ _ _ _ _ _ _ _ _ _) as [r| |];
             [destruct (cacheSet targetURL r), (cacheSet' targetURL r)| |]|]|]|];
    destruct getErr, cached; reflexivity.
Qed.

(** Without a hit of the cache, a URL that validates, a fetch and a parse
    that succeed, and a configuration the pool can run with give a report:
    the target URL, the label of the fetched text, title, headings and login
    verdict of the parsed page, the link counts of [analyzeLinks], and the
    time of the call. *)
Theorem Analyze_report cacheGet cacheSet targetURL parsedURL htmlContent doc :
  fst (cacheGet targetURL) = None \/ snd (cacheGet targetURL) <> None ->
  parseAndValidateURL targetURL = Ok parsedURL ->
  fetchWebpage targetURL = Ok htmlContent ->
  parseHTML htmlContent = Ok doc ->
  (0 <= MaxLinks config <= maxChanCap)%Z -> (1 <= MaxWorkers config)%Z ->
  exists links,
    analyzeLinks unicodeLower ParseRef head maxChanCap config doc parsedURL = Returns links
    /\ snd (AnalyzeWith cacheGet cacheSet targetURL)
       = Returns (Ok {| URL_ := targetURL;
                        HTMLVersion :=
                          Classifier.detectHTMLVersion unicodeUpper order htmlContent;
                        Title := extractPageTitle unicodeLower doc;
                        Headings := countHeadings doc;
                        Links_ := links;
                        HasLoginForm := Scorer.detectLoginForm unicodeLower cssFind doc;
                        AnalyzedAt := now |}).
Proof.
  intros Hmiss Hvalid Hfetch Hparse HB HW.
  destruct (LinksProps.analyzeLinks_returns unicodeLower ParseRef head maxChanCap
              config doc parsedURL HB HW) as [links [Hlinks _]].
  exists links. split; [exact Hlinks|].
  unfold Analyzer.Analyze. rewrite Hvalid, Hfetch, Hparse.
  unfold performWebpageAnalysis. rewrite Hlinks.
  destruct (cacheGet targetURL) as [cached getErr]. simpl in Hmiss.
  match goal with
  | |- context [cacheSet ?u ?r] => destruct (cacheSet u r)
  end;
  destruct getErr, cached; try reflexivity;
    destruct Hmiss as [Hm|Hm]; try discriminate Hm; exfalso; apply Hm; reflexivity.
Qed.

(** Which way [Analyze] ends with an error: a helper for the handler. *)
Lemma Analyze_error_cases cacheGet cacheSet targetURL err :
  snd (AnalyzeWith cacheGet cacheSet targetURL) = Returns (Err err) ->
  parseAndValidateURL targetURL = Err err
  \/ fetchWebpage targetURL = Err err
  \/ exists htmlContent,
       fetchWebpage targetURL = Ok htmlContent /\ parseHTML htmlContent = Err err.
Proof.
  unfold Analyzer.Analyze. intros H.
  destruct (cacheGet targetURL) as [cached getErr].
  destruct (parseAndValidateURL targetURL) as [parsedURL|e1] eqn:Evalid;
    [destruct (fetchWebpage targetURL) as [htmlContent|e2] eqn:Efetch;
       [destruct (parseHTML htmlContent) as [doc|e3] eqn:Eparse|]|].
  - exfalso.
    destruct (performWebpageAnalysis _ _ _ _ _ _ _ _ _ _ _ _ _) as [result| |];
      [destruct (cacheSet targetURL result)| |];
      destruct getErr, cached; simpl in H; discriminate H.
  - right. right. exists htmlContent. split; [reflexivity|].
    destruct getErr, cached; simpl in H; try discriminate H;
      injection H as ->; exact Eparse.
  - right. left.
    destruct getErr, cached; simpl in H; try discriminate H;
      injection H as ->; reflexivity.
  - left.
    destruct getErr, cached; simpl in H; try discriminate H;
      injection H as ->; reflexivity.
Qed.

End WithCollaborators.

#[local] Abbreviation analyzeSampleWith newDocument cacheGet cacheSet :=
  (Analyze asciiOnlyLower asciiOnlyLower Scorer.noMatch resolveSample headSample chanCapSample
     urlParseSample getPage newDocument cacheGet cacheSet 0%Z Classifier.declaredOrder
     (configSample 3)).

Lemma Analyze_cache_hit_witness :
  analyzeSampleWith parserFails (fun _ => (Some sampleResponse, None)) cacheSetDown
    "not a URL"
  = ([], Returns (Ok sampleResponse)).
Proof.
  apply (Analyze_cache_hit asciiOnlyLower asciiOnlyLower Scorer.noMatch resolveSample headSample
           chanCapSample urlParseSample getPage parserFails 0%Z Classifier.declaredOrder
           (configSample 3) (fun _ => (Some sampleResponse, None)) cacheSetDown
           "not a URL" sampleResponse).
  reflexivity.
Defined.

Lemma Analyze_cache_error_is_miss_witness :
  analyzeSampleWith parserSample (fun _ => (Some sampleResponse, Some "timeout")) cacheSetOk
    "http://example.com"
  = ("Failed to get from cache"
       :: fst (analyzeSampleWith parserSample (fun _ => (None, None)) cacheSetOk
                 "http://example.com"),
     snd (analyzeSampleWith parserSample (fun _ => (None, None)) cacheSetOk
            "http://example.com")).
Proof.
  apply (Analyze_cache_error_is_miss asciiOnlyLower asciiOnlyLower Scorer.noMatch resolveSample
           headSample chanCapSample urlParseSample getPage parserSample 0%Z
           Classifier.declaredOrder (configSample 3)
           (fun _ => (Some sampleResponse, Some "timeout")) cacheSetOk
           "http://example.com" (Some sampleResponse) "timeout").
  reflexivity.
Defined.

Lemma Analyze_report_witness :
  exists links,
    analyzeLinks asciiOnlyLower resolveSample headSample chanCapSample (configSample 3)
      linkPage exampleCom = Returns links
    /\ snd (analyzeSampleWith parserSample cacheDown cacheSetDown "http://example.com")
       = Returns (Ok {| URL_ := "http://example.com";
                        HTMLVersion :=
                          Classifier.detectHTMLVersion asciiOnlyLower Classifier.declaredOrder
                            "<!DOCTYPE html><html></html>";
                        Title := extractPageTitle asciiOnlyLower linkPage;
                        Headings := countHeadings asciiOnlyLower linkPage;
                        Links_ := links;
                        HasLoginForm :=
                          Scorer.detectLoginForm asciiOnlyLower Scorer.noMatch linkPage;
                        AnalyzedAt := 0 |}).
Proof.
  apply (Analyze_report asciiOnlyLower asciiOnlyLower Scorer.noMatch resolveSample headSample
           chanCapSample urlParseSample getPage parserSample 0%Z Classifier.declaredOrder
           (configSample 3) cacheDown cacheSetDown "http://example.com" exampleCom
           "<!DOCTYPE html><html></html>" linkPage).
  - right. discriminate.
  - reflexivity.
  - reflexivity.
  - reflexivity.
  - vm_compute. split; discriminate.
  - simpl. lia.
Defined.

End AnalyzerMore.

(** ** The request model and the handler *)

Module HandlerProps.
Import GoStrings Dom Constants Go Links Analyzer Models Handlers Samples MoreSamples.

Section WithCollaborators.

Variables unicodeUpper unicodeLower : string -> string.
Variable cssFind : string -> Node -> Selection.
Variable ParseRef : Links.URL -> string -> option Links.URL.
Variable head : task -> option Z.
Variable maxChanCap : Z.
Variable urlParse : string -> result Links.URL.
Variable httpGet : string -> getResult.
Variable newDocument : string -> result Node.
Variable cacheGet : string -> option AnalyzeResponse * option error.
Variable cacheSet : string -> AnalyzeResponse -> option error.
Variable now : Z.
Variable order : list (string * string).
Variable config : AnalyzerConfig.
Variable bindJSON : string -> result AnalyzeRequest.
Variable validateStruct : AnalyzeRequest -> option error.

#[local] Abbreviation Validate := (Validate urlParse).
#[local] Abbreviation parseAndValidateURL := (parseAndValidateURL urlParse).
#[local] Abbreviation fetchWebpage := (fetchWebpage httpGet).
#[local] Abbreviation parseHTML := (parseHTML newDocument).
#[local] Abbreviation Analyze :=
  (Analyze unicodeUpper unicodeLower cssFind ParseRef head maxChanCap urlParse httpGet
     newDocument cacheGet cacheSet now order config).
#[local] Abbreviation HandleWith analyze := (Handle bindJSON validateStruct urlParse analyze).

Lemma Validate_accepts r :
  Validate r = None -> exists parsedURL, parseAndValidateURL (URL r) = Ok parsedURL.
Proof.
  unfold Models.Validate, Analyzer.parseAndValidateURL.
  destruct (Z.of_nat (String.length (URL r)) >? MaxURLLength)%Z; [discriminate|].
  destruct (urlParse (URL r)) as [u|e]; [|discriminate].
  destruct (String.eqb (Scheme u) EmptyString || String.eqb (Host u) EmptyString);
    [discriminate|].
  destruct (negb (String.eqb (Scheme u) "http") && negb (String.eqb (Scheme u) "https"));
    [discriminate|].
  intros _. exists u. reflexivity.
Qed.

(** The validation of the request and the validation in the analyzer make
    the same checks on the parsed URL: a request is accepted exactly when
    its URL is 2048 bytes long at most and the analyzer accepts it. *)
Theorem Validate_agrees_with_analyzer r :
  Validate r = None
  <-> (Z.of_nat (String.length (URL r)) <= MaxURLLength)%Z
      /\ exists parsedURL, parseAndValidateURL (URL r) = Ok parsedURL.
Proof.
  unfold Models.Validate, Analyzer.parseAndValidateURL.
  destruct (Z.gtb_spec (Z.of_nat (String.length (URL r))) MaxURLLength) as [Hlen|Hlen].
  { split; [discriminate | intros [H _]; lia]. }
  destruct (urlParse (URL r)) as [u|e].
  2: { split; [discriminate | intros [_ [p H]]; discriminate H]. }
  destruct (String.eqb (Scheme u) EmptyString || String.eqb (Host u) EmptyString).
  { split; [discriminate | intros [_ [p H]]; discriminate H]. }
  destruct (negb (String.eqb (Scheme u) "http") && negb (String.eqb (Scheme u) "https")).
  { split; [discriminate | intros [_ [p H]]; discriminate H]. }
  split; [intros _; split; [lia | exists u; reflexivity] | reflexivity].
Qed.

(** The three answers of the handler.  400: the request did not bind or
    validate, nothing is logged and the analyzer is not consulted, so the
    answer is the same with any analyzer.  500: the request was valid and
    the analysis returned the error the answer carries.  200: the request
    was valid and the body is the report of the analysis. *)
Theorem Handle_answers analyze requestBody log status body :
  HandleWith analyze requestBody = (log, Returns (status, body)) ->
  (status = StatusBadRequest
   /\ log = []
   /\ (exists message details,
         body = ErrorBody {| Code := StatusBadRequest; Message := message;
                             Details := details |})
   /\ forall analyze', HandleWith analyze' requestBody = ([], Returns (status, body)))
  \/ (exists req err,
        bindJSON requestBody = Ok req /\ Validate req = None
        /\ snd (analyze (URL req)) = Returns (Err err)
        /\ status = StatusInternalServerError
        /\ body = ErrorBody {| Code := StatusInternalServerError;
                               Message := "Failed to analyze webpage"; Details := err |})
  \/ (exists req result,
        bindJSON requestBody = Ok req /\ Validate req = None
        /\ snd (analyze (URL req)) = Returns (Ok result)
        /\ status = StatusOK /\ body = ResultBody result).
Proof.
  unfold Handle, badRequest. intros H.
  destruct (bindJSON requestBody) as [req|e] eqn:Ebind.
  2: { injection H as <- <- <-. left. repeat split; eauto. }
  destruct (validateStruct req) as [e|] eqn:Estruct.
  { injection H as <- <- <-. left. repeat split; eauto. }
  destruct (Validate req) as [e|] eqn:Evalid.
  { injection H as <- <- <-. left. repeat split; eauto. }
  right. destruct (analyze (URL req)) as [alog [[result|err]| |]] eqn:Ea;
    try discriminate H.
  - injection H as <- <- <-. right. exists req, result.
    repeat split; try assumption; rewrite Ea; reflexivity.
  - injection H as <- <- <-. left. exists req, err.
    repeat split; try assumption; rewrite Ea; reflexivity.
Qed.

(** Behind the handler the URL check of the analyzer cannot fail: when the
    handler answers 500, the fetch or the parse failed, and the details of
    the answer are the error of that step. *)
Theorem Handle_500_is_fetch_or_parse requestBody log body :
  HandleWith Analyze requestBody = (log, Returns (StatusInternalServerError, body)) ->
  exists req err,
    bindJSON requestBody = Ok req
    /\ body = ErrorBody {| Code := StatusInternalServerError;
                           Message := "Failed to analyze webpage"; Details := err |}
    /\ (fetchWebpage (URL req) = Err err
        \/ exists htmlContent,
             fetchWebpage (URL req) = Ok htmlContent /\ parseHTML htmlContent = Err err).
Proof.
  unfold Handle, badRequest. intros H.
  destruct (bindJSON requestBody) as [req|e]; [|discriminate H].
  destruct (validateStruct req); [discriminate H|].
  destruct (Validate req) as [e|] eqn:Evalid; [discriminate H|].
  destruct (Analyze (URL req)) as [alog [[result|err]| |]] eqn:Ea; try discriminate H.
  injection H as <- <-. exists req, err. split; [reflexivity|]. split; [reflexivity|].
  assert (Herr : snd (Analyze (URL req)) = Returns (Err err)) by (rewrite Ea; reflexivity).
  apply AnalyzerMore.Analyze_error_cases in Herr.
  destruct Herr as [Hv|[Hf|Hp]]; [|left; exact Hf | right; exact Hp].
  destruct (Validate_accepts req Evalid) as [parsedURL Hok].
  rewrite Hok in Hv. discriminate Hv.
Qed.

End WithCollaborators.

#[local] Abbreviation analyzeSample newDocument :=
  (Analyze asciiOnlyLower asciiOnlyLower Scorer.noMatch resolveSample headSample chanCapSample
     urlParseSample getPage newDocument cacheMiss cacheSetOk 0%Z Classifier.declaredOrder
     (configSample 3)).

Lemma Handle_sample_500 :
  Handle bindSample validateSample urlParseSample (analyzeSample parserFails)
    "http://example.com"
  = (["Failed to analyze webpage"],
     Returns (StatusInternalServerError,
              ErrorBody {| Code := StatusInternalServerError;
                           Message := "Failed to analyze webpage";
                           Details := "failed to parse HTML: read error" |})).
Proof. vm_compute. reflexivity. Qed.

Lemma Handle_answers_witness :
  (StatusInternalServerError = StatusBadRequest
   /\ ["Failed to analyze webpage"] = []
   /\ (exists message details,
         ErrorBody {| Code := StatusInternalServerError;
                      Message := "Failed to analyze webpage";
                      Details := "failed to parse HTML: read error" |}
         = ErrorBody {| Code := StatusBadRequest; Message := message;
                        Details := details |})
   /\ forall analyze',
        Handle bindSample validateSample urlParseSample analyze' "http://example.com"
        = ([], Returns (StatusInternalServerError,
                        ErrorBody {| Code := StatusInternalServerError;
                                     Message := "Failed to analyze webpage";
                                     Details := "failed to parse HTML: read error" |})))
  \/ (exists req err,
        bindSample "http://example.com" = Ok req
        /\ Validate urlParseSample req = None
        /\ snd (analyzeSample parserFails (URL req)) = Returns (Err err)
        /\ StatusInternalServerError = StatusInternalServerError
        /\ ErrorBody {| Code := StatusInternalServerError;
                        Message := "Failed to analyze webpage";
                        Details := "failed to parse HTML: read error" |}
           = ErrorBody {| Code := StatusInternalServerError;
                          Message := "Failed to analyze webpage"; Details := err |})
  \/ (exists req result,
        bindSample "http://example.com" = Ok req
        /\ Validate urlParseSample req = None
        /\ snd (analyzeSample parserFails (URL req)) = Returns (Ok result)
        /\ StatusInternalServerError = StatusOK
        /\ ErrorBody {| Code := StatusInternalServerError;
                        Message := "Failed to analyze webpage";
                        Details := "failed to parse HTML: read error" |}
           = ResultBody result).
Proof.
  exact (Handle_answers urlParseSample bindSample validateSample (analyzeSample parserFails)
           "http://example.com" _ _ _ Handle_sample_500).
Defined.

Lemma Handle_500_is_fetch_or_parse_witness :
  exists req err,
    bindSample "http://example.com" = Ok req
    /\ ErrorBody {| Code := StatusInternalServerError;
                    Message := "Failed to analyze webpage";
                    Details := "failed to parse HTML: read error" |}
       = ErrorBody {| Code := StatusInternalServerError;
                      Message := "Failed to analyze webpage"; Details := err |}
    /\ (fetchWebpage getPage (URL req) = Err err
        \/ exists htmlContent,
             fetchWebpage getPage (URL req) = Ok htmlContent
             /\ parseHTML parserFails htmlContent = Err err).
Proof.
  exact (Handle_500_is_fetch_or_parse asciiOnlyLower asciiOnlyLower Scorer.noMatch
           resolveSample headSample chanCapSample urlParseSample getPage parserFails
           cacheMiss cacheSetOk 0%Z Classifier.declaredOrder (configSample 3)
           bindSample validateSample "http://example.com" _ _ Handle_sample_500).
Defined.

End HandlerProps.

(** ** The cache *)

Module CacheProps.
Import GoStrings Dom Go Links Analyzer Cache Samples MoreSamples.

Section WithRedis.

Variable store : Type.
Variable redisGet : store -> string -> redisReply.
Variable redisSet : store -> string -> string -> Z -> store * option error.
Variable jsonMarshal : AnalyzeResponse -> result string.
Variable jsonUnmarshal : string -> result AnalyzeResponse.

#[local] Abbreviation Get := (Get store redisGet jsonUnmarshal).
#[local] Abbreviation Set_ := (Set_ store redisSet jsonMarshal).

Lemma key_injective url url' : key url = key url' -> url = url'.
Proof.
  unfold key. intros H. simpl in H. injection H as E. exact E.
Qed.

(** [Get] never gives a result and an error together; it gives a result
    exactly when there is a client, Redis holds data under the key of the
    URL and the data decode; a key that Redis does not hold is a miss, not
    an error; and the hit counter is stepped only with a result, the miss
    counter only for a key that is not held. *)
Theorem Get_outcomes c s url :
  let '((result, err), stepped) := Get c s url in
  (result = None \/ err = None)
  /\ (forall r, result = Some r
                <-> hasClient c = true
                    /\ exists data, redisGet s (key url) = RedisData data
                                    /\ jsonUnmarshal data = Ok r)
  /\ (redisGet s (key url) = RedisNil -> result = None /\ err = None)
  /\ (stepped = CacheHit -> result <> None)
  /\ (stepped = CacheMiss -> hasClient c = true /\ redisGet s (key url) = RedisNil).
Proof.
  unfold Cache.Get. destruct (hasClient c); simpl.
  2: { split; [left; reflexivity|].
       split; [intros r; split; [discriminate | intros [H _]; discriminate H]|].
       split; [intros _; split; reflexivity|]. split; discriminate. }
  destruct (redisGet s (key url)) as [|e|data] eqn:Eget.
  - split; [left; reflexivity|].
    split; [intros r; split; [discriminate | intros [_ [data [H _]]]; discriminate H]|].
    split; [intros _; split; reflexivity|].
    split; [destruct (hasMetrics c); discriminate|].
    intros _. split; reflexivity.
  - split; [left; reflexivity|].
    split; [intros r; split; [discriminate | intros [_ [data [H _]]]; discriminate H]|].
    split; [discriminate|]. split; discriminate.
  - destruct (jsonUnmarshal data) as [r0|e] eqn:Ejson.
    + split; [right; reflexivity|]. split; [|split; [discriminate|split]].
      * intros r. split.
        -- intros H. injection H as <-. split; [reflexivity|].
           exists data. split; [reflexivity | exact Ejson].
        -- intros [_ [data' [Hd Hj]]]. injection Hd as <-. rewrite Ejson in Hj.
           injection Hj as <-. reflexivity.
      * intros _. discriminate.
      * destruct (hasMetrics c); discriminate.
    + split; [left; reflexivity|]. split; [|split; [discriminate|split; discriminate]].
      intros r. split; [discriminate|].
      intros [_ [data' [Hd Hj]]]. injection Hd as <-. rewrite Ejson in Hj. discriminate Hj.
Qed.

(** What [Set_] stored for a URL is what [Get] finds for it: on a Redis that
    answers a read with what was last written under the key, a write that
    succeeds is followed by a hit with the decoded encoding of the report. *)
Theorem Set_then_Get c s s' url result data decoded :
  (forall s0 k d t s1, redisSet s0 k d t = (s1, None) -> redisGet s1 k = RedisData d) ->
  hasClient c = true ->
  jsonMarshal result = Ok data ->
  jsonUnmarshal data = Ok decoded ->
  Set_ c s url result = (s', None) ->
  fst (Get c s' url) = (Some decoded, None).
Proof.
  intros Hredis Hclient Hmarshal Hunmarshal Hset.
  unfold Cache.Set_ in Hset. rewrite Hclient, Hmarshal in Hset. simpl in Hset.
  destruct (redisSet s (key url) data (ttl c)) as [s1 [e|]] eqn:Ewrite;
    [discriminate Hset|].
  injection Hset as <-.
  unfold Cache.Get. rewrite Hclient. simpl.
  rewrite (Hredis _ _ _ _ _ Ewrite), Hunmarshal. reflexivity.
Qed.

(** The entries of two URLs do not touch: on a Redis where a write under one
    key leaves the other keys as they are, storing the report of one URL
    changes nothing of what [Get] finds for another. *)
Theorem Set_leaves_other_urls c s s' url url' result err :
  (forall s0 k d t s1 e k', redisSet s0 k d t = (s1, e) -> k' <> k ->
                            redisGet s1 k' = redisGet s0 k') ->
  url' <> url ->
  Set_ c s url result = (s', err) ->
  Get c s' url' = Get c s url'.
Proof.
  intros Hframe Hne Hset. unfold Cache.Set_ in Hset. unfold Cache.Get.
  destruct (hasClient c); simpl in *; [|reflexivity].
  destruct (jsonMarshal result) as [data|e]; [|injection Hset as <- _; reflexivity].
  destruct (redisSet s (key url) data (ttl c)) as [s1 e] eqn:Ewrite.
  assert (s' = s1) by (destruct e; injection Hset as <- _; reflexivity). subst s1.
  rewrite (Hframe _ _ _ _ _ _ (key url') Ewrite); [reflexivity|].
  intros Hk. apply Hne. apply key_injective. exact Hk.
Qed.

End WithRedis.

Section NoOpCache.

Variables unicodeUpper unicodeLower : string -> string.
Variable cssFind : string -> Node -> Selection.
Variable ParseRef : URL -> string -> option URL.
Variable head : task -> option Z.
Variable maxChanCap : Z.
Variable urlParse : string -> result URL.
Variable httpGet : string -> getResult.
Variable newDocument : string -> result Node.
Variable now : Z.
Variable order : list (string * string).
Variable config : AnalyzerConfig.
Variable store : Type.
Variable redisGet : store -> string -> redisReply.
Variable redisSet : store -> string -> string -> Z -> store * option error.
Variable jsonMarshal : AnalyzeResponse -> result string.
Variable jsonUnmarshal : string -> result AnalyzeResponse.

(** With the no-op cache, the one the application builds when caching is
    disabled, [Analyze] logs no cache failure, whatever the state of Redis,
    and serves no cached report: it ends as it does with a cache that always
    misses. *)
Theorem Analyze_with_noop_cache s targetURL :
  Analyze unicodeUpper unicodeLower cssFind ParseRef head maxChanCap urlParse httpGet
    newDocument
    (fun u => fst (Get store redisGet jsonUnmarshal NewNoOpCache s u))
    (fun u r => snd (Set_ store redisSet jsonMarshal NewNoOpCache s u r))
    now order config targetURL
  = ([],
     snd (Analyze unicodeUpper unicodeLower cssFind ParseRef head maxChanCap urlParse httpGet
            newDocument (fun _ => (None, None)) (fun _ _ => None) now order config
            targetURL)).
Proof.
  unfold Analyze, Get, Set_, NewNoOpCache. simpl.
  destruct (parseAndValidateURL urlParse targetURL) as [parsedURL|e1]; [|reflexivity].
  destruct (fetchWebpage httpGet targetURL) as [htmlContent|e2]; [|reflexivity].
  destruct (parseHTML newDocument htmlContent) as [doc|e3]; [|reflexivity].
  destruct (performWebpageAnalysis _ _ _ _ _ _ _ _ _ _ _ _ _) as [r| |]; reflexivity.
Qed.

End NoOpCache.

Lemma memory_read_after_write :
  forall s0 k d t s1, memorySet s0 k d t = (s1, None) -> memoryGet s1 k = RedisData d.
Proof.
  intros s0 k d t s1 H. injection H as <-. simpl. rewrite String.eqb_refl. reflexivity.
Qed.

Lemma memory_frame :
  forall s0 k d t s1 (e : option error) k',
    memorySet s0 k d t = (s1, e) -> k' <> k -> memoryGet s1 k' = memoryGet s0 k'.
Proof.
  intros s0 k d t s1 e k' H Hne. injection H as <- _. simpl.
  destruct (String.eqb_spec k k') as [E|_]; [exfalso; apply Hne; symmetry; exact E|].
  reflexivity.
Qed.

Lemma Set_then_Get_witness :
  fst (Get memoryStore memoryGet unmarshalTitle redisCache
         [(key "http://example.com", "Example")] "http://example.com")
  = (Some {| URL_ := EmptyString; HTMLVersion := EmptyString; Title := "Example";
             Headings := [];
             Links_ := {| Internal := 0; External := 0; Inaccessible := 0 |};
             HasLoginForm := false; AnalyzedAt := 0 |}, None).
Proof.
  apply (Set_then_Get memoryStore memoryGet memorySet marshalTitle unmarshalTitle redisCache
           [] _ "http://example.com" sampleResponse "Example").
  - exact memory_read_after_write.
  - reflexivity.
  - reflexivity.
  - reflexivity.
  - reflexivity.
Defined.

Lemma Set_leaves_other_urls_witness :
  Get memoryStore memoryGet unmarshalTitle redisCache
    [(key "http://example.com", "Example")] "http://example.org"
  = Get memoryStore memoryGet unmarshalTitle redisCache [] "http://example.org".
Proof.
  apply (Set_leaves_other_urls memoryStore memoryGet memorySet marshalTitle unmarshalTitle
           redisCache [] _ "http://example.com" "http://example.org" sampleResponse None).
  - exact memory_frame.
  - discriminate.
  - reflexivity.
Defined.

End CacheProps.

(** ** The rate limiter *)

Module RateLimitProps.
Import GoStrings Go Models RateLimit MoreSamples.

Section WithLimiter.

Variable limiter : Type.
Variable newLimiter : limiter.
Variable allow : Z -> limiter -> bool * limiter.

#[local] Abbreviation lookup := (lookup limiter).
#[local] Abbreviation store := (store limiter).
#[local] Abbreviation RateLimit := (RateLimit limiter newLimiter allow).

Lemma lookup_store_same ips ip l : lookup (store ips ip l) ip = Some l.
Proof.
  induction ips as [|[k l'] ips IH]; simpl.
  - rewrite String.eqb_refl. reflexivity.
  - destruct (String.eqb_spec k ip) as [E|E]; simpl.
    + rewrite E, String.eqb_refl. reflexivity.
    + destruct (String.eqb_spec k ip); [contradiction | exact IH].
Qed.

Lemma lookup_store_other ips ip ip' l :
  ip' <> ip -> lookup (store ips ip l) ip' = lookup ips ip'.
Proof.
  intros Hne. induction ips as [|[k l'] ips IH]; simpl.
  - destruct (String.eqb_spec ip ip'); [exfalso; apply Hne; congruence | reflexivity].
  - destruct (String.eqb_spec k ip) as [E|E]; simpl.
    + subst k. destruct (String.eqb_spec ip ip'); [exfalso; apply Hne; congruence|].
      reflexivity.
    + destruct (String.eqb_spec k ip'); [reflexivity | exact IH].
Qed.

(** The limits of two addresses are apart: a request of one address,
    admitted or refused, leaves the limiter of every other address as it
    was, and gives no limiter to an address that had none. *)
Theorem RateLimit_isolates_addresses enabled now ips ip ip' :
  ip' <> ip ->
  lookup (snd (RateLimit enabled now ips ip)) ip' = lookup ips ip'.
Proof.
  intros Hne. unfold RateLimit.RateLimit, getLimiter.
  destruct enabled; simpl; [|reflexivity].
  destruct (lookup ips ip) as [l|] eqn:El.
  - destruct (allow now l) as [allowed l1]. destruct allowed; simpl;
      apply lookup_store_other; exact Hne.
  - destruct (allow now newLimiter) as [allowed l1]. destruct allowed; simpl;
      rewrite !lookup_store_other by exact Hne; reflexivity.
Qed.

(** An enabled limiter judges a request by the limiter of its address, a
    new one at the first request of the address: the request goes on
    exactly when that limiter allows it and is answered with 429 otherwise,
    and the state the limiter is left in is what the next request of the
    address finds. *)
Theorem RateLimit_uses_own_limiter now ips ip :
  let l := match lookup ips ip with Some l => l | None => newLimiter end in
  fst (RateLimit true now ips ip)
  = (if fst (allow now l) then Next
     else Abort StatusTooManyRequests
            {| Code := StatusTooManyRequests; Message := "Rate limit exceeded";
               Details := "Please try again later" |})
  /\ lookup (snd (RateLimit true now ips ip)) ip = Some (snd (allow now l)).
Proof.
  unfold RateLimit.RateLimit, getLimiter. simpl.
  destruct (lookup ips ip) as [l0|]; destruct (allow now _) as [allowed l1];
    destruct allowed; simpl; split; try reflexivity; apply lookup_store_same.
Qed.

End WithLimiter.

Lemma RateLimit_isolates_addresses_witness :
  lookup nat (snd (RateLimit nat 1%nat allowTokens true 0 [("10.0.0.1", 0%nat)] "10.0.0.2"))
    "10.0.0.1"
  = lookup nat [("10.0.0.1", 0%nat)] "10.0.0.1".
Proof.
  apply (RateLimit_isolates_addresses nat 1%nat allowTokens true 0 [("10.0.0.1", 0%nat)]
           "10.0.0.2" "10.0.0.1").
  discriminate.
Defined.

End RateLimitProps.

(** ** The classifier and the case of the letters *)

Module ClassifierCase.
Import GoStrings Constants Classifier Notions.

#[local] Abbreviation upper := (mapBytes upperByte).

Lemma code_ascii_of_N n : (n < 256)%N -> code (ascii_of_N n) = n.
Proof. apply N_ascii_embedding. Qed.

Lemma code_bounded c : (code c < 256)%N.
Proof. apply N_ascii_bounded. Qed.

Lemma code_inj a b : code a = code b -> a = b.
Proof.
  intros H. rewrite <- (ascii_N_embedding a), <- (ascii_N_embedding b).
  unfold code in H. rewrite H. reflexivity.
Qed.

Lemma code_upperByte c :
  code (upperByte c)
  = if ((97 <=? code c) && (code c <=? 122))%N then (code c - 32)%N else code c.
Proof.
  unfold upperByte. destruct ((97 <=? code c) && (code c <=? 122))%N; [|reflexivity].
  apply code_ascii_of_N. pose proof (code_bounded c). lia.
Qed.

Lemma ascii_eqb_code a b : Ascii.eqb a b = (code a =? code b)%N.
Proof.
  destruct (Ascii.eqb_spec a b) as [->|Hne].
  - symmetry. apply N.eqb_refl.
  - symmetry. apply N.eqb_neq. intros H. apply Hne. apply code_inj. exact H.
Qed.

#[local] Ltac by_code :=
  rewrite ?ascii_eqb_code, ?code_upperByte;
  repeat match goal with
         | |- context [(?a <=? ?b)%N] => destruct (N.leb_spec a b)
         | |- context [(?a <? ?b)%N] => destruct (N.ltb_spec a b)
         | |- context [(?a =? ?b)%N] => destruct (N.eqb_spec a b)
         end;
  cbn [andb orb negb] in *; try reflexivity; try (exfalso; lia); try lia.

Lemma upperByte_idem c : upperByte (upperByte c) = upperByte c.
Proof. apply code_inj. by_code. Qed.

Lemma isAsciiSpace_upper c : isAsciiSpace (upperByte c) = isAsciiSpace c.
Proof. unfold isAsciiSpace. cbv zeta. by_code. Qed.

Lemma isReSpace_upper c : isReSpace (upperByte c) = isReSpace c.
Proof. unfold isReSpace. cbv zeta. by_code. Qed.

Lemma ascii_upper c : (code (upperByte c) <? 128)%N = (code c <? 128)%N.
Proof. by_code. Qed.

Lemma isASCII_upper s : isASCII (upper s) = isASCII s.
Proof.
  induction s as [|c s IH]; simpl; [reflexivity|]. rewrite ascii_upper, IH. reflexivity.
Qed.

Lemma upper_idem s : upper (upper s) = upper s.
Proof.
  induction s as [|c s IH]; simpl; [reflexivity|]. rewrite upperByte_idem, IH. reflexivity.
Qed.

Lemma isSpace2_ascii a b : (code a <? 128)%N = true -> isSpace2 a b = false.
Proof. unfold isSpace2. intros H. apply N.ltb_lt in H. by_code. Qed.

Lemma isSpace3_ascii a b c : (code a <? 128)%N = true -> isSpace3 a b c = false.
Proof. unfold isSpace3. intros H. apply N.ltb_lt in H. by_code. Qed.

Lemma trimLeft_head a t :
  (code a <? 128)%N = true -> isAsciiSpace a = false ->
  trimLeft (String a t) = String a t.
Proof.
  intros Ha Hs. simpl. rewrite Hs. destruct t as [|b t2]; [reflexivity|].
  rewrite (isSpace2_ascii a b Ha). destruct t2 as [|c t3]; [reflexivity|].
  rewrite (isSpace3_ascii a b c Ha). reflexivity.
Qed.

Lemma trimLeft_space a t : isAsciiSpace a = true -> trimLeft (String a t) = trimLeft t.
Proof. intros Hs. simpl. rewrite Hs. reflexivity. Qed.

Lemma trimLeft_upper s :
  isASCII s = true -> trimLeft (upper s) = upper (trimLeft s) /\ isASCII (trimLeft s) = true.
Proof.
  induction s as [|a t IH]; intros H; [split; reflexivity|].
  simpl in H. apply andb_prop in H. destruct H as [Ha Ht].
  change (upper (String a t)) with (String (upperByte a) (upper t)).
  destruct (isAsciiSpace a) eqn:Hs.
  - rewrite !trimLeft_space by (rewrite ?isAsciiSpace_upper; exact Hs). apply IH. exact Ht.
  - rewrite !trimLeft_head by (rewrite ?ascii_upper, ?isAsciiSpace_upper; assumption).
    split; [reflexivity|]. simpl. rewrite Ha, Ht. reflexivity.
Qed.

Lemma trimLeftRev_head a t :
  isASCII (String a t) = true -> isAsciiSpace a = false ->
  trimLeftRev (String a t) = String a t.
Proof.
  intros H Hs. simpl in H. apply andb_prop in H. destruct H as [Ha Ht].
  simpl. rewrite Hs. destruct t as [|b t2]; [reflexivity|].
  simpl in Ht. apply andb_prop in Ht. destruct Ht as [Hb Ht2].
  rewrite (isSpace2_ascii b a Hb). destruct t2 as [|c t3]; [reflexivity|].
  simpl in Ht2. apply andb_prop in Ht2. destruct Ht2 as [Hc _].
  rewrite (isSpace3_ascii c b a Hc). reflexivity.
Qed.

Lemma trimLeftRev_space a t :
  isAsciiSpace a = true -> trimLeftRev (String a t) = trimLeftRev t.
Proof. intros Hs. simpl. rewrite Hs. reflexivity. Qed.

Lemma trimLeftRev_upper s :
  isASCII s = true ->
  trimLeftRev (upper s) = upper (trimLeftRev s) /\ isASCII (trimLeftRev s) = true.
Proof.
  induction s as [|a t IH]; intros H; [split; reflexivity|].
  pose proof H as H0. simpl in H. apply andb_prop in H. destruct H as [Ha Ht].
  change (upper (String a t)) with (String (upperByte a) (upper t)).
  destruct (isAsciiSpace a) eqn:Hs.
  - rewrite !trimLeftRev_space by (rewrite ?isAsciiSpace_upper; exact Hs). apply IH. exact Ht.
  - rewrite (trimLeftRev_head a t H0 Hs).
    rewrite trimLeftRev_head.
    + split; [reflexivity | exact H0].
    + change (String (upperByte a) (upper t)) with (upper (String a t)).
      rewrite isASCII_upper. exact H0.
    + rewrite isAsciiSpace_upper. exact Hs.
Qed.

Lemma revOnto_upper s acc : revOnto (upper s) (upper acc) = upper (revOnto s acc).
Proof.
  revert acc. induction s as [|c s IH]; intros acc; simpl; [reflexivity|].
  apply (IH (String c acc)).
Qed.

Lemma revOnto_ascii s acc :
  isASCII s = true -> isASCII acc = true -> isASCII (revOnto s acc) = true.
Proof.
  revert acc. induction s as [|c s IH]; intros acc Hs Hacc; simpl; [exact Hacc|].
  simpl in Hs. apply andb_prop in Hs. destruct Hs as [Hc Hs].
  apply IH; [exact Hs|]. simpl. rewrite Hc, Hacc. reflexivity.
Qed.

Lemma TrimSpace_upper s :
  isASCII s = true -> TrimSpace (upper s) = upper (TrimSpace s) /\ isASCII (TrimSpace s) = true.
Proof.
  intros H. unfold TrimSpace, rev.
  destruct (trimLeft_upper s H) as [E1 A1]. rewrite E1.
  change EmptyString with (upper EmptyString) at 1 2. rewrite revOnto_upper.
  pose proof (revOnto_ascii (trimLeft s) EmptyString A1 eq_refl) as A2.
  destruct (trimLeftRev_upper _ A2) as [E3 A3]. rewrite E3.
  change EmptyString with (upper EmptyString) at 1. rewrite revOnto_upper.
  split; [reflexivity|]. apply revOnto_ascii; [exact A3 | reflexivity].
Qed.

Lemma skipSpaces_upper s : skipSpaces (upper s) = upper (skipSpaces s).
Proof.
  induction s as [|c s IH]; simpl; [reflexivity|].
  rewrite isReSpace_upper. destruct (isReSpace c); [exact IH | reflexivity].
Qed.

Lemma skipSpaces_ascii s : isASCII s = true -> isASCII (skipSpaces s) = true.
Proof.
  induction s as [|c s IH]; intros H; simpl; [reflexivity|].
  destruct (isReSpace c); [|exact H].
  simpl in H. apply andb_prop in H. apply IH. apply H.
Qed.

Lemma literal_fold_upper lit s :
  literal true lit (upper s) = option_map upper (literal true lit s).
Proof.
  revert s. induction lit as [|l lit IH]; intros s; [reflexivity|].
  destruct s as [|c s]; [reflexivity|]. simpl.
  rewrite upperByte_idem. destruct (Ascii.eqb (upperByte c) (upperByte l)); [apply IH | reflexivity].
Qed.

Lemma literal_caseless_upper lit s :
  caseless lit = true ->
  literal false lit (upper s) = option_map upper (literal false lit s).
Proof.
  revert s. induction lit as [|l lit IH]; intros s H; [reflexivity|].
  simpl in H. apply andb_prop in H. destruct H as [Hl Hlit].
  destruct s as [|c s]; [reflexivity|]. simpl.
  assert (E : Ascii.eqb (upperByte c) l = Ascii.eqb c l).
  { clear - Hl. revert Hl. by_code. }
  rewrite E. destruct (Ascii.eqb c l); [apply IH; exact Hlit | reflexivity].
Qed.

Lemma literal_ascii fold lit s r :
  isASCII s = true -> literal fold lit s = Some r -> isASCII r = true.
Proof.
  revert s. induction lit as [|l lit IH]; intros s Hs H.
  - destruct s; injection H as <-; exact Hs.
  - destruct s as [|c s]; [discriminate H|]. simpl in H.
    destruct (Ascii.eqb _ _); [|discriminate H].
    simpl in Hs. apply andb_prop in Hs. apply (IH s); [apply Hs | exact H].
Qed.

Lemma untilGt_upper s :
  untilGt (upper s)
  = option_map (fun p => (upper (fst p), upper (snd p))) (untilGt s).
Proof.
  induction s as [|c s IH]; simpl; [reflexivity|].
  assert (E : (code (upperByte c) =? 62)%N = (code c =? 62)%N) by by_code.
  rewrite E. destruct (code c =? 62)%N; [reflexivity|].
  rewrite IH. destruct (untilGt s) as [[run rest]|]; reflexivity.
Qed.

Lemma untilGt_ascii s run rest :
  isASCII s = true -> untilGt s = Some (run, rest) ->
  isASCII run = true /\ isASCII rest = true.
Proof.
  revert run rest. induction s as [|c s IH]; intros run rest Hs H; [discriminate H|].
  simpl in Hs. apply andb_prop in Hs. destruct Hs as [Hc Hs]. simpl in H.
  destruct (code c =? 62)%N.
  - injection H as <- <-. split; [reflexivity | exact Hs].
  - destruct (untilGt s) as [[run' rest']|]; [|discriminate H].
    injection H as <- <-. destruct (IH run' rest' Hs eq_refl) as [A B].
    split; [simpl; rewrite Hc, A; reflexivity | exact B].
Qed.

Lemma lastByte_upper s : lastByte (upper s) = option_map upperByte (lastByte s).
Proof.
  induction s as [|c s IH]; [reflexivity|].
  destruct s as [|d s]; [reflexivity|].
  change (lastByte (upper (String c (String d s)))) with (lastByte (upper (String d s))).
  rewrite IH. reflexivity.
Qed.

Lemma stripXMLDeclaration_upper s :
  isASCII s = true ->
  stripXMLDeclaration (upper s) = upper (stripXMLDeclaration s)
  /\ isASCII (stripXMLDeclaration s) = true.
Proof.
  intros H. unfold stripXMLDeclaration.
  rewrite skipSpaces_upper, literal_fold_upper.
  destruct (literal true "<?xml" (skipSpaces s)) as [r|] eqn:El; simpl; [|split; auto].
  pose proof (literal_ascii _ _ _ _ (skipSpaces_ascii s H) El) as Ar.
  rewrite untilGt_upper.
  destruct (untilGt r) as [[run rest]|] eqn:Eu; simpl; [|split; auto].
  destruct (untilGt_ascii _ _ _ Ar Eu) as [_ Arest].
  rewrite lastByte_upper.
  destruct (lastByte run) as [c|]; simpl; [|split; auto].
  assert (E : (code (upperByte c) =? 63)%N = (code c =? 63)%N) by by_code.
  rewrite E. destruct (code c =? 63)%N; [|split; auto].
  split; [apply skipSpaces_upper | apply skipSpaces_ascii; exact Arest].
Qed.

Lemma untilCommentEnd_upper s :
  untilCommentEnd (upper s) = option_map upper (untilCommentEnd s).
Proof.
  induction s as [|c s IH]; [reflexivity|].
  change (upper (String c s)) with (String (upperByte c) (upper s)).
  change (untilCommentEnd (String (upperByte c) (upper s)))
    with (match literal false "-->" (String (upperByte c) (upper s)) with
          | Some rest => Some rest
          | None => if (code (upperByte c) =? 10)%N then None else untilCommentEnd (upper s)
          end).
  change (untilCommentEnd (String c s))
    with (match literal false "-->" (String c s) with
          | Some rest => Some rest
          | None => if (code c =? 10)%N then None else untilCommentEnd s
          end).
  change (String (upperByte c) (upper s)) with (upper (String c s)).
  rewrite (literal_caseless_upper "-->" (String c s) eq_refl).
  destruct (literal false "-->" (String c s)); simpl; [reflexivity|].
  assert (E : (code (upperByte c) =? 10)%N = (code c =? 10)%N) by by_code.
  rewrite E. destruct (code c =? 10)%N; [reflexivity | exact IH].
Qed.

Lemma untilCommentEnd_ascii s r :
  isASCII s = true -> untilCommentEnd s = Some r -> isASCII r = true.
Proof.
  induction s as [|c s IH]; intros Hs H; [discriminate H|].
  change (untilCommentEnd (String c s))
    with (match literal false "-->" (String c s) with
          | Some rest => Some rest
          | None => if (code c =? 10)%N then None else untilCommentEnd s
          end) in H.
  destruct (literal false "-->" (String c s)) as [rest|] eqn:El.
  - injection H as <-. apply (literal_ascii _ _ _ _ Hs El).
  - destruct (code c =? 10)%N; [discriminate H|].
    simpl in Hs. apply andb_prop in Hs. apply IH; [apply Hs | exact H].
Qed.

Lemma stripComment_upper s :
  isASCII s = true ->
  stripComment (upper s) = upper (stripComment s) /\ isASCII (stripComment s) = true.
Proof.
  intros H. unfold stripComment.
  rewrite skipSpaces_upper, (literal_caseless_upper "<!--" _ eq_refl).
  destruct (literal false "<!--" (skipSpaces s)) as [r|] eqn:El; simpl; [|split; auto].
  pose proof (literal_ascii _ _ _ _ (skipSpaces_ascii s H) El) as Ar.
  rewrite untilCommentEnd_upper.
  destruct (untilCommentEnd r) as [rest|] eqn:Eu; simpl; [|split; auto].
  split; [apply skipSpaces_upper|].
  apply skipSpaces_ascii. apply (untilCommentEnd_ascii _ _ Ar Eu).
Qed.

Lemma length_upper s : String.length (upper s) = String.length s.
Proof. induction s as [|c s IH]; simpl; [reflexivity | rewrite IH; reflexivity]. Qed.

Lemma substring_upper n m s : substring n m (upper s) = upper (substring n m s).
Proof.
  revert n m. induction s as [|c s IH]; intros n m.
  - destruct n, m; reflexivity.
  - destruct n as [|n]; [destruct m as [|m]; [reflexivity|]|]; simpl.
    + rewrite IH. reflexivity.
    + apply IH.
Qed.

Lemma substring_ascii n m s : isASCII s = true -> isASCII (substring n m s) = true.
Proof.
  revert n m. induction s as [|c s IH]; intros n m H.
  - destruct n, m; reflexivity.
  - simpl in H. apply andb_prop in H. destruct H as [Hc Hs].
    destruct n as [|n]; [destruct m as [|m]; [reflexivity|]|]; simpl.
    + rewrite Hc. apply IH. exact Hs.
    + apply IH. exact Hs.
Qed.

Lemma findDOCTYPE_upper s :
  isASCII s = true ->
  findDOCTYPE (upper s) = upper (findDOCTYPE s) /\ isASCII (findDOCTYPE s) = true.
Proof.
  intros H. unfold findDOCTYPE.
  rewrite skipSpaces_upper, literal_fold_upper.
  destruct (literal true "<!DOCTYPE" (skipSpaces s)) as [[|c r]|]; simpl;
    try (split; reflexivity).
  rewrite isReSpace_upper. destruct (isReSpace c); [|split; reflexivity].
  rewrite untilGt_upper.
  destruct (untilGt r) as [[run rest]|]; simpl; [|split; reflexivity].
  unfold upTo. rewrite !length_upper, substring_upper.
  split; [reflexivity | apply substring_ascii; exact H].
Qed.

Lemma extractDOCTYPE_upper unicodeUpper s :
  isASCII s = true ->
  extractDOCTYPE unicodeUpper (upper s) = extractDOCTYPE unicodeUpper s.
Proof.
  intros H. unfold extractDOCTYPE.
  destruct (TrimSpace_upper s H) as [E1 A1]. rewrite E1.
  destruct (stripXMLDeclaration_upper _ A1) as [E2 A2]. rewrite E2.
  destruct (stripComment_upper _ A2) as [E3 A3]. rewrite E3.
  destruct (findDOCTYPE_upper _ A3) as [E4 A4]. rewrite E4.
  unfold ToUpper. rewrite isASCII_upper, A4. apply upper_idem.
Qed.

(** The classifier does not look at the case of the letters: two ASCII
    texts that differ in the case of letters only, as [<!doctype html>] and
    [<!DOCTYPE HTML>] do, get the same label. *)
Theorem detectHTMLVersion_ignores_case unicodeUpper order s t :
  isASCII s = true -> isASCII t = true ->
  mapBytes upperByte s = mapBytes upperByte t ->
  detectHTMLVersion unicodeUpper order s = detectHTMLVersion unicodeUpper order t.
Proof.
  intros Hs Ht H. unfold detectHTMLVersion.
  rewrite <- (extractDOCTYPE_upper unicodeUpper s Hs),
          <- (extractDOCTYPE_upper unicodeUpper t Ht), H.
  reflexivity.
Qed.

Lemma detectHTMLVersion_ignores_case_witness :
  detectHTMLVersion asciiOnly declaredOrder
    "<!doctype html public '-//w3c//dtd xhtml 1.0 strict//en'>"
  = detectHTMLVersion asciiOnly declaredOrder
      "<!DOCTYPE html PUBLIC '-//W3C//DTD XHTML 1.0 Strict//EN'>".
Proof.
  apply (detectHTMLVersion_ignores_case asciiOnly declaredOrder
           "<!doctype html public '-//w3c//dtd xhtml 1.0 strict//en'>"
           "<!DOCTYPE html PUBLIC '-//W3C//DTD XHTML 1.0 Strict//EN'>");
    reflexivity.
Defined.

End ClassifierCase.
